(** * ModelSafe: the model base class (src/model.ts and its earlier variant)

    A shallow embedding of [Model]'s constructor, [serialize], [deserialize]
    and [validate], followed by the properties of the engine that the
    specification states.

    JavaScript objects (model instances, JSON data, serialized results, the
    validation error report) are finite maps from property names to values
    ([gmap string _]).  The metadata registries are association lists,
    because the loops of the source run over [Object.keys] in registration
    order and the first failing association decides which error is thrown. *)

From stdpp Require Import gmap strings list fin_maps pretty.
From Stdlib Require Import ZArith.

Set Warnings "-register-all".
Local Open Scope Z_scope.

(** ** JavaScript values *)

(** The values that flow through the engine.  Numbers are only carried
    around and tested for truthiness, never computed with, so [Z] stands for
    them.  A [Date] object holds its time value, [None] for an invalid date.
    Class instances and plain objects are both [VObj]: the engine only reads
    their enumerable properties. *)
Inductive value :=
| VUndef
| VNull
| VBool (b : bool)
| VNum (n : Z)
| VStr (s : string)
| VDate (t : option Z)
| VArr (items : list value)
| VObj (fields : gmap string value).

(** JavaScript truthiness, as used by [attr.defaultValue] in a condition. *)
Definition truthy (v : value) : bool :=
  match v with
  | VUndef | VNull => false
  | VBool b => b
  | VNum n => negb (n =? 0)
  | VStr s => negb (String.eqb s "")
  | VDate _ | VArr _ | VObj _ => true
  end.

(** [typeof v === 'string'] *)
Definition is_string (v : value) : bool :=
  match v with VStr _ => true | _ => false end.

(** [o[key]] on an object: a missing property reads as [undefined]. *)
Definition prop (o : gmap string value) (key : string) : value :=
  default VUndef (o !! key).

(** The characters of a string, each as a one-character string. *)
Fixpoint chars (s : string) : list value :=
  match s with
  | EmptyString => []
  | String c s' => VStr (String c EmptyString) :: chars s'
  end.

(** The index-keyed properties of an array-like: ["0"], ["1"], ... *)
Definition indexed (l : list value) : gmap string value :=
  list_to_map (imap (λ i x, (pretty i, x)) l).

(** ** The lodash functions the model uses *)
Module Lodash.

(** [_.isNil] *)
Definition isNil (v : value) : bool :=
  match v with VUndef | VNull => true | _ => false end.

(** [_.isArray] *)
Definition isArray (v : value) : bool :=
  match v with VArr _ => true | _ => false end.

(** [_.isPlainObject] *)
Definition isPlainObject (v : value) : bool :=
  match v with VObj _ => true | _ => false end.

(** [_.toPlainObject]: the enumerable string-keyed properties of a value
    as a plain object.  Arrays and strings contribute their indices;
    numbers, booleans, dates, [null] and [undefined] have none. *)
Definition toPlainObject (v : value) : gmap string value :=
  match v with
  | VObj fields => fields
  | VArr items => indexed items
  | VStr s => indexed (chars s)
  | _ => ∅
  end.

(** [_.clone] of a plain object (a shallow copy). *)
Definition clone (v : value) : gmap string value :=
  match v with VObj fields => fields | _ => ∅ end.

(** [_.pick(object, paths)]: the properties of [object] named in [paths],
    written into a fresh object one path after the other. *)
Definition pick (object : gmap string value) (paths : list string)
  : gmap string value :=
  foldl (λ result key,
           match object !! key with
           | Some v => <[key := v]> result
           | None => result
           end) ∅ paths.

(** The value [_.merge] leaves under a key whose destination holds
    [objValue] ([None] when the key is not in the destination) and whose
    source holds [srcValue].  Arrays and plain objects are merged
    recursively, into the destination value when that is of the same
    shape and into a fresh container otherwise; a source [undefined] is
    skipped when the destination has the key; every other value is
    assigned. *)
Fixpoint mergeValue (objValue : option value) (srcValue : value)
  {struct srcValue} : value :=
  match srcValue with
  | VObj src =>
      let dst := match objValue with Some (VObj o) => o | _ => ∅ end in
      VObj (map_imap (λ key s, Some (mergeValue (dst !! key) s)) src ∪ dst)
  | VArr src =>
      let dst := match objValue with Some (VArr a) => a | _ => [] end in
      VArr ((fix go (src dst : list value) : list value :=
               match src with
               | [] => dst
               | s :: src' =>
                   mergeValue (head dst) s :: go src' (tail dst)
               end) src dst)
  | VUndef => default VUndef objValue
  | _ => srcValue
  end.

(** [_.merge(object, source)] *)
Definition merge (object : gmap string value) (source : value)
  : gmap string value :=
  map_imap (λ key s, Some (mergeValue (object !! key) s))
           (toPlainObject source) ∪ object.

End Lodash.

(** ** Metadata: attributes, associations, validations *)

(** A default value or an association target is either given directly or as
    a zero-argument function that produces it when called. *)
Inductive MaybeLazy (A : Type) :=
| Concrete (a : A)
| LazyLoad (f : unit → A).
Arguments Concrete {A} a.
Arguments LazyLoad {A} f.

(** Modelled from the spec: [isLazyLoad] of src/association.ts, which is not
    among the sources; it is "distinguishing a zero-argument resolver
    function from a concrete value/type". *)
Definition isLazyLoad {A} (x : MaybeLazy A) : bool :=
  match x with LazyLoad _ => true | Concrete _ => false end.

(** What a validator throws: a [PropertyValidationError] or another error. *)
Inductive Thrown :=
| ThrowProperty (type message : string)
| ThrowOther (message : string).

(** [attr.type]: the tag [type.type] and the optional [type.validate];
    a validator returns [None] when it resolves. *)
Record AttributeType := {
  type_tag : string;
  type_validate : option (string → value → option Thrown)
}.

(** An attribute descriptor.  [defaultValue] is [Concrete VUndef] when the
    attribute has no default. *)
Record Attribute := {
  attr_type : AttributeType;
  defaultValue : MaybeLazy value;
  optional : bool
}.

(** A decorated validation: [validation.cb(key, value, validation.options)]. *)
Record Validation := {
  cb : string → value → value → option Thrown;
  options : value
}.

Inductive AssociationType := HAS_ONE | BELONGS_TO | HAS_MANY | BELONGS_TO_MANY.

(** An association descriptor; an undefined model constructor is [None]. *)
Record Association (ModelCtor : Type) := {
  assoc_type : AssociationType;
  target : MaybeLazy (option ModelCtor)
}.
Arguments assoc_type {ModelCtor} _.
Arguments target {ModelCtor} _.

(** The lookups of src/metadata.ts, taken as given. *)
Record Metadata (ModelCtor : Type) := {
  getAttributes : ModelCtor → list (string * Attribute);
  getAssociations : ModelCtor → list (string * Association ModelCtor);
  getAttributeValidations : ModelCtor → string → list Validation
}.
Arguments getAttributes {ModelCtor} _ _.
Arguments getAssociations {ModelCtor} _ _.
Arguments getAttributeValidations {ModelCtor} _ _ _.

(** ** Errors and outcomes *)

(** One entry of a validation report. *)
Record ErrorEntry := { err_type : string; err_message : string }.

(** [ModelErrors]: attribute name to its entries. *)
Abbreviation ModelErrors := (gmap string (list ErrorEntry)).

Inductive error (ModelCtor : Type) :=
| DefinitionError (message : string)
| TypeError
| ValidationError (ctor : ModelCtor) (message : string) (errors : ModelErrors).
Arguments DefinitionError {ModelCtor} message.
Arguments TypeError {ModelCtor}.
Arguments ValidationError {ModelCtor} ctor message errors.

Definition is_ValidationError {ModelCtor} (e : error ModelCtor) : bool :=
  match e with ValidationError _ _ _ => true | _ => false end.

(** The result of an asynchronous method: it resolves, it rejects, or the
    recursion bound of the embedding is exhausted (which [serialize] and
    [deserialize] below never are). *)
Inductive outcome (ModelCtor A : Type) :=
| Return (a : A)
| Throw (e : error ModelCtor)
| OutOfFuel.
Arguments Return {ModelCtor A} a.
Arguments Throw {ModelCtor A} e.
Arguments OutOfFuel {ModelCtor A}.

Definition bind {M A B} (x : outcome M A) (k : A → outcome M B) : outcome M B :=
  match x with
  | Return a => k a
  | Throw e => Throw e
  | OutOfFuel => OutOfFuel
  end.

Notation "'let*' x := e 'in' k" := (bind e (λ x, k))
  (at level 10, x binder, e at level 100, k at level 200).

(** A [for ... of] loop that awaits in its body. *)
Fixpoint forOf {M S X} (body : S → X → outcome M S) (l : list X) (s : S)
  : outcome M S :=
  match l with
  | [] => Return s
  | x :: l' => let* s' := body s x in forOf body l' s'
  end.

(** [Promise.all(_.map(items, f))], taken in index order: the results in
    order, or the failure of the first item that fails. *)
Fixpoint promiseAll {M X Y} (f : X → outcome M Y) (items : list X)
  : outcome M (list Y) :=
  match items with
  | [] => Return []
  | x :: items' =>
      let* y := f x in
      let* ys := promiseAll f items' in
      Return (y :: ys)
  end.

(** ** Options *)

Module ModelConstructorOptions.
Record t := mk { defaults : option bool }.
End ModelConstructorOptions.

Module SerializeOptions.
Record t := mk { associations : option bool; depth : option Z }.
(** No options given. *)
Definition none : t := mk None None.
End SerializeOptions.

Module DeserializeOptions.
Record t := mk {
  associations : option bool;
  depth : option Z;
  validate : option bool
}.
Definition none : t := mk None None None.
End DeserializeOptions.

Module ValidationOptions.
Record t := mk { required : option bool }.
Definition none : t := mk None.
End ValidationOptions.

(** ** Validation *)

(** What one [validate] call does that the outside can observe: the
    validators it invokes, with their arguments, and the lazy defaults it
    resolves. *)
Inductive Event :=
| ResolveDefault (key : string)
| TypeValidate (key : string) (v : value)
| RunValidation (key : string) (v : value) (opts : value).

(** [coerceError] *)
Definition coerceError (err : Thrown) : ErrorEntry :=
  match err with
  | ThrowProperty type message => {| err_type := type; err_message := message |}
  | ThrowOther message => {| err_type := "unknown"; err_message := message |}
  end.

Definition required_error : ErrorEntry :=
  {| err_type := "attribute.required"; err_message := "Value is required" |}.

(** A [try { await f } catch (err) { attrErrors.push(coerceError(err)) }]. *)
Definition caught (r : option Thrown) : list ErrorEntry :=
  match r with
  | Some err => [coerceError err]
  | None => []
  end.

(** The loop over the decorated validations: each one is called, whatever
    the ones before it did. *)
Fixpoint runValidations (key : string) (v : value) (validations : list Validation)
  : list Event * list ErrorEntry :=
  match validations with
  | [] => ([], [])
  | validation :: rest =>
      let r := cb validation key v (options validation) in
      let '(events, errors) := runValidations key v rest in
      (RunValidation key v (options validation) :: events, caught r ++ errors)
  end.

(** [errors[key] = (errors[key] || []).concat(attrErrors)], skipped when
    [attrErrors] is empty. *)
Definition record (key : string) (attrErrors : list ErrorEntry)
  (errors : ModelErrors) : ModelErrors :=
  if (length attrErrors <? 1)%nat then errors
  else <[key := default [] (errors !! key) ++ attrErrors]> errors.

(** The end of [validate]: throw when the report has a key. *)
Definition finish {ModelCtor} (this : ModelCtor) (errors : ModelErrors)
  : outcome ModelCtor unit :=
  if (0 <? size errors)%nat
  then Throw (ValidationError this "Validation error" errors)
  else Return ().

(** *** The first variant of the class: no associations, no options *)
Module BaseModel.
Section Defs.
Context {ModelCtor : Type} (md : Metadata ModelCtor).

(** The body of the loop over the attributes, up to the final test on
    [attrErrors]: the validator calls it makes and the [attrErrors] it
    collects, [None] when it leaves through the first [continue]. *)
Definition validateAttribute (key : string) (attr : Attribute) (v : value)
  (validations : list Validation) : list Event * option (list ErrorEntry) :=
  if Lodash.isNil v && optional attr then ([], None)
  else
    let attrErrors := if Lodash.isNil v then [required_error] else [] in
    let '(events1, attrErrors) :=
      match type_validate (attr_type attr) with
      | Some f => ([TypeValidate key v], attrErrors ++ caught (f key v))
      | None => ([], attrErrors)
      end in
    let '(events2, errors2) := runValidations key v validations in
    (events1 ++ events2, Some (attrErrors ++ errors2)).

(** The loop of [validate]: the events so far and the report so far. *)
Definition validateLoop (this : ModelCtor) (instance : gmap string value)
  (attrs : list (string * Attribute)) (st : list Event * ModelErrors)
  : list Event * ModelErrors :=
  foldl (λ st '(key, attr),
           let v := prop instance key in
           let validations := getAttributeValidations md this key in
           let '(events, r) := validateAttribute key attr v validations in
           (st.1 ++ events,
            match r with
            | None => st.2
            | Some attrErrors => record key attrErrors st.2
            end)) st attrs.

(** [validate()], with the trace of what it invoked. *)
Definition validate (this : ModelCtor) (instance : gmap string value)
  : list Event * outcome ModelCtor unit :=
  let attrs := getAttributes md this in
  let '(events, errors) := validateLoop this instance attrs ([], ∅) in
  (events, finish this errors).

End Defs.
End BaseModel.

(** *** src/model.ts *)
Section Defs.
Context {ModelCtor : Type} (md : Metadata ModelCtor).

(** The attribute type [DATE] of src/attribute.ts, and what [new Date(s)]
    makes of a string: both come from outside src/model.ts. *)
Context (DATE : AttributeType) (parseDate : string → option Z).

(** [isLazyLoad(x) ? x() : x] *)
Definition resolve {A} (x : MaybeLazy A) : A :=
  match x with
  | LazyLoad f => f ()
  | Concrete a => a
  end.

(** [attr.defaultValue] as a condition: a function is truthy. *)
Definition defaultValue_truthy (d : MaybeLazy value) : bool :=
  match d with
  | LazyLoad _ => true
  | Concrete v => truthy v
  end.

(** [typeof (attr.defaultValue) !== 'undefined'] *)
Definition defaultValue_defined (d : MaybeLazy value) : bool :=
  match d with
  | Concrete VUndef => false
  | _ => true
  end.

(** **** The constructor *)
Definition constructor (this : ModelCtor) (data : value)
  (opts : ModelConstructorOptions.t) : gmap string value :=
  let defaults := default true (ModelConstructorOptions.defaults opts) in
  let instance :=
    if defaults then
      foldl (λ instance '(key, attr),
               if defaultValue_defined (defaultValue attr)
               then <[key := resolve (defaultValue attr)]> instance
               else instance) ∅ (getAttributes md this)
    else ∅ in
  Lodash.merge instance data.

(** **** validate *)

(** The value handed to the type validator, and the lazy default resolved
    on the way. *)
Definition substituteDefault (key : string) (attr : Attribute) (v : value)
  : list Event * value :=
  if Lodash.isNil v && defaultValue_truthy (defaultValue attr) then
    (if isLazyLoad (defaultValue attr) then [ResolveDefault key] else [],
     resolve (defaultValue attr))
  else ([], v).

(** The body of the loop over the attributes, up to the final test on
    [attrErrors]; [None] when it leaves through the first [continue]. *)
Definition validateAttribute (required : bool) (key : string)
  (attr : Attribute) (v : value) (validations : list Validation)
  : list Event * option (list ErrorEntry) :=
  if Lodash.isNil v && (optional attr || negb required) then ([], None)
  else
    let attrErrors := if Lodash.isNil v then [required_error] else [] in
    let '(events1, v, attrErrors) :=
      match type_validate (attr_type attr) with
      | Some f =>
          let '(events, v) := substituteDefault key attr v in
          (events ++ [TypeValidate key v], v, attrErrors ++ caught (f key v))
      | None => ([], v, attrErrors)
      end in
    let '(events2, errors2) := runValidations key v validations in
    (events1 ++ events2, Some (attrErrors ++ errors2)).

Definition validateLoop (required : bool) (this : ModelCtor)
  (instance : gmap string value) (attrs : list (string * Attribute))
  (st : list Event * ModelErrors) : list Event * ModelErrors :=
  foldl (λ st '(key, attr),
           let v := prop instance key in
           let validations := getAttributeValidations md this key in
           let '(events, r) :=
             validateAttribute required key attr v validations in
           (st.1 ++ events,
            match r with
            | None => st.2
            | Some attrErrors => record key attrErrors st.2
            end)) st attrs.

(** [validate(options)], with the trace of what it invoked. *)
Definition validate (this : ModelCtor) (instance : gmap string value)
  (opts : ValidationOptions.t) : list Event * outcome ModelCtor unit :=
  let required := default true (ValidationOptions.required opts) in
  let attrs := getAttributes md this in
  let '(events, errors) :=
    validateLoop required this instance attrs ([], ∅) in
  (events, finish this errors).

(** **** serialize *)

(** [instance[key]]: reading a property of [null] or [undefined] throws. *)
Definition getProperty (instance : value) (key : string)
  : outcome ModelCtor value :=
  if Lodash.isNil instance then Throw TypeError
  else Return (prop (Lodash.toPlainObject instance) key).

(** [assoc.type === HAS_MANY || assoc.type === BELONGS_TO_MANY] *)
Definition toMany (assoc : Association ModelCtor) : bool :=
  match assoc_type assoc with
  | HAS_MANY | BELONGS_TO_MANY => true
  | _ => false
  end.

(** [assocOptions.depth >= 0]; a missing depth compares false. *)
Definition depthAllows (d : option Z) : bool :=
  match d with
  | Some d => 0 <=? d
  | None => false
  end.

(** One round of the loop over the associations in [serialize]. *)
Definition serializeAssociation
  (rec : ModelCtor → value → SerializeOptions.t
         → outcome ModelCtor (gmap string value))
  (instance : value) (assocOptions : SerializeOptions.t)
  (result : gmap string value) (entry : string * Association ModelCtor)
  : outcome ModelCtor (gmap string value) :=
  let '(key, assoc) := entry in
  let* v := getProperty instance key in
  if Lodash.isNil v then Return result
  else
    match resolve (target assoc) with
    | None =>
        Throw (DefinitionError
          ("Cannot serialize because association " +:+ key +:+ " is not defined"))
    | Some target =>
        if depthAllows (SerializeOptions.depth assocOptions) then
          if toMany assoc then
            match v with
            | VArr items =>
                let* rs := promiseAll (λ item, rec target item assocOptions) items in
                Return (<[key := VArr (VObj <$> rs)]> result)
            | _ => Return (<[key := VArr []]> result)
            end
          else
            let* r := rec target v assocOptions in
            Return (<[key := VObj r]> result)
        else Return result
    end.

(** The static [serialize], with [rec] for its calls to itself. *)
Definition serializeBody
  (rec : ModelCtor → value → SerializeOptions.t
         → outcome ModelCtor (gmap string value))
  (this : ModelCtor) (instance : value) (opts : SerializeOptions.t)
  : outcome ModelCtor (gmap string value) :=
  let associations := default true (SerializeOptions.associations opts) in
  let depth := default 1 (SerializeOptions.depth opts) in
  let assocOptions := SerializeOptions.mk (Some associations) (Some (depth - 1)) in
  let attrs := getAttributes md this in
  let assocs := getAssociations md this in
  let result := Lodash.pick (Lodash.toPlainObject instance) attrs.*1 in
  if associations then
    forOf (serializeAssociation rec instance assocOptions) assocs result
  else Return result.

(** [serialize] with at most [fuel] nested levels of calls. *)
Fixpoint serializeFuel (fuel : nat) (this : ModelCtor) (instance : value)
  (opts : SerializeOptions.t) : outcome ModelCtor (gmap string value) :=
  serializeBody
    (match fuel with
     | O => λ _ _ _, OutOfFuel
     | S fuel' => serializeFuel fuel'
     end) this instance opts.

(** The static [serialize].  A call nests only when its [depth] is at
    least 1 and hands [depth - 1] down, so [depth] levels are enough. *)
Definition serialize (this : ModelCtor) (instance : value)
  (opts : SerializeOptions.t) : outcome ModelCtor (gmap string value) :=
  serializeFuel (Z.to_nat (default 1 (SerializeOptions.depth opts)))
                this instance opts.

(** **** deserialize *)

(** The [forEach] that turns the ISO strings of date attributes into
    [Date] objects. *)
Definition convertDates (attrs : list (string * Attribute))
  (instance : gmap string value) : gmap string value :=
  foldl (λ instance '(key, attr),
           match prop instance key with
           | VStr s =>
               if String.eqb (type_tag (attr_type attr)) (type_tag DATE)
               then <[key := VDate (parseDate s)]> instance
               else instance
           | _ => instance
           end) instance attrs.

(** One round of the loop over the associations in [deserialize]. *)
Definition deserializeAssociation
  (rec : ModelCtor → value → DeserializeOptions.t
         → outcome ModelCtor (gmap string value))
  (data : gmap string value) (assocOptions : DeserializeOptions.t)
  (instance : gmap string value) (entry : string * Association ModelCtor)
  : outcome ModelCtor (gmap string value) :=
  let '(key, assoc) := entry in
  let v := prop data key in
  if Lodash.isNil v then Return instance
  else
    match resolve (target assoc) with
    | None =>
        Throw (DefinitionError
          ("Cannot deserialize because association " +:+ key +:+ " is not defined"))
    | Some target =>
        if depthAllows (DeserializeOptions.depth assocOptions) then
          if toMany assoc then
            match v with
            | VArr items =>
                let* rs := promiseAll (λ item, rec target item assocOptions) items in
                Return (<[key := VArr (VObj <$> rs)]> instance)
            | _ => Return (<[key := VArr []]> instance)
            end
          else
            let* r := rec target v assocOptions in
            Return (<[key := VObj r]> instance)
        else Return instance
    end.

(** The static [deserialize], with [rec] for its calls to itself. *)
Definition deserializeBody
  (rec : ModelCtor → value → DeserializeOptions.t
         → outcome ModelCtor (gmap string value))
  (this : ModelCtor) (data : value) (opts : DeserializeOptions.t)
  : outcome ModelCtor (gmap string value) :=
  let validating := default true (DeserializeOptions.validate opts) in
  let associations := default true (DeserializeOptions.associations opts) in
  let depth := default 1 (DeserializeOptions.depth opts) in
  let assocOptions :=
    DeserializeOptions.mk (Some associations) (Some (depth - 1)) (Some validating) in
  let data :=
    if Lodash.isPlainObject data then Lodash.clone data
    else Lodash.toPlainObject data in
  let attrs := getAttributes md this in
  let assocs := getAssociations md this in
  let instance :=
    constructor this (VObj (Lodash.pick data attrs.*1))
                (ModelConstructorOptions.mk (Some false)) in
  let instance := convertDates attrs instance in
  let* instance :=
    if associations then
      forOf (deserializeAssociation rec data assocOptions) assocs instance
    else Return instance in
  let* _ :=
    if validating then (validate this instance ValidationOptions.none).2
    else Return () in
  Return instance.

Fixpoint deserializeFuel (fuel : nat) (this : ModelCtor) (data : value)
  (opts : DeserializeOptions.t) : outcome ModelCtor (gmap string value) :=
  deserializeBody
    (match fuel with
     | O => λ _ _ _, OutOfFuel
     | S fuel' => deserializeFuel fuel'
     end) this data opts.

(** The static [deserialize]; [depth] levels are enough, as for
    [serialize]. *)
Definition deserialize (this : ModelCtor) (data : value)
  (opts : DeserializeOptions.t) : outcome ModelCtor (gmap string value) :=
  deserializeFuel (Z.to_nat (default 1 (DeserializeOptions.depth opts)))
                  this data opts.

End Defs.

(** ** Notions derived from the loop body of [validate] *)

(** The attribute an event belongs to. *)
Definition eventKey (ev : Event) : string :=
  match ev with
  | ResolveDefault key | TypeValidate key _ | RunValidation key _ _ => key
  end.

Section Derived.
Context {ModelCtor : Type} (md : Metadata ModelCtor).

(** What the loop of [validate] does for one registered attribute of an
    instance: the validator calls, and the entries it collects. *)
Definition attrStep (required : bool) (this : ModelCtor)
  (instance : gmap string value) (key : string) (attr : Attribute)
  : list Event * option (list ErrorEntry) :=
  validateAttribute required key attr (prop instance key)
                    (getAttributeValidations md this key).

Definition attrErrors (required : bool) (this : ModelCtor)
  (instance : gmap string value) (key : string) (attr : Attribute)
  : list ErrorEntry :=
  default [] (attrStep required this instance key attr).2.

(** The same for the first variant of the class. *)
Definition baseStep (this : ModelCtor) (instance : gmap string value)
  (key : string) (attr : Attribute) : list Event * option (list ErrorEntry) :=
  BaseModel.validateAttribute key attr (prop instance key)
                              (getAttributeValidations md this key).


(** The value the decorated validations of an attribute are called with:
    the one the type validation left in [value]. *)
Definition validatedValue (key : string) (attr : Attribute) (v : value) : value :=
  match type_validate (attr_type attr) with
  | Some _ => (substituteDefault key attr v).2
  | None => v
  end.

End Derived.

(** Both variants of [validate] run this loop, each with its own body. *)
Definition runLoop (step : string → Attribute → list Event * option (list ErrorEntry))
  (attrs : list (string * Attribute)) (st : list Event * ModelErrors)
  : list Event * ModelErrors :=
  foldl (λ st '(key, attr),
           let '(events, r) := step key attr in
           (st.1 ++ events,
            match r with
            | None => st.2
            | Some attrErrors => record key attrErrors st.2
            end)) st attrs.

(** ** Instances that [serialize] can expand *)

Section Expandable.
Context {ModelCtor : Type} (md : Metadata ModelCtor).

(** [expandable n this instance]: down to [n] levels of associations
    below [instance], the objects reached are not nil and every
    association that holds a value has a defined target. *)
Fixpoint expandable (n : nat) (this : ModelCtor) (instance : value) : bool :=
  negb (Lodash.isNil instance) &&
  forallb (λ '(key, assoc),
             let v := prop (Lodash.toPlainObject instance) key in
             Lodash.isNil v ||
             match resolve (target assoc) with
             | None => false
             | Some target =>
                 match n with
                 | O => true
                 | S n' =>
                     if toMany assoc then
                       match v with
                       | VArr items => forallb (expandable n' target) items
                       | _ => true
                       end
                     else expandable n' target v
                 end
             end) (getAssociations md this).

(** The plain attributes of an instance: what [serialize] starts from. *)
Definition plainAttributes (this : ModelCtor) (instance : value)
  : gmap string value :=
  Lodash.pick (Lodash.toPlainObject instance) (getAttributes md this).*1.

(** An association of [this] that holds a value on [instance] although its
    target is not defined. *)
Definition undefinedTarget (this : ModelCtor) (instance : gmap string value)
  (key : string) : Prop :=
  ∃ assoc, (key, assoc) ∈ getAssociations md this ∧
           Lodash.isNil (prop instance key) = false ∧
           resolve (target assoc) = None.

End Expandable.

Section Messages.
Context {ModelCtor : Type} (md : Metadata ModelCtor).

(** What one level of expansion writes under the key of an association
    with target [target] that holds [v]: the plain attributes of the
    associated instance, or of each instance in the collection. *)
Definition expandedOnce (assoc : Association ModelCtor) (target : ModelCtor)
  (v : value) : value :=
  if toMany assoc then
    match v with
    | VArr items => VArr ((λ item, VObj (plainAttributes md target item)) <$> items)
    | _ => VArr []
    end
  else VObj (plainAttributes md target v).

(** The definition errors of [serialize] and [deserialize]. *)
Definition cannotSerialize (key : string) : error ModelCtor :=
  DefinitionError
    ("Cannot serialize because association " +:+ key +:+ " is not defined").

Definition cannotDeserialize (key : string) : error ModelCtor :=
  DefinitionError
    ("Cannot deserialize because association " +:+ key +:+ " is not defined").

End Messages.

(** The size of a value, for induction on the values nested in it. *)
Fixpoint vsize (v : value) : nat :=
  match v with
  | VArr items => S (foldr (λ x n, vsize x + n)%nat O items)
  | VObj fields => S (map_fold (λ _ x n, vsize x + n)%nat O fields)
  | _ => 1%nat
  end.

(** [instance[key]] holds a [Date] object. *)
Definition is_date (v : value) : bool :=
  match v with VDate _ => true | _ => false end.

(** ** A small family of models to run the engine on *)
Module Demo.

(** Attribute types in the manner of src/attribute.ts: each validator
    rejects the values that are not of its type. *)
Definition STRING : AttributeType := {|
  type_tag := "string";
  type_validate := Some (λ _ v,
    match v with
    | VStr _ => None
    | _ => Some (ThrowProperty "attribute.string" "Not a string")
    end)
|}.

Definition INTEGER : AttributeType := {|
  type_tag := "integer";
  type_validate := Some (λ _ v,
    match v with
    | VNum _ => None
    | _ => Some (ThrowProperty "attribute.integer" "Not an integer")
    end)
|}.

Definition DATE : AttributeType := {|
  type_tag := "date";
  type_validate := Some (λ _ v,
    match v with
    | VDate _ => None
    | _ => Some (ThrowProperty "attribute.date" "Not a date")
    end)
|}.

(** A stand-in for the parser behind [new Date(s)]: it knows one
    timestamp and takes every other string for an invalid date. *)
Definition parseDate (s : string) : option Z :=
  if String.eqb s "2020-01-01T00:00:00.000Z" then Some 1577836800000 else None.

Definition required (t : AttributeType) : Attribute :=
  {| attr_type := t; defaultValue := Concrete VUndef; optional := false |}.

(** A decorated validation that throws a plain [Error] unless the value is
    a non-empty string. *)
Definition notEmpty : Validation := {|
  cb := λ _ v _,
    match v with
    | VStr s => if String.eqb s "" then Some (ThrowOther "Must not be empty") else None
    | _ => Some (ThrowOther "Must not be empty")
    end;
  options := VUndef
|}.

Inductive Ctor :=
| Parent | Child | Toy      (* a parent has many children, a child many toys *)
| Owner | Pet               (* an owner has a pet and an ill-defined ghost *)
| Account                   (* two required attributes, one decorated *)
| Counter                   (* an attribute whose default is 0 *)
| Profile                   (* an optional attribute with a default *)
| Ticket                    (* a required attribute with a lazy default *)
| Crew                      (* a to-many association without a target *)
| Appointment.              (* a date attribute, no association *)

Definition attributes (m : Ctor) : list (string * Attribute) :=
  match m with
  | Parent | Child | Owner | Pet | Crew => [("name", required STRING)]
  | Toy => [("label", required STRING)]
  | Account => [("email", required STRING); ("age", required INTEGER)]
  | Counter =>
      [("count", {| attr_type := INTEGER;
                    defaultValue := Concrete (VNum 0);
                    optional := false |})]
  | Profile =>
      [("nickname", {| attr_type := STRING;
                       defaultValue := Concrete (VStr "anon");
                       optional := true |})]
  | Ticket =>
      [("code", {| attr_type := STRING;
                   defaultValue := LazyLoad (λ _, VStr "T-0");
                   optional := false |})]
  | Appointment => [("title", required STRING); ("at", required DATE)]
  end.

Definition associations (m : Ctor) : list (string * Association Ctor) :=
  match m with
  | Parent =>
      [("children", {| assoc_type := HAS_MANY;
                       target := LazyLoad (λ _, Some Child) |})]
  | Child =>
      [("toys", {| assoc_type := HAS_MANY; target := Concrete (Some Toy) |});
       ("parent", {| assoc_type := BELONGS_TO;
                     target := LazyLoad (λ _, Some Parent) |})]
  | Owner =>
      [("pet", {| assoc_type := HAS_ONE; target := Concrete (Some Pet) |});
       ("ghost", {| assoc_type := HAS_ONE; target := LazyLoad (λ _, None) |})]
  | Crew =>
      [("members", {| assoc_type := HAS_MANY; target := LazyLoad (λ _, None) |})]
  | _ => []
  end.

Definition validations (m : Ctor) (key : string) : list Validation :=
  match m with
  | Account => if String.eqb key "email" then [notEmpty] else []
  | _ => []
  end.

Definition md : Metadata Ctor := {|
  getAttributes := attributes;
  getAssociations := associations;
  getAttributeValidations := validations
|}.

(** Instances and JSON data. *)
Definition obj (l : list (string * value)) : value := VObj (list_to_map l).

Definition toy : value := obj [("label", VStr "ball")].
Definition child : value :=
  obj [("name", VStr "Kim"); ("toys", VArr [toy])].
Definition parent : value :=
  obj [("name", VStr "Lee"); ("children", VArr [child])].

(** An account with neither attribute set. *)
Definition emptyAccount : gmap string value := ∅.

(** A counter whose [count] is not set. *)
Definition emptyCounter : gmap string value := ∅.

(** An owner whose pet has no name. *)
Definition haunted : value :=
  obj [("name", VStr "Max"); ("pet", obj []); ("ghost", obj [])].

(** An owner without a pet. *)
Definition possessed : value :=
  obj [("name", VStr "Max"); ("ghost", obj [])].

Definition appointment : value :=
  obj [("title", VStr "Dentist"); ("at", VDate (Some 1577836800000));
       ("note", VStr "not an attribute")].

(** A parent whose [children] is not an array. *)
Definition oddParent : value :=
  obj [("name", VStr "Lee"); ("children", VStr "not-an-array")].

(** A crew whose [members] is not an array. *)
Definition oddCrew : value :=
  obj [("name", VStr "Nostromo"); ("members", VStr "not-an-array")].

End Demo.

(** ** The rest of the first variant of the class *)
Module BaseEngine.

(** The options of the first [deserialize]: [validate] only. *)
Record DeserializeOptions := { validate : option bool }.

Section Defs.
Context {ModelCtor : Type} (md : Metadata ModelCtor).

(** [new this(data, { defaults: false })]: with [defaults] off the
    constructor skips the loop over the defaults and merges the data onto
    the fresh instance. *)
Definition constructWithoutDefaults (data : value) : gmap string value :=
  Lodash.merge ∅ data.

(** The static [deserialize] of the first variant.  It keeps every field
    of the data, reads [options.validate] without a default, and so throws
    on missing options. *)
Definition deserialize (this : ModelCtor) (data : value)
  (opts : option DeserializeOptions) : outcome ModelCtor (gmap string value) :=
  let data :=
    if Lodash.isPlainObject data then data
    else VObj (Lodash.toPlainObject data) in
  let instance := constructWithoutDefaults data in
  match opts with
  | None => Throw TypeError
  | Some opts =>
      let* _ :=
        if default false (validate opts)
        then (BaseModel.validate md this instance).2
        else Return () in
      Return instance
  end.

(** The static [serialize] of the first variant. *)
Definition serialize (this : ModelCtor) (instance : value)
  : outcome ModelCtor (gmap string value) :=
  Return (Lodash.toPlainObject instance).

End Defs.
End BaseEngine.

(** ** Notions for the properties of the engine *)

Section Plain.
Context {ModelCtor : Type} (md : Metadata ModelCtor).
Context (DATE : AttributeType) (parseDate : string → option Z).

(** What [deserialize] builds before it turns to the associations: the
    attributes picked from the data, dates converted. *)
Definition pickedAttributes (this : ModelCtor) (data : value)
  : gmap string value :=
  convertDates DATE parseDate (getAttributes md this)
    (Lodash.pick (Lodash.toPlainObject data) (getAttributes md this).*1).

(** What the loop of [validate] in src/model.ts collects for an attribute
    that holds [v] and is not passed over: the required entry for a nil
    value, what the type validator throws at the substituted value, what
    each decorated validation throws, in this order. *)
Definition collected (this : ModelCtor) (key : string) (attr : Attribute)
  (v : value) : list ErrorEntry :=
  let w := validatedValue key attr v in
  (if Lodash.isNil v then [required_error] else []) ++
  match type_validate (attr_type attr) with
  | Some f => caught (f key w)
  | None => []
  end ++
  mjoin ((λ r, caught (cb r key w (options r)))
         <$> getAttributeValidations md this key).

(** An attribute accepts a value: its type validator, if it has one, and
    all its decorated validations resolve. *)
Definition accepts (this : ModelCtor) (key : string) (attr : Attribute)
  (v : value) : Prop :=
  (∀ f, type_validate (attr_type attr) = Some f → f key v = None) ∧
  (∀ r, r ∈ getAttributeValidations md this key →
        cb r key v (options r) = None).

End Plain.

(** A value that [_.merge] assigns as it is: neither [undefined] nor an
    array nor a plain object. *)
Definition assigned (v : value) : bool :=
  match v with
  | VUndef | VArr _ | VObj _ => false
  | _ => true
  end.

Section DateAttributes.
Context (DATE : AttributeType).

(** A descriptor under [key] has the type tag of [DATE]. *)
Definition isDateAttribute (attrs : list (string * Attribute)) (key : string)
  : bool :=
  existsb (λ '(k, attr),
             String.eqb k key &&
             String.eqb (type_tag (attr_type attr)) (type_tag DATE)) attrs.

End DateAttributes.

(** The same options with [validate: false]. *)
Definition withoutValidation (opts : DeserializeOptions.t) : DeserializeOptions.t :=
  DeserializeOptions.mk (DeserializeOptions.associations opts)
                        (DeserializeOptions.depth opts) (Some false).

(** The options [deserialize] hands to the calls for its associations. *)
Definition nestedDeserializeOptions (opts : DeserializeOptions.t)
  : DeserializeOptions.t :=
  DeserializeOptions.mk
    (Some (default true (DeserializeOptions.associations opts)))
    (Some (default 1 (DeserializeOptions.depth opts) - 1))
    (Some (default true (DeserializeOptions.validate opts))).

(** The options [serialize] hands to the calls for its associations. *)
Definition nestedSerializeOptions (opts : SerializeOptions.t)
  : SerializeOptions.t :=
  SerializeOptions.mk
    (Some (default true (SerializeOptions.associations opts)))
    (Some (default 1 (SerializeOptions.depth opts) - 1)).

(** ** More instances and data for the example models *)
Module DemoMore.

(** An account with a well-formed e-mail address and an age that is a
    string, and a field that is no attribute. *)
Definition oddAccount : gmap string value :=
  {[ "email" := VStr "lee@example.org"; "age" := VStr "forty";
     "token" := VStr "secret" ]}.

(** A valid account. *)
Definition account : gmap string value :=
  {[ "email" := VStr "lee@example.org"; "age" := VNum 40 ]}.

(** An appointment as JSON: the date is an ISO string. *)
Definition appointmentJSON : value :=
  Demo.obj [("title", VStr "Dentist"); ("at", VStr "2020-01-01T00:00:00.000Z");
            ("note", VStr "not an attribute")].

(** A parent as JSON, with one child. *)
Definition parentJSON : value :=
  Demo.obj [("name", VStr "Lee");
            ("children", VArr [Demo.obj [("name", VStr "Kim")]])].

End DemoMore.

(** ** The loop of [validate] *)

Section ValidateLoop.

Variable step : string → Attribute → list Event * option (list ErrorEntry).

Lemma record_nil key errors : record key [] errors = errors.
Proof. reflexivity. Qed.

Lemma record_lookup key es errors k :
  es ≠ [] →
  record key es errors !! k =
    if decide (key = k) then Some (default [] (errors !! k) ++ es)
    else errors !! k.
Proof.
  intros Hes. unfold record.
  destruct es as [|e es]; [done|]. simpl.
  case_decide as Hk.
  - subst. by rewrite lookup_insert_eq.
  - by rewrite lookup_insert_ne.
Qed.

(** Recording never removes an entry of the report. *)
Lemma record_grows key es errors k l :
  errors !! k = Some l →
  ∃ l', record key es errors !! k = Some l' ∧ l ⊆ l'.
Proof.
  intros Hk. destruct es as [|e es].
  - exists l. by rewrite record_nil.
  - rewrite record_lookup; [|done]. case_decide; subst.
    + rewrite Hk. simpl. eexists. split; [done|]. set_solver.
    + by exists l.
Qed.

Lemma runLoop_cons key attr attrs st :
  runLoop step ((key, attr) :: attrs) st =
    runLoop step attrs
      (st.1 ++ (step key attr).1,
       record key (default [] (step key attr).2) st.2).
Proof.
  unfold runLoop. simpl. destruct (step key attr) as [events [es|]]; done.
Qed.

Lemma runLoop_app attrs1 attrs2 st :
  runLoop step (attrs1 ++ attrs2) st = runLoop step attrs2 (runLoop step attrs1 st).
Proof. apply foldl_app. Qed.

(** The trace is the concatenation of what each attribute contributes:
    no attribute is left out, whatever the others reported. *)
Lemma runLoop_events attrs st :
  (runLoop step attrs st).1 =
    st.1 ++ mjoin ((λ '(key, attr), (step key attr).1) <$> attrs).
Proof.
  revert st. induction attrs as [|[key attr] attrs IH]; intros st.
  - simpl. by rewrite app_nil_r.
  - rewrite runLoop_cons, IH. simpl. by rewrite app_assoc.
Qed.

Lemma runLoop_grows attrs st k l :
  st.2 !! k = Some l →
  ∃ l', (runLoop step attrs st).2 !! k = Some l' ∧ l ⊆ l'.
Proof.
  revert st l. induction attrs as [|[key attr] attrs IH]; intros st l Hk.
  - by exists l.
  - rewrite runLoop_cons.
    destruct (record_grows key (default [] (step key attr).2) _ _ _ Hk)
      as (l1 & Hl1 & Hsub).
    destruct (IH (st.1 ++ (step key attr).1,
                  record key (default [] (step key attr).2) st.2) l1 Hl1)
      as (l2 & Hl2 & Hsub2).
    exists l2. split; [done|]. set_solver.
Qed.

(** The entries an attribute collects end up under its key. *)
Lemma runLoop_reports attrs st key attr es :
  (key, attr) ∈ attrs →
  (step key attr).2 = Some es →
  es ≠ [] →
  ∃ l, (runLoop step attrs st).2 !! key = Some l ∧ es ⊆ l.
Proof.
  intros Hin Hstep Hes.
  apply list_elem_of_split in Hin as (attrs1 & attrs2 & ->).
  rewrite runLoop_app, runLoop_cons, Hstep. simpl.
  set (st1 := runLoop step attrs1 st).
  assert (record key es st1.2 !! key = Some (default [] (st1.2 !! key) ++ es)) as Hrec.
  { rewrite record_lookup; [|done]. by rewrite decide_True. }
  destruct (runLoop_grows attrs2 (st1.1 ++ (step key attr).1, record key es st1.2)
              _ _ Hrec) as (l & Hl & Hsub).
  exists l. split; [done|]. set_solver.
Qed.

(** A key without a descriptor in the list stays as it was. *)
Lemma runLoop_untouched attrs st k :
  k ∉ attrs.*1 →
  (runLoop step attrs st).2 !! k = st.2 !! k.
Proof.
  revert st. induction attrs as [|[key attr] attrs IH]; intros st Hk; [done|].
  rewrite runLoop_cons. simpl in Hk.
  apply not_elem_of_cons in Hk as [Hne Hk].
  rewrite IH; [|done]. simpl.
  destruct (default [] (step key attr).2) as [|e es] eqn:E.
  - by rewrite record_nil.
  - rewrite record_lookup; [|done]. by rewrite decide_False.
Qed.

(** A key all of whose descriptors collect nothing stays out of the
    report. *)
Lemma runLoop_skips attrs st k :
  (∀ attr, (k, attr) ∈ attrs → default [] (step k attr).2 = []) →
  (runLoop step attrs st).2 !! k = st.2 !! k.
Proof.
  revert st. induction attrs as [|[key attr] attrs IH]; intros st Hk; [done|].
  rewrite runLoop_cons.
  rewrite IH; [|intros a Ha; apply Hk; by right]. simpl.
  destruct (decide (key = k)) as [->|Hne].
  - rewrite Hk; [|by left]. by rewrite record_nil.
  - destruct (default [] (step key attr).2) as [|e es] eqn:E.
    + by rewrite record_nil.
    + rewrite record_lookup; [|done]. by rewrite decide_False.
Qed.

Lemma finish_throws {ModelCtor} (this : ModelCtor) (errors : ModelErrors) key l :
  errors !! key = Some l →
  finish this errors = Throw (ValidationError this "Validation error" errors).
Proof.
  intros Hk. unfold finish.
  assert (size errors ≠ 0)%nat as Hsz.
  { apply map_size_non_empty_iff. intros ->. by rewrite lookup_empty in Hk. }
  destruct (0 <? size errors)%nat eqn:E; [done|].
  apply Nat.ltb_ge in E. lia.
Qed.

Lemma finish_returns {ModelCtor} (this : ModelCtor) :
  finish this ∅ = Return ().
Proof. reflexivity. Qed.

End ValidateLoop.

(** ** validate *)

Section ValidateTheory.
Context {ModelCtor : Type} (md : Metadata ModelCtor).

Lemma validate_runLoop this instance opts :
  validate md this instance opts =
    let required := default true (ValidationOptions.required opts) in
    let st := runLoop (attrStep md required this instance)
                      (getAttributes md this) ([], ∅) in
    (st.1, finish this st.2).
Proof.
  unfold validate, validateLoop, runLoop, attrStep. simpl.
  by destruct (foldl _ _ _).
Qed.

Lemma base_validate_runLoop this instance :
  BaseModel.validate md this instance =
    let st := runLoop (baseStep md this instance)
                      (getAttributes md this) ([], ∅) in
    (st.1, finish this st.2).
Proof.
  unfold BaseModel.validate, BaseModel.validateLoop, runLoop, baseStep. simpl.
  by destruct (foldl _ _ _).
Qed.

(** Every decorated validation is called, and what each throws is kept. *)
Lemma runValidations_events key v validations :
  (runValidations key v validations).1 =
    (λ r, RunValidation key v (options r)) <$> validations.
Proof.
  induction validations as [|r rest IH]; [done|]. simpl.
  destruct (runValidations key v rest) as [events errors]. simpl in *.
  by rewrite IH.
Qed.

Lemma runValidations_errors key v validations r :
  r ∈ validations →
  caught (cb r key v (options r)) ⊆ (runValidations key v validations).2.
Proof.
  induction validations as [|r' rest IH]; intros Hin.
  - by apply elem_of_nil in Hin.
  - simpl. destruct (runValidations key v rest) as [events errors]. simpl in *.
    apply elem_of_cons in Hin as [->|Hin]; [set_solver|].
    specialize (IH Hin). set_solver.
Qed.

Lemma runValidations_eventKey key v validations ev :
  ev ∈ (runValidations key v validations).1 → eventKey ev = key.
Proof.
  rewrite runValidations_events. intros Hin.
  by apply list_elem_of_fmap in Hin as (r & -> & _).
Qed.

Lemma substituteDefault_eventKey key attr v ev :
  ev ∈ (substituteDefault key attr v).1 → eventKey ev = key.
Proof.
  unfold substituteDefault.
  destruct (_ && _); simpl; [destruct (isLazyLoad _)|]; intros Hin.
  - by apply list_elem_of_singleton in Hin as ->.
  - by apply elem_of_nil in Hin.
  - by apply elem_of_nil in Hin.
Qed.

(** The events of an attribute carry its key. *)
Lemma attrStep_eventKey required this instance key attr ev :
  ev ∈ (attrStep md required this instance key attr).1 → eventKey ev = key.
Proof.
  unfold attrStep, validateAttribute.
  destruct (_ && _); [intros H; by apply elem_of_nil in H|].
  destruct (type_validate (attr_type attr)) as [f|].
  - pose proof (substituteDefault_eventKey key attr (prop instance key)) as Hs.
    destruct (substituteDefault key attr (prop instance key)) as [evs w].
    pose proof (runValidations_eventKey key w
                  (getAttributeValidations md this key)) as Hr.
    destruct (runValidations key w _) as [ev2 er2]. simpl in *.
    intros Hin. rewrite !elem_of_app in Hin.
    destruct Hin as [[Hin|Hin]|Hin]; [by apply Hs| |by apply Hr].
    by apply list_elem_of_singleton in Hin as ->.
  - pose proof (runValidations_eventKey key (prop instance key)
                  (getAttributeValidations md this key)) as Hr.
    destruct (runValidations key _ _) as [ev2 er2]. simpl in *.
    intros Hin. by apply Hr.
Qed.

Lemma runLoop_events_elem step attrs st key attr (ev : Event) :
  (key, attr) ∈ attrs → ev ∈ (step key attr).1 → ev ∈ (runLoop step attrs st).1.
Proof.
  intros Hin Hev. rewrite runLoop_events. apply elem_of_app. right.
  apply list_elem_of_join. exists (step key attr).1. split; [done|].
  apply list_elem_of_fmap. by exists (key, attr).
Qed.

Lemma runLoop_events_inv step attrs (ev : Event) :
  ev ∈ (runLoop step attrs ([], ∅)).1 →
  ∃ key attr, (key, attr) ∈ attrs ∧ ev ∈ (step key attr).1.
Proof.
  rewrite runLoop_events. simpl. intros Hin.
  apply list_elem_of_join in Hin as (evs & Hev & Hevs).
  apply list_elem_of_fmap in Hevs as ([key attr] & -> & Hin).
  by exists key, attr.
Qed.

(** A nil value on a required attribute: the required entry comes first,
    and the type validator and every decorated validation still run. *)
Lemma attrStep_required this instance key attr :
  Lodash.isNil (prop instance key) = true →
  optional attr = false →
  let step := attrStep md true this instance key attr in
  let w := validatedValue key attr (prop instance key) in
  ∃ l, step.2 = Some (required_error :: l) ∧
    (∀ f, type_validate (attr_type attr) = Some f →
          TypeValidate key w ∈ step.1 ∧ caught (f key w) ⊆ l) ∧
    (∀ r, r ∈ getAttributeValidations md this key →
          RunValidation key w (options r) ∈ step.1 ∧
          caught (cb r key w (options r)) ⊆ l).
Proof.
  intros Hnil Hopt. unfold attrStep, validateAttribute, validatedValue.
  rewrite Hnil, Hopt. simpl.
  destruct (type_validate (attr_type attr)) as [f|].
  - destruct (substituteDefault key attr (prop instance key)) as [evs w]. simpl.
    pose proof (runValidations_events key w (getAttributeValidations md this key)) as He.
    pose proof (runValidations_errors key w (getAttributeValidations md this key)) as Hr.
    destruct (runValidations key w _) as [ev2 er2]. simpl in *. subst ev2.
    exists (caught (f key w) ++ er2). split; [done|]. split.
    + intros f' [= <-]. split; set_solver.
    + intros r Hin. split; [|specialize (Hr r Hin); set_solver].
      apply elem_of_app. right. apply list_elem_of_fmap. by exists r.
  - pose proof (runValidations_events key (prop instance key)
                  (getAttributeValidations md this key)) as He.
    pose proof (runValidations_errors key (prop instance key)
                  (getAttributeValidations md this key)) as Hr.
    destruct (runValidations key _ _) as [ev2 er2]. simpl in *. subst ev2.
    exists er2. split; [done|]. split; [done|].
    intros r Hin. split; [|by apply Hr].
    apply list_elem_of_fmap. by exists r.
Qed.

Lemma baseStep_required this instance key attr :
  Lodash.isNil (prop instance key) = true →
  optional attr = false →
  let step := baseStep md this instance key attr in
  let w := prop instance key in
  ∃ l, step.2 = Some (required_error :: l) ∧
    (∀ f, type_validate (attr_type attr) = Some f →
          TypeValidate key w ∈ step.1 ∧ caught (f key w) ⊆ l) ∧
    (∀ r, r ∈ getAttributeValidations md this key →
          RunValidation key w (options r) ∈ step.1 ∧
          caught (cb r key w (options r)) ⊆ l).
Proof.
  intros Hnil Hopt. unfold baseStep, BaseModel.validateAttribute.
  rewrite Hnil, Hopt. simpl.
  pose proof (runValidations_events key (prop instance key)
                (getAttributeValidations md this key)) as He.
  pose proof (runValidations_errors key (prop instance key)
                (getAttributeValidations md this key)) as Hr.
  destruct (type_validate (attr_type attr)) as [f|];
    destruct (runValidations key _ _) as [ev2 er2]; simpl in *; subst ev2.
  - exists (caught (f key (prop instance key)) ++ er2). split; [done|]. split.
    + intros f' [= <-]. split; set_solver.
    + intros r Hin. split; [|specialize (Hr r Hin); set_solver].
      apply elem_of_cons. right. apply list_elem_of_fmap. by exists r.
  - exists er2. split; [done|]. split; [done|].
    intros r Hin. split; [|by apply Hr].
    apply list_elem_of_fmap. by exists r.
Qed.

(** With [required: false], or on an optional attribute, a nil value makes
    the loop go on to the next attribute at once. *)
Lemma attrStep_skips required this instance key attr :
  Lodash.isNil (prop instance key) = true →
  optional attr || negb required = true →
  attrStep md required this instance key attr = ([], None).
Proof.
  intros Hnil Hskip. unfold attrStep, validateAttribute.
  by rewrite Hnil, Hskip.
Qed.



(** C6.  A nil value on a non-optional attribute, with the required checks
    on: [validate] throws a report that has [attribute.required] under the
    attribute's key, and it has gone on to call the attribute's type
    validator and every one of its decorated validations, whose failures
    are in the report as well.  In src/model.ts these are called with the
    value left by the type validation step; in the first variant of the
    class with the nil value itself. *)
Theorem validate_required_does_not_short_circuit this instance opts key attr :
  (key, attr) ∈ getAttributes md this →
  Lodash.isNil (prop instance key) = true →
  optional attr = false →
  default true (ValidationOptions.required opts) = true →
  (let run := validate md this instance opts in
   let w := validatedValue key attr (prop instance key) in
   ∃ report l,
     run.2 = Throw (ValidationError this "Validation error" report) ∧
     report !! key = Some l ∧ required_error ∈ l ∧
     (∀ f, type_validate (attr_type attr) = Some f →
           TypeValidate key w ∈ run.1 ∧ caught (f key w) ⊆ l) ∧
     (∀ r, r ∈ getAttributeValidations md this key →
           RunValidation key w (options r) ∈ run.1 ∧
           caught (cb r key w (options r)) ⊆ l)) ∧
  (let run := BaseModel.validate md this instance in
   let w := prop instance key in
   ∃ report l,
     run.2 = Throw (ValidationError this "Validation error" report) ∧
     report !! key = Some l ∧ required_error ∈ l ∧
     (∀ f, type_validate (attr_type attr) = Some f →
           TypeValidate key w ∈ run.1 ∧ caught (f key w) ⊆ l) ∧
     (∀ r, r ∈ getAttributeValidations md this key →
           RunValidation key w (options r) ∈ run.1 ∧
           caught (cb r key w (options r)) ⊆ l)).
Proof.
  intros Hin Hnil Hopt Hreq.
  split;
    [rewrite validate_runLoop, Hreq;
     destruct (attrStep_required this instance key attr Hnil Hopt)
       as (l & Hl & Htype & Hcustom)
    |rewrite base_validate_runLoop;
     destruct (baseStep_required this instance key attr Hnil Hopt)
       as (l & Hl & Htype & Hcustom)];
    cbv zeta;
    match goal with
    | |- context [runLoop ?s _ _] => set (step := s) in *
    end;
    (destruct (runLoop_reports step (getAttributes md this) ([], ∅) key attr
                 (required_error :: l) Hin Hl) as (l' & Hl' & Hsub); [done|]);
    exists (runLoop step (getAttributes md this) ([], ∅)).2, l'; simpl;
    (split; [by eapply finish_throws|]); (split; [done|]);
    (split; [apply Hsub; by left|]); split.
  all: intros x Hx;
    [> destruct (Htype x Hx) as [Hev Hc] | destruct (Hcustom x Hx) as [Hev Hc]
     | destruct (Htype x Hx) as [Hev Hc] | destruct (Hcustom x Hx) as [Hev Hc]];
    (split; [by eapply runLoop_events_elem|]);
    intros e He; apply Hsub; right; by apply Hc.
Qed.

(** C2, as amended.  A nil value on a registered attribute: with the
    default options and the attribute not optional, [validate] throws a
    report that has [attribute.required] under the attribute's key; with
    [required: false] the attribute is passed over altogether: none of its
    validators is called and nothing is reported under its key. *)
Theorem validate_required_option this instance key attr :
  (key, attr) ∈ getAttributes md this →
  Lodash.isNil (prop instance key) = true →
  (optional attr = false →
   ∃ report l,
     (validate md this instance ValidationOptions.none).2 =
       Throw (ValidationError this "Validation error" report) ∧
     report !! key = Some l ∧ required_error ∈ l) ∧
  (let run := validate md this instance (ValidationOptions.mk (Some false)) in
   (∀ ev, ev ∈ run.1 → eventKey ev ≠ key) ∧
   (∀ ctor message report,
      run.2 = Throw (ValidationError ctor message report) →
      report !! key = None)).
Proof.
  intros Hin Hnil. split.
  - intros Hopt. rewrite validate_runLoop. cbv zeta. simpl.
    set (step := attrStep md true this instance).
    destruct (attrStep_required this instance key attr Hnil Hopt)
      as (l & Hl & _).
    fold step in Hl.
    destruct (runLoop_reports step (getAttributes md this) ([], ∅) key attr
                (required_error :: l) Hin Hl) as (l' & Hl' & Hsub); [done|].
    exists (runLoop step (getAttributes md this) ([], ∅)).2, l'.
    split; [by eapply finish_throws|]. split; [done|]. apply Hsub. by left.
  - rewrite validate_runLoop. cbv zeta. simpl.
    set (step := attrStep md false this instance).
    assert (∀ a, step key a = ([], None)) as Hskip.
    { intros a. apply attrStep_skips; [done|]. by rewrite orb_true_r. }
    split.
    + intros ev Hev Hkey.
      apply runLoop_events_inv in Hev as (k & a & _ & Hev).
      pose proof (attrStep_eventKey false this instance k a ev Hev) as Hk.
      rewrite Hkey in Hk. subst k. fold step in Hev. rewrite Hskip in Hev.
      by apply elem_of_nil in Hev.
    + intros ctor message report Hthrow.
      assert ((runLoop step (getAttributes md this) ([], ∅)).2 !! key = None) as Hnone.
      { rewrite runLoop_skips; [done|]. intros a _. by rewrite Hskip. }
      unfold finish in Hthrow. destruct (_ <? _)%nat; [|done].
      by injection Hthrow as _ _ <-.
Qed.

Lemma registry_functional {A} (l : list (string * A)) key a a' :
  NoDup l.*1 → (key, a) ∈ l → (key, a') ∈ l → a = a'.
Proof.
  induction l as [|[k x] l IH]; intros Hnd Hin Hin'.
  - by apply elem_of_nil in Hin.
  - apply NoDup_cons in Hnd as [Hk Hnd]. simpl in Hk.
    apply elem_of_cons in Hin as [Heq|Hin];
      apply elem_of_cons in Hin' as [Heq'|Hin']; simplify_eq.
    + done.
    + exfalso. apply Hk. apply list_elem_of_fmap. by exists (k, a').
    + exfalso. apply Hk. apply list_elem_of_fmap. by exists (k, a).
    + by apply IH.
Qed.

(** The type validator of an attribute is called once, with the value the
    substitution step leaves. *)
Lemma attrStep_TypeValidate required this instance key attr k v :
  TypeValidate k v ∈ (attrStep md required this instance key attr).1 →
  v = (substituteDefault key attr (prop instance key)).2.
Proof.
  unfold attrStep, validateAttribute.
  destruct (_ && _); [intros H; by apply elem_of_nil in H|].
  destruct (type_validate (attr_type attr)) as [f|].
  - unfold substituteDefault.
    destruct (_ && _); simpl.
    + pose proof (runValidations_events key (resolve (defaultValue attr))
                    (getAttributeValidations md this key)) as Hr.
      destruct (runValidations key _ _) as [ev2 er2]. simpl in *. subst ev2.
      intros Hin. rewrite !elem_of_app in Hin.
      destruct Hin as [[Hin|Hin]|Hin].
      * destruct (isLazyLoad _);
          [by apply list_elem_of_singleton in Hin|by apply elem_of_nil in Hin].
      * by apply list_elem_of_singleton in Hin as [= _ ->].
      * by apply list_elem_of_fmap in Hin as (r & ? & _).
    + pose proof (runValidations_events key (prop instance key)
                    (getAttributeValidations md this key)) as Hr.
      destruct (runValidations key _ _) as [ev2 er2]. simpl in *. subst ev2.
      intros Hin. apply elem_of_cons in Hin as [[= _ ->]|Hin]; [done|].
      by apply list_elem_of_fmap in Hin as (r & ? & _).
  - pose proof (runValidations_events key (prop instance key)
                  (getAttributeValidations md this key)) as Hr.
    destruct (runValidations key _ _) as [ev2 er2]. simpl in *. subst ev2.
    intros Hin. by apply list_elem_of_fmap in Hin as (r & ? & _).
Qed.

(** C7, as amended.  A nil value on a non-optional attribute whose type
    has a validator, with the required checks on: when the attribute's
    default is truthy, [validate] calls the type validator with the
    default's concrete value, first calling the resolver when the default
    is lazy, and, the registry having one descriptor per key, it calls it
    with no other value. *)
Theorem validate_substitutes_default this instance opts key attr f :
  (key, attr) ∈ getAttributes md this →
  Lodash.isNil (prop instance key) = true →
  optional attr = false →
  default true (ValidationOptions.required opts) = true →
  type_validate (attr_type attr) = Some f →
  defaultValue_truthy (defaultValue attr) = true →
  let trace := (validate md this instance opts).1 in
  TypeValidate key (resolve (defaultValue attr)) ∈ trace ∧
  (isLazyLoad (defaultValue attr) = true → ResolveDefault key ∈ trace) ∧
  (NoDup (getAttributes md this).*1 →
   ∀ v, TypeValidate key v ∈ trace → v = resolve (defaultValue attr)).
Proof.
  intros Hin Hnil Hopt Hreq Hf Htruthy trace. subst trace.
  rewrite validate_runLoop, Hreq. cbv zeta. simpl.
  assert ((substituteDefault key attr (prop instance key)).2 =
          resolve (defaultValue attr)) as Hsub.
  { unfold substituteDefault. by rewrite Hnil, Htruthy. }
  split; [|split].
  - eapply runLoop_events_elem; [done|].
    destruct (attrStep_required this instance key attr Hnil Hopt)
      as (l & _ & Htype & _).
    destruct (Htype f Hf) as [Hev _].
    unfold validatedValue in Hev. by rewrite Hf, Hsub in Hev.
  - intros Hlazy. eapply runLoop_events_elem; [done|].
    unfold attrStep, validateAttribute, substituteDefault.
    rewrite Hnil, Hopt, Hf, Htruthy, Hlazy. simpl.
    destruct (runValidations _ _ _). simpl. by left.
  - intros Hnd v Hev.
    apply runLoop_events_inv in Hev as (k & a & Hka & Hev).
    pose proof (attrStep_eventKey true this instance k a _ Hev) as Hk.
    simpl in Hk. subst k.
    assert (a = attr) as -> by by eapply registry_functional.
    apply attrStep_TypeValidate in Hev. by rewrite Hev.
Qed.

End ValidateTheory.

(** ** validate on the example models *)


(** Witness of C6: the unset [email] of the empty account. *)
Lemma validate_required_does_not_short_circuit_witness :
  ∃ report l,
    (validate Demo.md Demo.Account Demo.emptyAccount
              ValidationOptions.none).2 =
      Throw (ValidationError Demo.Account "Validation error" report) ∧
    report !! "email" = Some l ∧ required_error ∈ l ∧
    TypeValidate "email" VUndef ∈
      (validate Demo.md Demo.Account Demo.emptyAccount
                ValidationOptions.none).1 ∧
    RunValidation "email" VUndef VUndef ∈
      (validate Demo.md Demo.Account Demo.emptyAccount
                ValidationOptions.none).1.
Proof.
  destruct (validate_required_does_not_short_circuit Demo.md Demo.Account
              Demo.emptyAccount ValidationOptions.none
              "email" (Demo.required Demo.STRING))
    as [(report & l & Hthrow & Hl & Hreq & Htype & Hcustom) _].
  - vm_compute. by left.
  - reflexivity.
  - reflexivity.
  - reflexivity.
  - exists report, l. split; [exact Hthrow|]. split; [done|]. split; [done|].
    split.
    + by destruct (Htype _ eq_refl) as [Hev _].
    + destruct (Hcustom Demo.notEmpty) as [Hev _]; [|exact Hev].
      vm_compute. by left.
Defined.

(** Counterexample to C2 as stated: with [required: false] the unset
    attributes of the empty account are not validated at all, although the
    string validator and [notEmpty] both reject [undefined]. *)
Lemma validate_required_false_counterexample :
  validate Demo.md Demo.Account Demo.emptyAccount
           (ValidationOptions.mk (Some false)) = ([], Return ()) ∧
  type_validate Demo.STRING =
    Some (λ _ v, match v with
                 | VStr _ => None
                 | _ => Some (ThrowProperty "attribute.string" "Not a string")
                 end) ∧
  TypeValidate "email" VUndef ∉
    (validate Demo.md Demo.Account Demo.emptyAccount
              (ValidationOptions.mk (Some false))).1.
Proof.
  split; [by vm_compute|]. split; [done|].
  intros Hin. vm_compute in Hin. by apply elem_of_nil in Hin.
Qed.

(** Witness of C2 as amended. *)
Lemma validate_required_option_witness :
  (∃ report l,
     (validate Demo.md Demo.Account Demo.emptyAccount
               ValidationOptions.none).2 =
       Throw (ValidationError Demo.Account "Validation error" report) ∧
     report !! "email" = Some l ∧ required_error ∈ l) ∧
  TypeValidate "email" VUndef ∉
    (validate Demo.md Demo.Account Demo.emptyAccount
              (ValidationOptions.mk (Some false))).1.
Proof.
  destruct (validate_required_option Demo.md Demo.Account
              Demo.emptyAccount "email" (Demo.required Demo.STRING))
    as [Hdefault [Hquiet _]].
  - vm_compute. by left.
  - reflexivity.
  - split; [by apply Hdefault|].
    intros Hin. by apply (Hquiet _ Hin).
Defined.

(** Counterexample to C7 as stated: the optional [nickname] has a default
    and a type validator, and is not set; [validate] does not call the
    validator, with the default or otherwise. *)
Lemma validate_optional_default_counterexample :
  (getAttributes Demo.md Demo.Profile) =
    [("nickname", {| attr_type := Demo.STRING;
                     defaultValue := Concrete (VStr "anon");
                     optional := true |})] ∧
  validate Demo.md Demo.Profile ∅ ValidationOptions.none = ([], Return ()) ∧
  TypeValidate "nickname" (VStr "anon") ∉
    (validate Demo.md Demo.Profile ∅ ValidationOptions.none).1.
Proof.
  split; [done|]. split; [by vm_compute|].
  intros Hin. vm_compute in Hin. by apply elem_of_nil in Hin.
Qed.

(** Witness of C7 as amended: the lazy default of a ticket's [code]. *)
Lemma validate_substitutes_default_witness :
  let trace := (validate Demo.md Demo.Ticket ∅ ValidationOptions.none).1 in
  TypeValidate "code" (VStr "T-0") ∈ trace ∧ ResolveDefault "code" ∈ trace.
Proof.
  destruct (validate_substitutes_default Demo.md Demo.Ticket ∅
              ValidationOptions.none "code"
              {| attr_type := Demo.STRING;
                 defaultValue := LazyLoad (λ _, VStr "T-0");
                 optional := false |}
              (λ _ v, match v with
                      | VStr _ => None
                      | _ => Some (ThrowProperty "attribute.string" "Not a string")
                      end))
    as (Hcall & Hlazy & _).
  - vm_compute. by left.
  - reflexivity.
  - reflexivity.
  - reflexivity.
  - reflexivity.
  - reflexivity.
  - split; [exact Hcall|by apply Hlazy].
Defined.

(** A default of 0 is falsy and is not substituted: the validator is called
    with [undefined] and rejects it. *)
Lemma validate_falsy_default :
  validate Demo.md Demo.Counter Demo.emptyCounter ValidationOptions.none =
    ([TypeValidate "count" VUndef],
     Throw (ValidationError Demo.Counter "Validation error"
              {[ "count" := [required_error;
                             {| err_type := "attribute.integer";
                                err_message := "Not an integer" |}] ]})).
Proof. by vm_compute. Qed.

(** ** Loops and outcomes *)

Section Outcomes.
Context {M : Type}.

Lemma bind_Return {A B} (x : outcome M A) (k : A → outcome M B) b :
  bind x k = Return b ↔ ∃ a, x = Return a ∧ k a = Return b.
Proof.
  destruct x; simpl; split; try done.
  - intros H. by exists a.
  - by intros (a' & [= <-] & H).
  - by intros (a' & ? & _).
  - by intros (a' & ? & _).
Qed.

Lemma forOf_app {S X} (body : S → X → outcome M S) l1 l2 s :
  forOf body (l1 ++ l2) s = bind (forOf body l1 s) (forOf body l2).
Proof.
  revert s. induction l1 as [|x l1 IH]; intros s; [done|].
  simpl. destruct (body s x); simpl; [apply IH|done|done].
Qed.

(** A property of the loop state that every round keeps holds at the end. *)
Lemma forOf_invariant {S X} (P : S → Prop) (body : S → X → outcome M S) l s s' :
  P s →
  (∀ s x s', x ∈ l → P s → body s x = Return s' → P s') →
  forOf body l s = Return s' → P s'.
Proof.
  revert s. induction l as [|x l IH]; intros s Hs Hstep Hrun.
  - by injection Hrun as <-.
  - simpl in Hrun. apply bind_Return in Hrun as (s1 & Hx & Hrun).
    apply (IH s1); [|intros; eapply Hstep; [by right|done..]|done].
    eapply Hstep; [by left|done..].
Qed.

(** A loop whose rounds do not exhaust the recursion bound does not
    either. *)
Lemma forOf_fuel {S X} (body : S → X → outcome M S) l s :
  (∀ s x, x ∈ l → body s x ≠ OutOfFuel) → forOf body l s ≠ OutOfFuel.
Proof.
  revert s. induction l as [|x l IH]; intros s Hbody; [done|].
  simpl. destruct (body s x) eqn:E; simpl.
  - apply IH. intros; apply Hbody; by right.
  - done.
  - exfalso. eapply Hbody; [by left|done].
Qed.

Lemma promiseAll_fuel {X Y} (f : X → outcome M Y) items :
  (∀ x, x ∈ items → f x ≠ OutOfFuel) → promiseAll f items ≠ OutOfFuel.
Proof.
  induction items as [|x items IH]; intros Hf; [done|].
  simpl. destruct (f x) eqn:E; simpl.
  - destruct (promiseAll f items) eqn:E'; simpl; [done|done|].
    exfalso. apply IH; [|done]. intros; apply Hf; by right.
  - done.
  - exfalso. eapply Hf; [by left|done].
Qed.

Lemma promiseAll_Return {X Y} (f : X → outcome M Y) (g : X → Y) items :
  (∀ x, x ∈ items → f x = Return (g x)) →
  promiseAll f items = Return (g <$> items).
Proof.
  induction items as [|x items IH]; intros Hf; [done|].
  simpl. rewrite Hf by by left. simpl.
  rewrite IH by (intros; apply Hf; by right). done.
Qed.

Lemma promiseAll_ext {X Y} (f g : X → outcome M Y) items :
  (∀ x, x ∈ items → f x = g x) → promiseAll f items = promiseAll g items.
Proof.
  induction items as [|x items IH]; intros Hf; [done|].
  simpl. rewrite Hf by by left.
  rewrite IH by (intros; apply Hf; by right). done.
Qed.

(** What [Promise.all] rejects with is what one of the calls rejects
    with. *)
Lemma promiseAll_Throw {X Y} (f : X → outcome M Y) items e :
  promiseAll f items = Throw e → ∃ x, x ∈ items ∧ f x = Throw e.
Proof.
  induction items as [|x items IH]; intros Hrun; [done|].
  simpl in Hrun. destruct (f x) eqn:E; simpl in Hrun.
  - destruct (promiseAll f items) eqn:E'; simpl in Hrun; try done.
    injection Hrun as <-. destruct IH as (x' & Hin & Hx'); [done|].
    exists x'. split; [by right|done].
  - injection Hrun as <-. exists x. split; [by left|done].
  - done.
Qed.

Lemma forOf_Throw {S X} (body : S → X → outcome M S) l s e :
  forOf body l s = Throw e → ∃ s' x, x ∈ l ∧ body s' x = Throw e.
Proof.
  revert s. induction l as [|x l IH]; intros s Hrun; [done|].
  simpl in Hrun. destruct (body s x) eqn:E; simpl in Hrun.
  - destruct (IH _ Hrun) as (s' & x' & Hin & Hx').
    exists s', x'. split; [by right|done].
  - injection Hrun as <-. exists s, x. split; [by left|done].
  - done.
Qed.

End Outcomes.

(** ** pick *)

Lemma pick_lookup (object : gmap string value) paths key :
  Lodash.pick object paths !! key =
    if decide (key ∈ paths) then object !! key else None.
Proof.
  unfold Lodash.pick.
  assert (∀ acc : gmap string value,
    foldl (λ result k, match object !! k with
                       | Some v => <[k := v]> result
                       | None => result
                       end) acc paths !! key =
    if decide (key ∈ paths)
    then match object !! key with Some v => Some v | None => acc !! key end
    else acc !! key) as Hgen.
  { induction paths as [|p paths IH]; intros acc.
    - cbn [foldl]. by rewrite decide_False by apply not_elem_of_nil.
    - cbn [foldl]. rewrite IH.
      assert (match object !! p with
              | Some v => <[p := v]> acc
              | None => acc
              end !! key =
              if decide (key = p)
              then match object !! key with Some v => Some v | None => acc !! key end
              else acc !! key) as Hstep.
      { destruct (decide (key = p)) as [->|Hne].
        - destruct (object !! p); [by rewrite lookup_insert_eq|done].
        - destruct (object !! p); [by rewrite lookup_insert_ne|done]. }
      rewrite Hstep. clear Hstep IH.
      destruct (decide (key ∈ p :: paths)) as [Hc|Hc];
        destruct (decide (key ∈ paths)) as [Hin|Hnin];
        destruct (decide (key = p)) as [->|Hne];
        try done; try (by destruct (object !! _)).
      + apply elem_of_cons in Hc as [?|?]; done.
      + exfalso. apply Hc. by right.
      + exfalso. apply Hc. by right.
      + exfalso. apply Hc. by left. }
  rewrite Hgen, lookup_empty. destruct (decide _); [|done].
  by destruct (object !! key).
Qed.

(** ** serialize *)

Section SerializeTheory.
Context {ModelCtor : Type} (md : Metadata ModelCtor).

Implicit Types (rec : ModelCtor → value → SerializeOptions.t
                      → outcome ModelCtor (gmap string value)).

#[local] Arguments serializeFuel : simpl never.

Lemma serializeFuel_unfold fuel this instance opts :
  serializeFuel md fuel this instance opts =
    serializeBody md
      (match fuel with
       | O => λ _ _ _, OutOfFuel
       | S fuel' => serializeFuel md fuel'
       end) this instance opts.
Proof. by destruct fuel. Qed.

(** A round of the loop leaves the result alone or writes under the key of
    its association, and this only when the depth allows. *)
Lemma serializeAssociation_shape rec instance ao result key assoc result' :
  serializeAssociation rec instance ao result (key, assoc) = Return result' →
  result' = result ∨
  (depthAllows (SerializeOptions.depth ao) = true ∧
   ∃ v, result' = <[key := v]> result).
Proof.
  unfold serializeAssociation, getProperty.
  destruct (Lodash.isNil instance); [done|]. simpl.
  destruct (Lodash.isNil _); [intros [= <-]; by left|].
  destruct (resolve (target assoc)) as [t|]; [|done].
  destruct (depthAllows _); [|intros [= <-]; by left].
  destruct (toMany assoc).
  - destruct (prop _ key) as [| | | | | |items|];
      try (intros [= <-]; right; split; [done|]; by eexists).
    intros Hrun. apply bind_Return in Hrun as (rs & _ & [= <-]).
    right. split; [done|]. by eexists.
  - intros Hrun. apply bind_Return in Hrun as (r & _ & [= <-]).
    right. split; [done|]. by eexists.
Qed.

(** The keys of what a call returns, whatever the nested calls return. *)
Lemma serializeBody_keys rec this instance opts r key :
  serializeBody md rec this instance opts = Return r →
  is_Some (r !! key) →
  key ∈ (getAttributes md this).*1 ∨
  (default true (SerializeOptions.associations opts) = true ∧
   1 ≤ default 1 (SerializeOptions.depth opts) ∧
   key ∈ (getAssociations md this).*1).
Proof.
  unfold serializeBody.
  set (result := Lodash.pick _ _).
  assert (is_Some (result !! key) → key ∈ (getAttributes md this).*1) as Hpick.
  { unfold result. rewrite pick_lookup.
    destruct (decide _); [done|]. by intros [? ?]. }
  destruct (default true _) eqn:Eassoc; [|intros [= <-] ?; left; auto].
  intros Hrun Hkey.
  revert Hkey. pattern r.
  eapply forOf_invariant; [| |exact Hrun]; [by left; auto|].
  intros s [k assoc] s' Hin IH Hstep Hkey.
  apply serializeAssociation_shape in Hstep as [->|(Hdepth & v & ->)]; [auto|].
  destruct (decide (k = key)) as [->|Hne].
  - right. split; [done|]. split.
    + simpl in Hdepth. apply Z.leb_le in Hdepth. lia.
    + apply list_elem_of_fmap. by exists (key, assoc).
  - rewrite lookup_insert_ne in Hkey by done. auto.
Qed.

(** [serialize] rejects only with definition and type errors. *)
Lemma serializeFuel_error fuel this instance opts e :
  serializeFuel md fuel this instance opts = Throw e →
  is_ValidationError e = false.
Proof.
  revert this instance opts.
  induction fuel as [|fuel IH]; intros this instance opts;
    rewrite serializeFuel_unfold; unfold serializeBody;
    (destruct (default true _); [|done]);
    intros Hrun; apply forOf_Throw in Hrun as (s & [key assoc] & _ & Hstep);
    revert Hstep; unfold serializeAssociation, getProperty;
    (destruct (Lodash.isNil instance); [by intros [= <-]|]); simpl;
    (destruct (Lodash.isNil _); [done|]);
    (destruct (resolve (target assoc)) as [t|]; [|by intros [= <-]]);
    (destruct (0 <=? _); [|done]);
    destruct (toMany assoc).
  - destruct (prop _ key) as [| | | | | |items|]; try done.
    intros Hrun. destruct (promiseAll _ items) eqn:E; try done.
    by apply promiseAll_Throw in E as (x & _ & ?).
  - done.
  - destruct (prop _ key) as [| | | | | |items|]; try done.
    intros Hrun. destruct (promiseAll _ items) eqn:E; try done.
    simpl in Hrun. injection Hrun as <-.
    apply promiseAll_Throw in E as (x & _ & Hx). by eapply IH.
  - intros Hrun. destruct (serializeFuel md fuel t _ _) eqn:E; try done.
    simpl in Hrun. injection Hrun as <-. by eapply IH.
Qed.

(** [depth] levels of nesting are all a call needs. *)
Lemma serializeFuel_enough fuel this instance opts :
  (Z.to_nat (default 1%Z (SerializeOptions.depth opts)) ≤ fuel)%nat →
  serializeFuel md fuel this instance opts ≠ OutOfFuel.
Proof.
  revert this instance opts.
  induction fuel as [|fuel IH]; intros this instance opts Hfuel;
    rewrite serializeFuel_unfold; unfold serializeBody;
    (destruct (default true _); [|done]);
    apply forOf_fuel; intros s [key assoc] _;
    unfold serializeAssociation, getProperty;
    (destruct (Lodash.isNil instance); [done|]); simpl;
    (destruct (Lodash.isNil _); [done|]);
    (destruct (resolve (target assoc)) as [t|]; [|done]);
    (destruct (0 <=? _) eqn:Hdepth; [|done]);
    apply Z.leb_le in Hdepth; [lia|].
  assert (∀ x, serializeFuel md fuel t x
            {| SerializeOptions.associations := Some true;
               SerializeOptions.depth :=
                 Some (default 1 (SerializeOptions.depth opts) - 1) |}
          ≠ OutOfFuel) as Hrec.
  { intros x. apply IH. simpl. lia. }
  destruct (toMany assoc).
  - destruct (prop _ key) as [| | | | | |items|]; try done.
    pose proof (promiseAll_fuel (M := ModelCtor)
      (λ item, serializeFuel md fuel t item
         {| SerializeOptions.associations := Some true;
            SerializeOptions.depth :=
              Some (default 1 (SerializeOptions.depth opts) - 1) |})
      items (λ x _, Hrec x)) as Hall.
    by destruct (promiseAll _ items).
  - specialize (Hrec (prop (Lodash.toPlainObject instance) key)).
    by destruct (serializeFuel md fuel t _ _).
Qed.

Lemma plainAttributes_lookup this instance key :
  plainAttributes md this instance !! key =
    if decide (key ∈ (getAttributes md this).*1)
    then Lodash.toPlainObject instance !! key else None.
Proof. apply pick_lookup. Qed.

Lemma expandable_not_nil n this instance :
  expandable md n this instance = true → Lodash.isNil instance = false.
Proof.
  destruct n; simpl; intros H; apply andb_true_iff in H as [H _];
    by apply negb_true_iff in H.
Qed.

(** With the depth used up, a call emits the plain attributes and goes
    through the associations only to check their targets. *)
Lemma serializeBody_shallow rec this instance opts :
  default 1 (SerializeOptions.depth opts) ≤ 0 →
  expandable md 0 this instance = true →
  serializeBody md rec this instance opts =
    Return (plainAttributes md this instance).
Proof.
  intros Hdepth Hexp. unfold serializeBody. fold (plainAttributes md this instance).
  destruct (default true _); [|done].
  pose proof (expandable_not_nil _ _ _ Hexp) as Hnil.
  simpl in Hexp. apply andb_true_iff in Hexp as [_ Hexp].
  generalize (plainAttributes md this instance) as result.
  induction (getAssociations md this) as [|[key assoc] l IH]; intros result; [done|].
  simpl in Hexp. apply andb_true_iff in Hexp as [Hhere Hexp].
  cbn [forOf]. unfold serializeAssociation at 1, getProperty. rewrite Hnil. simpl.
  destruct (Lodash.isNil (prop _ key)); simpl; [by apply IH|].
  destruct (resolve (target assoc)); [|done].
  destruct (0 <=? _) eqn:E; [apply Z.leb_le in E; lia|]. simpl. by apply IH.
Qed.

(** One round at depth 1: the association is expanded by a call that is
    itself shallow. *)
Lemma serializeAssociation_level1 instance result key assoc :
  Lodash.isNil instance = false →
  let v := prop (Lodash.toPlainObject instance) key in
  (Lodash.isNil v ||
   match resolve (target assoc) with
   | None => false
   | Some t =>
       if toMany assoc then
         match v with
         | VArr items => forallb (expandable md 0 t) items
         | _ => true
         end
       else expandable md 0 t v
   end) = true →
  serializeAssociation (serializeFuel md 0) instance
    (SerializeOptions.mk (Some true) (Some (1 - 1))) result (key, assoc) =
  Return (if Lodash.isNil v then result
          else match resolve (target assoc) with
               | Some t => <[key := expandedOnce md assoc t v]> result
               | None => result
               end).
Proof.
  intros Hnil v Hcond. unfold serializeAssociation, getProperty.
  rewrite Hnil. simpl. fold v.
  destruct (Lodash.isNil v); [done|]. simpl in Hcond.
  destruct (resolve (target assoc)) as [t|]; [|done].
  unfold expandedOnce.
  destruct (toMany assoc).
  - destruct v as [| | | | | |items|]; try done.
    rewrite (promiseAll_Return _ (plainAttributes md t)).
    + simpl. by rewrite <- list_fmap_compose.
    + intros item Hin. rewrite serializeFuel_unfold.
      apply serializeBody_shallow; [simpl; lia|].
      rewrite forallb_forall in Hcond. apply Hcond.
      by apply list_elem_of_In.
  - rewrite serializeFuel_unfold, serializeBody_shallow; [done|simpl; lia|done].
Qed.

Lemma serializeLoop_level1 instance l result :
  Lodash.isNil instance = false →
  forallb (λ '(key, assoc),
             let v := prop (Lodash.toPlainObject instance) key in
             Lodash.isNil v ||
             match resolve (target assoc) with
             | None => false
             | Some t =>
                 if toMany assoc then
                   match v with
                   | VArr items => forallb (expandable md 0 t) items
                   | _ => true
                   end
                 else expandable md 0 t v
             end) l = true →
  NoDup l.*1 →
  ∃ r,
    forOf (serializeAssociation (serializeFuel md 0) instance
             (SerializeOptions.mk (Some true) (Some (1 - 1)))) l result
      = Return r ∧
    (∀ key, key ∉ l.*1 → r !! key = result !! key) ∧
    (∀ key assoc t, (key, assoc) ∈ l →
       Lodash.isNil (prop (Lodash.toPlainObject instance) key) = false →
       resolve (target assoc) = Some t →
       r !! key =
         Some (expandedOnce md assoc t (prop (Lodash.toPlainObject instance) key))).
Proof.
  intros Hnil. revert result.
  induction l as [|[key assoc] l IH]; intros result Hcond Hnd.
  - exists result. split; [done|]. split; [done|].
    intros ? ? ? Hin. by apply elem_of_nil in Hin.
  - cbn [forallb] in Hcond. apply andb_true_iff in Hcond as [Hhere Hcond].
    simpl in Hnd. apply NoDup_cons in Hnd as [Hkey Hnd].
    cbn [forOf]. rewrite serializeAssociation_level1 by done. cbn [bind].
    set (result1 := if Lodash.isNil _ then result else _).
    destruct (IH result1 Hcond Hnd) as (r & Hrun & Hother & Hexp).
    exists r. split; [done|]. split.
    + intros k Hk. simpl in Hk. apply not_elem_of_cons in Hk as [Hne Hk].
      rewrite Hother by done. unfold result1.
      destruct (Lodash.isNil (prop (Lodash.toPlainObject instance) key)); [done|].
      destruct (resolve (target assoc)); [|done].
      by rewrite lookup_insert_ne.
    + intros k a t Hin Hv Ht.
      apply elem_of_cons in Hin as [Heq|Hin]; [|by apply Hexp].
      simplify_eq. rewrite Hother by done. unfold result1.
      rewrite Hv, Ht. by rewrite lookup_insert_eq.
Qed.

(** C1, as amended.  With [depth: 0] and the associations on, [serialize]
    returns the plain attributes of the instance and expands no
    association.  With [depth: 1] it returns the plain attributes and, under
    the key of every association that holds a value, the first level
    expanded: the plain attributes of the associated instance, or of each
    instance of the collection, and nothing of their own associations. *)
Theorem serialize_depth_bound this instance :
  (expandable md 0 this instance = true →
   serialize md this instance (SerializeOptions.mk (Some true) (Some 0)) =
     Return (plainAttributes md this instance)) ∧
  (expandable md 1 this instance = true →
   NoDup (getAssociations md this).*1 →
   ∃ r,
     serialize md this instance (SerializeOptions.mk (Some true) (Some 1)) =
       Return r ∧
     (∀ key, key ∉ (getAssociations md this).*1 →
        r !! key = plainAttributes md this instance !! key) ∧
     (∀ key assoc t, (key, assoc) ∈ getAssociations md this →
        let v := prop (Lodash.toPlainObject instance) key in
        Lodash.isNil v = false →
        resolve (target assoc) = Some t →
        r !! key = Some (expandedOnce md assoc t v) ∧
        ∀ key2, key2 ∉ (getAttributes md t).*1 →
          plainAttributes md t v !! key2 = None)).
Proof.
  split.
  - intros Hexp. unfold serialize. rewrite serializeFuel_unfold.
    by apply serializeBody_shallow.
  - intros Hexp Hnd. unfold serialize. simpl.
    change (Pos.to_nat 1) with 1%nat.
    rewrite serializeFuel_unfold. unfold serializeBody. simpl.
    pose proof (expandable_not_nil _ _ _ Hexp) as Hnil.
    simpl in Hexp. apply andb_true_iff in Hexp as [_ Hexp].
    fold (plainAttributes md this instance).
    destruct (serializeLoop_level1 instance (getAssociations md this)
                (plainAttributes md this instance) Hnil Hexp Hnd)
      as (r & Hrun & Hother & Hexpanded).
    exists r. split; [exact Hrun|]. split; [done|].
    intros key assoc t Hin Hv Ht. split; [by apply Hexpanded|].
    intros key2 Hkey2. rewrite plainAttributes_lookup.
    by rewrite decide_False.
Qed.


(** The loop reaches an association that holds a value and has no
    target: it throws the definition error, whatever the depth. *)
Lemma serializeLoop_first rec instance ao l1 key assoc l2 result :
  Lodash.isNil instance = false →
  (∀ k a, (k, a) ∈ l1 →
          Lodash.isNil (prop (Lodash.toPlainObject instance) k) = true) →
  Lodash.isNil (prop (Lodash.toPlainObject instance) key) = false →
  resolve (target assoc) = None →
  forOf (serializeAssociation rec instance ao) (l1 ++ (key, assoc) :: l2) result
    = Throw (cannotSerialize key).
Proof.
  intros Hnil Hl1 Hv Ht.
  induction l1 as [|[k a] l1 IH]; cbn [app forOf];
    unfold serializeAssociation at 1, getProperty; rewrite Hnil; cbn [bind].
  - by rewrite Hv, Ht.
  - rewrite (Hl1 k a) by by left. cbn [bind].
    apply IH. intros; eapply Hl1; by right.
Qed.

(** With the depth used up, the loop throws the definition error of the
    first association that holds a value and has no target. *)
Lemma serializeLoop_shallow rec instance ao l result :
  Lodash.isNil instance = false →
  depthAllows (SerializeOptions.depth ao) = false →
  (∃ key assoc, (key, assoc) ∈ l ∧
     Lodash.isNil (prop (Lodash.toPlainObject instance) key) = false ∧
     resolve (target assoc) = None) →
  ∃ key assoc, (key, assoc) ∈ l ∧
    Lodash.isNil (prop (Lodash.toPlainObject instance) key) = false ∧
    resolve (target assoc) = None ∧
    forOf (serializeAssociation rec instance ao) l result
      = Throw (cannotSerialize key).
Proof.
  intros Hnil Hdepth. revert result.
  induction l as [|[k a] l IH]; intros result (key & assoc & Hin & Hv & Ht).
  - by apply elem_of_nil in Hin.
  - cbn [forOf]. unfold serializeAssociation at 1, getProperty.
    rewrite Hnil. cbn [bind].
    destruct (Lodash.isNil (prop (Lodash.toPlainObject instance) k)) eqn:Ek.
    + apply elem_of_cons in Hin as [Heq|Hin]; [simplify_eq; congruence|].
      cbn [bind].
      destruct (IH result) as (key' & assoc' & Hin' & Hv' & Ht' & Hrun).
      { by exists key, assoc. }
      exists key', assoc'. split; [by right|]. done.
    + destruct (resolve (target a)) as [t|] eqn:Et.
      * rewrite Hdepth. cbn [bind].
        apply elem_of_cons in Hin as [Heq|Hin]; [simplify_eq; congruence|].
        destruct (IH result) as (key' & assoc' & Hin' & Hv' & Ht' & Hrun).
        { by exists key, assoc. }
        exists key', assoc'. split; [by right|]. done.
      * exists k, a. split; [by left|]. done.
Qed.

(** A loop over associations one of which holds a value and has no
    target does not come to an end. *)
Lemma serializeLoop_never_returns rec instance ao l result r :
  Lodash.isNil instance = false →
  (∃ key assoc, (key, assoc) ∈ l ∧
     Lodash.isNil (prop (Lodash.toPlainObject instance) key) = false ∧
     resolve (target assoc) = None) →
  forOf (serializeAssociation rec instance ao) l result ≠ Return r.
Proof.
  intros Hnil. revert result.
  induction l as [|[k a] l IH]; intros result (key & assoc & Hin & Hv & Ht) Hrun.
  - by apply elem_of_nil in Hin.
  - cbn [forOf] in Hrun. apply bind_Return in Hrun as (s & Hstep & Hrun).
    apply elem_of_cons in Hin as [Heq|Hin].
    + simplify_eq. revert Hstep. unfold serializeAssociation, getProperty.
      rewrite Hnil. cbn [bind]. by rewrite Hv, Ht.
    + eapply IH; [|done]. by exists key, assoc.
Qed.

(** A round for another key does not see what is under [key]. *)
Lemma serializeAssociation_insert rec instance ao result key x k a :
  k ≠ key →
  serializeAssociation rec instance ao (<[key := x]> result) (k, a) =
    bind (serializeAssociation rec instance ao result (k, a))
         (λ r, Return (<[key := x]> r)).
Proof.
  intros Hne. unfold serializeAssociation, getProperty.
  destruct (Lodash.isNil instance); [done|]. cbn [bind].
  destruct (Lodash.isNil (prop _ k)); [done|].
  destruct (resolve (target a)) as [t|]; [|done].
  destruct (depthAllows _); [|done].
  destruct (toMany a).
  - destruct (prop _ k) as [| | | | | |items|]; cbn [bind];
      try (by rewrite insert_insert_ne).
    destruct (promiseAll _ items); cbn [bind]; [|done..].
    by rewrite insert_insert_ne.
  - destruct (rec t _ ao); cbn [bind]; [|done..].
    by rewrite insert_insert_ne.
Qed.

Lemma serializeLoop_insert rec fields ao l result key x :
  key ∉ l.*1 →
  forOf (serializeAssociation rec (VObj fields) ao) l (<[key := x]> result) =
    bind (forOf (serializeAssociation rec (VObj (delete key fields)) ao) l result)
         (λ r, Return (<[key := x]> r)).
Proof.
  revert result. induction l as [|[k a] l IH]; intros result Hkey; [done|].
  simpl in Hkey. apply not_elem_of_cons in Hkey as [Hne Hkey].
  cbn [forOf]. rewrite serializeAssociation_insert by done.
  assert (serializeAssociation rec (VObj fields) ao result (k, a) =
          serializeAssociation rec (VObj (delete key fields)) ao result (k, a))
    as ->.
  { unfold serializeAssociation, getProperty, prop. simpl.
    by rewrite lookup_delete_ne. }
  destruct (serializeAssociation rec _ ao result (k, a)); cbn [bind];
    [by apply IH|done..].
Qed.

(** The defensive fallback of [serialize], for any nested calls: a to-many
    association holding a value that is not an array gets an empty array,
    and the rest of the call goes as it does without that value. *)
Lemma serializeBody_fallback rec this fields key assoc t v opts r0 :
  (key, assoc) ∈ getAssociations md this →
  NoDup (getAssociations md this).*1 →
  key ∉ (getAttributes md this).*1 →
  toMany assoc = true →
  resolve (target assoc) = Some t →
  fields !! key = Some v →
  Lodash.isNil v = false →
  Lodash.isArray v = false →
  default true (SerializeOptions.associations opts) = true →
  1 ≤ default 1 (SerializeOptions.depth opts) →
  serializeBody md rec this (VObj (delete key fields)) opts = Return r0 →
  serializeBody md rec this (VObj fields) opts = Return (<[key := VArr []]> r0).
Proof.
  intros Hin Hnd Hattr Hmany Ht Hv Hnil Harr Hassoc Hdepth.
  unfold serializeBody. rewrite Hassoc.
  assert (Lodash.pick (Lodash.toPlainObject (VObj (delete key fields)))
                      (getAttributes md this).*1 =
          Lodash.pick (Lodash.toPlainObject (VObj fields))
                      (getAttributes md this).*1) as ->.
  { apply map_eq. intros k. rewrite !pick_lookup. simpl.
    destruct (decide _); [|done]. rewrite lookup_delete_ne; [done|].
    by intros ->. }
  generalize (Lodash.pick (Lodash.toPlainObject (VObj fields))
                          (getAttributes md this).*1) as result.
  set (ao := SerializeOptions.mk _ _).
  assert (depthAllows (SerializeOptions.depth ao) = true) as Hallows.
  { simpl. apply Z.leb_le. lia. }
  clearbody ao.
  induction (getAssociations md this) as [|[k a] l IH]; intros result.
  - by apply elem_of_nil in Hin.
  - simpl in Hnd. apply NoDup_cons in Hnd as [Hk Hnd]. cbn [forOf].
    apply elem_of_cons in Hin as [Heq|Hin].
    + injection Heq as Hk' Ha'. subst k a.
      unfold serializeAssociation at 1 3, getProperty, prop. simpl.
      rewrite lookup_delete_eq, Hv. simpl. rewrite Hnil, Ht, Hallows, Hmany.
      assert (match v with
              | VArr items =>
                  bind (promiseAll (λ item, rec t item ao) items)
                       (λ rs, Return (<[key := VArr (VObj <$> rs)]> result))
              | _ => Return (<[key := VArr []]> result)
              end = Return (<[key := VArr []]> result)) as ->.
      { by destruct v. }
      cbn [bind]. rewrite serializeLoop_insert by done.
      by intros ->.
    + assert (k ≠ key) as Hne.
      { intros ->. apply Hk. apply list_elem_of_fmap. by exists (key, assoc). }
      assert (serializeAssociation rec (VObj fields) ao result (k, a) =
              serializeAssociation rec (VObj (delete key fields)) ao result (k, a))
        as ->.
      { unfold serializeAssociation, getProperty, prop. simpl.
        by rewrite lookup_delete_ne. }
      destruct (serializeAssociation rec _ ao result (k, a)); cbn [bind];
        [by apply IH|done..].
Qed.

End SerializeTheory.

(** ** merge into a fresh object *)

Section Merge.

Lemma vsize_item items x :
  x ∈ items → (vsize x < vsize (VArr items))%nat.
Proof.
  simpl. induction items as [|y items IH]; intros Hin.
  - by apply elem_of_nil in Hin.
  - simpl. apply elem_of_cons in Hin as [->|Hin]; [lia|].
    specialize (IH Hin). lia.
Qed.

Lemma vsize_field (fields : gmap string value) key x :
  fields !! key = Some x → (vsize x < vsize (VObj fields))%nat.
Proof.
  intros Hx. simpl.
  rewrite (map_fold_delete_L _ _ key x fields); [lia| |done].
  intros. lia.
Qed.

(** Induction on a value, with the property at hand for the items of an
    array and the properties of an object. *)
Lemma value_nested_ind (P : value → Prop) :
  P VUndef → P VNull → (∀ b, P (VBool b)) → (∀ n, P (VNum n)) →
  (∀ s, P (VStr s)) → (∀ t, P (VDate t)) →
  (∀ items, (∀ x, x ∈ items → P x) → P (VArr items)) →
  (∀ fields : gmap string value,
     (∀ key x, fields !! key = Some x → P x) → P (VObj fields)) →
  ∀ v, P v.
Proof.
  intros Hundef Hnull Hbool Hnum Hstr Hdate Harr Hobj v.
  remember (vsize v) as size eqn:Hsize. revert v Hsize.
  induction size as [size IH] using lt_wf_ind. intros v ->.
  destruct v; auto.
  - apply Harr. intros x Hin. eapply IH; [|done]. by apply vsize_item.
  - apply Hobj. intros key x Hx. eapply IH; [|done]. by eapply vsize_field.
Qed.

Lemma mergeValue_fresh v : Lodash.mergeValue None v = v.
Proof.
  induction v as [| | | | | |items IH|fields IH] using value_nested_ind;
    try done.
  - simpl. f_equal.
    induction items as [|x items IHitems]; [done|].
    cbn [head tail]. f_equal.
    + apply IH. by left.
    + apply IHitems. intros; apply IH; by right.
  - simpl. f_equal. rewrite (right_id_L ∅ (∪)).
    apply map_eq. intros key. rewrite map_lookup_imap.
    destruct (fields !! key) as [x|] eqn:Ex; [|done]. simpl.
    rewrite lookup_empty. f_equal. by eapply IH.
Qed.

(** Merging an object into a fresh one copies it. *)
Lemma merge_fresh (fields : gmap string value) :
  Lodash.merge ∅ (VObj fields) = fields.
Proof.
  unfold Lodash.merge. simpl. rewrite (right_id_L ∅ (∪)).
  apply map_eq. intros key. rewrite map_lookup_imap.
  destruct (fields !! key) as [x|] eqn:Ex; [|done]. simpl.
  by rewrite lookup_empty, mergeValue_fresh.
Qed.

End Merge.

(** ** deserialize *)

Section DeserializeTheory.
Context {ModelCtor : Type} (md : Metadata ModelCtor).
Context (DATE : AttributeType) (parseDate : string → option Z).

Implicit Types (rec : ModelCtor → value → DeserializeOptions.t
                      → outcome ModelCtor (gmap string value)).

#[local] Arguments deserializeFuel : simpl never.

Lemma runLoop_ext step1 step2 attrs st :
  (∀ key attr, (key, attr) ∈ attrs → step1 key attr = step2 key attr) →
  runLoop step1 attrs st = runLoop step2 attrs st.
Proof.
  revert st. induction attrs as [|[key attr] attrs IH]; intros st Hext; [done|].
  rewrite !runLoop_cons, (Hext key attr) by by left.
  apply IH. intros; apply Hext; by right.
Qed.

(** [validate] looks at the attributes of the instance only. *)
Lemma validate_ext this instance1 instance2 opts :
  (∀ key, key ∈ (getAttributes md this).*1 →
          prop instance1 key = prop instance2 key) →
  validate md this instance1 opts = validate md this instance2 opts.
Proof.
  intros Hext. rewrite !validate_runLoop. cbv zeta.
  rewrite (runLoop_ext _ (attrStep md (default true (ValidationOptions.required opts))
                                   this instance2)); [done|].
  intros key attr Hin. unfold attrStep. rewrite Hext; [done|].
  apply list_elem_of_fmap. by exists (key, attr).
Qed.

Lemma deserializeFuel_unfold fuel this data opts :
  deserializeFuel md DATE parseDate fuel this data opts =
    deserializeBody md DATE parseDate
      (match fuel with
       | O => λ _ _ _, OutOfFuel
       | S fuel' => deserializeFuel md DATE parseDate fuel'
       end) this data opts.
Proof. by destruct fuel. Qed.

Lemma normalize_data data :
  (if Lodash.isPlainObject data then Lodash.clone data
   else Lodash.toPlainObject data) = Lodash.toPlainObject data.
Proof. by destruct data. Qed.

(** Without defaults the constructor copies the data. *)
Lemma constructor_no_defaults this fields :
  constructor md this (VObj fields) (ModelConstructorOptions.mk (Some false))
    = fields.
Proof. unfold constructor. simpl. apply merge_fresh. Qed.

Lemma convertDates_id attrs (instance : gmap string value) :
  (∀ key attr, (key, attr) ∈ attrs →
     type_tag (attr_type attr) = type_tag DATE →
     is_string (prop instance key) = false) →
  convertDates DATE parseDate attrs instance = instance.
Proof.
  induction attrs as [|[key attr] attrs IH]; intros Hdates; [done|].
  unfold convertDates. cbn [foldl].
  assert (match prop instance key with
          | VStr s =>
              if String.eqb (type_tag (attr_type attr)) (type_tag DATE)
              then <[key := VDate (parseDate s)]> instance
              else instance
          | _ => instance
          end = instance) as ->.
  { destruct (prop instance key) eqn:E; try done.
    destruct (String.eqb _ _) eqn:Etag; [|done].
    apply String.eqb_eq in Etag.
    assert ((key, attr) ∈ (key, attr) :: attrs) as Hin by by left.
    specialize (Hdates key attr Hin Etag).
    by rewrite E in Hdates. }
  apply IH. intros; eapply Hdates; [by right|done].
Qed.

Lemma validate_fuel this instance opts :
  (validate md this instance opts).2 ≠ OutOfFuel.
Proof.
  rewrite validate_runLoop. cbv zeta. cbn [snd]. unfold finish.
  by destruct (_ <? _)%nat.
Qed.

(** A call exhausts the recursion bound only if a nested call does. *)
Lemma deserializeBody_fuel rec this data opts :
  (0 ≤ default 1 (DeserializeOptions.depth opts) - 1 →
   ∀ t x, rec t x
     (DeserializeOptions.mk
        (Some (default true (DeserializeOptions.associations opts)))
        (Some (default 1 (DeserializeOptions.depth opts) - 1))
        (Some (default true (DeserializeOptions.validate opts))))
     ≠ OutOfFuel) →
  deserializeBody md DATE parseDate rec this data opts ≠ OutOfFuel.
Proof.
  intros Hrec. unfold deserializeBody. rewrite normalize_data.
  set (instance := convertDates _ _ _ _).
  set (ao := DeserializeOptions.mk _ _ _) in *.
  assert (∀ l s, forOf (deserializeAssociation rec
                          (Lodash.toPlainObject data) ao) l s
                 ≠ OutOfFuel) as Hloop.
  { intros l s. apply forOf_fuel. intros s' [key assoc] _.
    unfold deserializeAssociation.
    destruct (Lodash.isNil _); [done|].
    destruct (resolve (target assoc)) as [t|]; [|done].
    unfold ao at 1. cbn [DeserializeOptions.depth depthAllows].
    destruct (0 <=? _) eqn:Hdepth; [|done].
    apply Z.leb_le in Hdepth. specialize (Hrec Hdepth).
    destruct (toMany assoc).
    - destruct (prop _ key) as [| | | | | |items|]; try done.
      pose proof (promiseAll_fuel (M := ModelCtor)
                    (λ item, rec t item ao) items (λ x _, Hrec t x)) as Hall.
      by destruct (promiseAll _ items).
    - specialize (Hrec t (prop (Lodash.toPlainObject data) key)).
      by destruct (rec t _ ao). }
  pose proof (validate_fuel this) as Hval.
  destruct (default true (DeserializeOptions.associations opts)).
  - specialize (Hloop (getAssociations md this) instance).
    destruct (forOf _ _ _) as [i| |]; cbn [bind]; [|done..].
    destruct (default true _); [|done].
    specialize (Hval i ValidationOptions.none).
    by destruct (validate md this i _).2.
  - cbn [bind]. destruct (default true _); [|done].
    specialize (Hval instance ValidationOptions.none).
    by destruct (validate md this instance _).2.
Qed.

(** [depth] levels of nesting are all a call needs. *)
Lemma deserializeFuel_enough fuel this data opts :
  (Z.to_nat (default 1%Z (DeserializeOptions.depth opts)) ≤ fuel)%nat →
  deserializeFuel md DATE parseDate fuel this data opts ≠ OutOfFuel.
Proof.
  revert this data opts.
  induction fuel as [|fuel IH]; intros this data opts Hfuel;
    rewrite deserializeFuel_unfold; apply deserializeBody_fuel;
    intros Hdepth t x; [lia|].
  apply IH. simpl. lia.
Qed.

(** The loop reaches an association that holds a value and has no
    target: it throws the definition error, whatever the depth. *)
Lemma deserializeLoop_first rec (data : gmap string value) ao
  l1 key assoc l2 instance :
  (∀ k a, (k, a) ∈ l1 → Lodash.isNil (prop data k) = true) →
  Lodash.isNil (prop data key) = false →
  resolve (target assoc) = None →
  forOf (deserializeAssociation rec data ao) (l1 ++ (key, assoc) :: l2) instance
    = Throw (cannotDeserialize key).
Proof.
  intros Hl1 Hv Ht.
  induction l1 as [|[k a] l1 IH]; cbn [app forOf];
    unfold deserializeAssociation at 1.
  - by rewrite Hv, Ht.
  - rewrite (Hl1 k a) by by left. cbn [bind].
    apply IH. intros; eapply Hl1; by right.
Qed.

(** With the depth used up, the loop throws the definition error of the
    first association that holds a value and has no target. *)
Lemma deserializeLoop_shallow rec (data : gmap string value) ao l instance :
  depthAllows (DeserializeOptions.depth ao) = false →
  (∃ key assoc, (key, assoc) ∈ l ∧
     Lodash.isNil (prop data key) = false ∧ resolve (target assoc) = None) →
  ∃ key assoc, (key, assoc) ∈ l ∧
    Lodash.isNil (prop data key) = false ∧ resolve (target assoc) = None ∧
    forOf (deserializeAssociation rec data ao) l instance
      = Throw (cannotDeserialize key).
Proof.
  intros Hdepth. revert instance.
  induction l as [|[k a] l IH]; intros instance (key & assoc & Hin & Hv & Ht).
  - by apply elem_of_nil in Hin.
  - cbn [forOf]. unfold deserializeAssociation at 1.
    destruct (Lodash.isNil (prop data k)) eqn:Ek.
    + apply elem_of_cons in Hin as [Heq|Hin]; [simplify_eq; congruence|].
      cbn [bind].
      destruct (IH instance) as (key' & assoc' & Hin' & Hv' & Ht' & Hrun).
      { by exists key, assoc. }
      exists key', assoc'. split; [by right|]. done.
    + destruct (resolve (target a)) as [t|] eqn:Et.
      * rewrite Hdepth. cbn [bind].
        apply elem_of_cons in Hin as [Heq|Hin]; [simplify_eq; congruence|].
        destruct (IH instance) as (key' & assoc' & Hin' & Hv' & Ht' & Hrun).
        { by exists key, assoc. }
        exists key', assoc'. split; [by right|]. done.
      * exists k, a. split; [by left|]. done.
Qed.

(** A loop over associations one of which holds a value and has no
    target does not come to an end. *)
Lemma deserializeLoop_never_returns rec (data : gmap string value) ao
  l instance r :
  (∃ key assoc, (key, assoc) ∈ l ∧
     Lodash.isNil (prop data key) = false ∧ resolve (target assoc) = None) →
  forOf (deserializeAssociation rec data ao) l instance ≠ Return r.
Proof.
  revert instance.
  induction l as [|[k a] l IH]; intros instance (key & assoc & Hin & Hv & Ht) Hrun.
  - by apply elem_of_nil in Hin.
  - cbn [forOf] in Hrun. apply bind_Return in Hrun as (s & Hstep & Hrun).
    apply elem_of_cons in Hin as [Heq|Hin].
    + simplify_eq. revert Hstep. unfold deserializeAssociation.
      by rewrite Hv, Ht.
    + eapply IH; [|done]. by exists key, assoc.
Qed.

(** A round for another key does not see what is under [key]. *)
Lemma deserializeAssociation_insert rec data ao instance key x k a :
  k ≠ key →
  deserializeAssociation rec data ao (<[key := x]> instance) (k, a) =
    bind (deserializeAssociation rec data ao instance (k, a))
         (λ r, Return (<[key := x]> r)).
Proof.
  intros Hne. unfold deserializeAssociation.
  destruct (Lodash.isNil (prop _ k)); [done|].
  destruct (resolve (target a)) as [t|]; [|done].
  destruct (depthAllows _); [|done].
  destruct (toMany a).
  - destruct (prop _ k) as [| | | | | |items|]; cbn [bind];
      try (by rewrite insert_insert_ne).
    destruct (promiseAll _ items); cbn [bind]; [|done..].
    by rewrite insert_insert_ne.
  - destruct (rec t _ ao); cbn [bind]; [|done..].
    by rewrite insert_insert_ne.
Qed.

Lemma deserializeAssociation_delete rec (data : gmap string value) ao
  instance key k a :
  k ≠ key →
  deserializeAssociation rec data ao instance (k, a) =
    deserializeAssociation rec (delete key data) ao instance (k, a).
Proof.
  intros Hne. unfold deserializeAssociation, prop.
  by rewrite lookup_delete_ne.
Qed.

Lemma deserializeLoop_insert rec (data : gmap string value) ao l instance key x :
  key ∉ l.*1 →
  forOf (deserializeAssociation rec data ao) l (<[key := x]> instance) =
    bind (forOf (deserializeAssociation rec (delete key data) ao) l instance)
         (λ r, Return (<[key := x]> r)).
Proof.
  revert instance. induction l as [|[k a] l IH]; intros instance Hkey; [done|].
  simpl in Hkey. apply not_elem_of_cons in Hkey as [Hne Hkey].
  cbn [forOf]. rewrite deserializeAssociation_insert by done.
  rewrite (deserializeAssociation_delete _ _ _ _ key) by done.
  destruct (deserializeAssociation rec _ ao instance (k, a)); cbn [bind];
    [by apply IH|done..].
Qed.

(** The defensive fallback in the loop of [deserialize]. *)
Lemma deserializeLoop_fallback rec (data : gmap string value) ao
  l instance key assoc t v :
  (key, assoc) ∈ l →
  NoDup l.*1 →
  toMany assoc = true →
  resolve (target assoc) = Some t →
  data !! key = Some v →
  Lodash.isNil v = false →
  Lodash.isArray v = false →
  depthAllows (DeserializeOptions.depth ao) = true →
  forOf (deserializeAssociation rec data ao) l instance =
    bind (forOf (deserializeAssociation rec (delete key data) ao) l instance)
         (λ r, Return (<[key := VArr []]> r)).
Proof.
  intros Hin Hnd Hmany Ht Hv Hnil Harr Hallows. revert instance.
  induction l as [|[k a] l IH]; intros instance.
  - by apply elem_of_nil in Hin.
  - simpl in Hnd. apply NoDup_cons in Hnd as [Hk Hnd]. cbn [forOf].
    apply elem_of_cons in Hin as [Heq|Hin].
    + injection Heq as Hk' Ha'. subst k a.
      unfold deserializeAssociation at 1 3, prop.
      rewrite lookup_delete_eq, Hv. simpl. rewrite Hnil, Ht, Hallows, Hmany.
      assert (match v with
              | VArr items =>
                  bind (promiseAll (λ item, rec t item ao) items)
                       (λ rs, Return (<[key := VArr (VObj <$> rs)]> instance))
              | _ => Return (<[key := VArr []]> instance)
              end = Return (<[key := VArr []]> instance)) as ->.
      { by destruct v. }
      cbn [bind]. by apply deserializeLoop_insert.
    + assert (k ≠ key) as Hne.
      { intros ->. apply Hk. apply list_elem_of_fmap. by exists (key, assoc). }
      rewrite (deserializeAssociation_delete _ _ _ _ key) by done.
      destruct (deserializeAssociation rec _ ao instance (k, a)); cbn [bind];
        [by apply IH|done..].
Qed.

(** The defensive fallback of [deserialize], for any nested calls. *)
Lemma deserializeBody_fallback rec this (fields : gmap string value)
  key assoc t v opts instance0 :
  (key, assoc) ∈ getAssociations md this →
  NoDup (getAssociations md this).*1 →
  key ∉ (getAttributes md this).*1 →
  toMany assoc = true →
  resolve (target assoc) = Some t →
  fields !! key = Some v →
  Lodash.isNil v = false →
  Lodash.isArray v = false →
  default true (DeserializeOptions.associations opts) = true →
  1 ≤ default 1 (DeserializeOptions.depth opts) →
  deserializeBody md DATE parseDate rec this (VObj (delete key fields)) opts
    = Return instance0 →
  deserializeBody md DATE parseDate rec this (VObj fields) opts
    = Return (<[key := VArr []]> instance0).
Proof.
  intros Hin Hnd Hattr Hmany Ht Hv Hnil Harr Hassoc Hdepth.
  unfold deserializeBody. rewrite Hassoc, !normalize_data.
  cbn [Lodash.toPlainObject].
  assert (Lodash.pick (delete key fields) (getAttributes md this).*1 =
          Lodash.pick fields (getAttributes md this).*1) as ->.
  { apply map_eq. intros k. rewrite !pick_lookup.
    destruct (decide _); [|done]. rewrite lookup_delete_ne; [done|].
    by intros ->. }
  set (instance := convertDates _ _ _ _).
  set (ao := DeserializeOptions.mk _ _ _).
  rewrite (deserializeLoop_fallback rec fields ao _ instance key assoc t v);
    try done; [|simpl; apply Z.leb_le; lia].
  destruct (forOf _ _ _) as [i| |]; cbn [bind]; [|done..].
  rewrite (validate_ext this (<[key := VArr []]> i) i).
  - destruct (default true (DeserializeOptions.validate opts)); cbn [bind].
    + destruct (validate md this i ValidationOptions.none).2; cbn [bind];
        [|done..].
      by intros [= <-].
    + by intros [= <-].
  - intros k Hk. unfold prop. rewrite lookup_insert_ne; [done|].
    by intros ->.
Qed.

End DeserializeTheory.

(** ** The engine as a whole *)

Section Engine.
Context {ModelCtor : Type} (md : Metadata ModelCtor).
Context (DATE : AttributeType) (parseDate : string → option Z).

#[local] Arguments serializeFuel : simpl never.
#[local] Arguments deserializeFuel : simpl never.

(** [serialize] and [deserialize] always come to an end: they resolve or
    reject, the recursion bound of the embedding is never what stops
    them. *)
Lemma serialize_total this instance opts :
  serialize md this instance opts ≠ OutOfFuel.
Proof. by apply serializeFuel_enough. Qed.

Lemma deserialize_total this data opts :
  deserialize md DATE parseDate this data opts ≠ OutOfFuel.
Proof. by apply deserializeFuel_enough. Qed.

(** An instance that passes [validate] has no attribute that collected
    an entry. *)
Lemma validate_passes this instance opts key attr :
  (validate md this instance opts).2 = Return () →
  (key, attr) ∈ getAttributes md this →
  attrErrors md (default true (ValidationOptions.required opts))
             this instance key attr = [].
Proof.
  rewrite validate_runLoop. cbv zeta. cbn [snd]. intros Hrun Hin.
  set (step := attrStep md _ this instance) in *.
  unfold attrErrors. fold step.
  destruct (step key attr).2 as [[|e es]|] eqn:E; [done| |done].
  exfalso.
  destruct (runLoop_reports step (getAttributes md this) ([], ∅) key attr
              (e :: es) Hin E) as (l & Hl & _); [done|].
  by rewrite (finish_throws this _ key l Hl) in Hrun.
Qed.

(** What it has under an attribute with a type validator is accepted by
    that validator. *)
Lemma validate_passes_type this instance opts key attr f :
  (validate md this instance opts).2 = Return () →
  (key, attr) ∈ getAttributes md this →
  Lodash.isNil (prop instance key) = false →
  type_validate (attr_type attr) = Some f →
  f key (prop instance key) = None.
Proof.
  intros Hrun Hin Hnil Hf.
  pose proof (validate_passes this instance opts key attr Hrun Hin) as Herr.
  revert Herr. unfold attrErrors, attrStep, validateAttribute, substituteDefault.
  rewrite Hnil, Hf. simpl.
  destruct (runValidations _ _ _) as [ev2 er2]. simpl.
  by destruct (f key (prop instance key)).
Qed.

Lemma pick_idempotent (object : gmap string value) paths :
  Lodash.pick (Lodash.pick object paths) paths = Lodash.pick object paths.
Proof.
  apply map_eq. intros key. rewrite !pick_lookup. by destruct (decide _).
Qed.

(** C3.  A model without associations and an instance that passes
    [validate], every date attribute having a validator that accepts
    [Date] objects only: [serialize] returns, [deserialize] of what it
    returned returns an instance that holds, under every attribute name,
    what the original holds; and on both sides no date attribute holds a
    string: it holds a [Date] object wherever it holds a value. *)
Theorem deserialize_serialize_roundtrip this (fields : gmap string value) :
  getAssociations md this = [] →
  (validate md this fields ValidationOptions.none).2 = Return () →
  (∀ key attr, (key, attr) ∈ getAttributes md this →
     type_tag (attr_type attr) = type_tag DATE →
     ∃ f, type_validate (attr_type attr) = Some f ∧
          ∀ k v, f k v = None → is_date v = true) →
  ∃ r instance,
    serialize md this (VObj fields) SerializeOptions.none = Return r ∧
    deserialize md DATE parseDate this (VObj r) DeserializeOptions.none
      = Return instance ∧
    (∀ key, key ∈ (getAttributes md this).*1 →
            prop instance key = prop fields key) ∧
    (∀ key attr, (key, attr) ∈ getAttributes md this →
       type_tag (attr_type attr) = type_tag DATE →
       is_string (prop fields key) = false ∧
       is_string (prop instance key) = false ∧
       (Lodash.isNil (prop fields key) = false →
        is_date (prop fields key) = true ∧
        is_date (prop instance key) = true)).
Proof.
  intros Hassocs Hvalid Hdate.
  set (r := Lodash.pick fields (getAttributes md this).*1).
  assert (∀ key, key ∈ (getAttributes md this).*1 →
                 prop r key = prop fields key) as Hsame.
  { intros key Hkey. unfold prop, r. rewrite pick_lookup.
    by rewrite decide_True. }
  assert (∀ key attr, (key, attr) ∈ getAttributes md this →
     type_tag (attr_type attr) = type_tag DATE →
     is_string (prop fields key) = false ∧
     (Lodash.isNil (prop fields key) = false →
      is_date (prop fields key) = true)) as Hfields.
  { intros key attr Hin Htag.
    destruct (Hdate key attr Hin Htag) as (f & Hf & Hacc).
    destruct (Lodash.isNil (prop fields key)) eqn:Enil.
    - split; [by destruct (prop fields key)|done].
    - assert (is_date (prop fields key) = true) as Hd.
      { apply (Hacc key).
        by eapply validate_passes_type. }
      split; [by destruct (prop fields key)|done]. }
  exists r, r. split; [|split; [|split]].
  - unfold serialize. simpl. change (Pos.to_nat 1) with 1%nat.
    rewrite serializeFuel_unfold. unfold serializeBody. simpl.
    by rewrite Hassocs.
  - unfold deserialize. simpl. change (Pos.to_nat 1) with 1%nat.
    rewrite deserializeFuel_unfold. unfold deserializeBody.
    rewrite normalize_data. cbn [Lodash.toPlainObject default
      DeserializeOptions.associations DeserializeOptions.validate
      DeserializeOptions.depth DeserializeOptions.none].
    assert (Lodash.pick r (getAttributes md this).*1 = r) as ->
      by apply pick_idempotent.
    rewrite constructor_no_defaults, Hassocs.
    rewrite convertDates_id.
    + cbn [forOf bind].
      rewrite (validate_ext md this r fields) by done.
      by rewrite Hvalid.
    + intros key attr Hin Htag. rewrite Hsame.
      * by apply (Hfields key attr).
      * apply list_elem_of_fmap. by exists (key, attr).
  - done.
  - intros key attr Hin Htag.
    destruct (Hfields key attr Hin Htag) as [Hstr Hd].
    rewrite Hsame by (apply list_elem_of_fmap; by exists (key, attr)).
    split; [done|]. split; [done|]. intros Hnil. split; by apply Hd.
Qed.

(** C5, as amended.  A to-many association whose target is defined and
    whose key is not an attribute name, holding a value that is neither
    nil nor an array: with the default options [deserialize] puts an empty
    array under its key, and so does [serialize]; the value makes neither
    fail: each returns whenever it returns for the same object without
    that value, with the same result but for the empty array. *)
Theorem to_many_fallback this (fields : gmap string value) key assoc t v :
  (key, assoc) ∈ getAssociations md this →
  NoDup (getAssociations md this).*1 →
  key ∉ (getAttributes md this).*1 →
  toMany assoc = true →
  resolve (target assoc) = Some t →
  fields !! key = Some v →
  Lodash.isNil v = false →
  Lodash.isArray v = false →
  (∀ instance0,
     deserialize md DATE parseDate this (VObj (delete key fields))
                 DeserializeOptions.none = Return instance0 →
     deserialize md DATE parseDate this (VObj fields)
                 DeserializeOptions.none
       = Return (<[key := VArr []]> instance0)) ∧
  (∀ r0,
     serialize md this (VObj (delete key fields)) SerializeOptions.none
       = Return r0 →
     serialize md this (VObj fields) SerializeOptions.none
       = Return (<[key := VArr []]> r0)).
Proof.
  intros Hin Hnd Hattr Hmany Ht Hv Hnil Harr. split.
  - intros instance0. unfold deserialize. rewrite !deserializeFuel_unfold.
    by apply (deserializeBody_fallback md DATE parseDate _ this fields
                key assoc t v).
  - intros r0. unfold serialize. rewrite !serializeFuel_unfold.
    by apply (serializeBody_fallback md _ this fields key assoc t v).
Qed.

(** C9, as amended.  An association that holds a value and whose target
    resolves to no model constructor, the associations being on:
    [serialize] rejects, with an error that is not a [ValidationError];
    [deserialize] rejects as well and returns no instance; and when the
    associations registered before that one hold no value, both reject
    with their definition error, which is no [ValidationError] and so in no
    report, whatever the depth and the [validate] option. *)
Theorem undefined_target_is_fatal this (fields : gmap string value) key
  sopts dopts :
  undefinedTarget md this fields key →
  default true (SerializeOptions.associations sopts) = true →
  default true (DeserializeOptions.associations dopts) = true →
  (∃ e, serialize md this (VObj fields) sopts = Throw e ∧
        is_ValidationError e = false) ∧
  (∃ e, deserialize md DATE parseDate this (VObj fields) dopts = Throw e) ∧
  (∀ assoc l1 l2,
     getAssociations md this = l1 ++ (key, assoc) :: l2 →
     resolve (target assoc) = None →
     (∀ k a, (k, a) ∈ l1 → Lodash.isNil (prop fields k) = true) →
     serialize md this (VObj fields) sopts = Throw (cannotSerialize key) ∧
     deserialize md DATE parseDate this (VObj fields) dopts
       = Throw (cannotDeserialize key) ∧
     is_ValidationError (cannotSerialize (ModelCtor := ModelCtor) key) = false ∧
     is_ValidationError (cannotDeserialize (ModelCtor := ModelCtor) key) = false).
Proof.
  intros (assoc & Hin & Hv & Ht) Hsa Hda. split; [|split].
  - destruct (serialize md this (VObj fields) sopts) as [r|e|] eqn:E.
    + exfalso. revert E. unfold serialize. rewrite serializeFuel_unfold.
      unfold serializeBody. rewrite Hsa.
      apply serializeLoop_never_returns; [done|]. by exists key, assoc.
    + exists e. split; [done|]. by eapply serializeFuel_error.
    + exfalso. revert E. by apply serializeFuel_enough.
  - destruct (deserialize md DATE parseDate this (VObj fields) dopts)
      as [r|e|] eqn:E.
    + exfalso. revert E. unfold deserialize. rewrite deserializeFuel_unfold.
      unfold deserializeBody. rewrite Hda, normalize_data.
      intros E. apply bind_Return in E as (i & Hloop & _).
      revert Hloop. apply deserializeLoop_never_returns.
      by exists key, assoc.
    + by exists e.
    + exfalso. revert E. by apply deserializeFuel_enough.
  - intros assoc' l1 l2 Hsplit Ht' Hl1. split; [|split; [|done]].
    + unfold serialize. rewrite serializeFuel_unfold.
      unfold serializeBody. rewrite Hsa, Hsplit.
      by apply serializeLoop_first.
    + unfold deserialize. rewrite deserializeFuel_unfold.
      unfold deserializeBody. rewrite Hda, normalize_data, Hsplit.
      by rewrite deserializeLoop_first.
Qed.

(** C10.  In a round of either loop, an association that holds a value
    and has no target makes the round throw the definition error whatever
    depth the options carry: the target is looked at before the depth.
    So with a depth of 0 or less, at which no association is expanded,
    [serialize] and [deserialize] still reject with the definition error
    of such an association, the first one in the registry. *)
Theorem undefined_target_before_depth this (fields : gmap string value) key
  assoc sopts dopts :
  (key, assoc) ∈ getAssociations md this →
  Lodash.isNil (prop fields key) = false →
  resolve (target assoc) = None →
  default true (SerializeOptions.associations sopts) = true →
  default true (DeserializeOptions.associations dopts) = true →
  (∀ rec ao result,
     serializeAssociation rec (VObj fields) ao result (key, assoc)
       = Throw (cannotSerialize key)) ∧
  (∀ rec ao instance,
     deserializeAssociation rec fields ao instance (key, assoc)
       = Throw (cannotDeserialize key)) ∧
  (default 1 (SerializeOptions.depth sopts) ≤ 0 →
   ∃ key', undefinedTarget md this fields key' ∧
     serialize md this (VObj fields) sopts = Throw (cannotSerialize key')) ∧
  (default 1 (DeserializeOptions.depth dopts) ≤ 0 →
   ∃ key', undefinedTarget md this fields key' ∧
     deserialize md DATE parseDate this (VObj fields) dopts
       = Throw (cannotDeserialize key')).
Proof.
  intros Hin Hv Ht Hsa Hda. split; [|split; [|split]].
  - intros rec ao result. unfold serializeAssociation, getProperty. simpl.
    by rewrite Hv, Ht.
  - intros rec ao instance. unfold deserializeAssociation.
    by rewrite Hv, Ht.
  - intros Hdepth. unfold serialize. rewrite serializeFuel_unfold.
    unfold serializeBody. rewrite Hsa.
    set (ao := SerializeOptions.mk _ _).
    set (rec := match _ with O => _ | S _ => _ end).
    destruct (serializeLoop_shallow rec (VObj fields) ao
                (getAssociations md this)
                (Lodash.pick (Lodash.toPlainObject (VObj fields))
                             (getAttributes md this).*1))
      as (key' & assoc' & Hin' & Hv' & Ht' & Hrun); [done| |by eauto|].
    { simpl. apply Z.leb_gt. lia. }
    exists key'. split; [by exists assoc'|done].
  - intros Hdepth. unfold deserialize. rewrite deserializeFuel_unfold.
    unfold deserializeBody. rewrite Hda, normalize_data.
    set (ao := DeserializeOptions.mk _ _ _).
    set (rec := match _ with O => _ | S _ => _ end).
    set (instance := convertDates _ _ _ _).
    destruct (deserializeLoop_shallow rec fields ao
                (getAssociations md this) instance)
      as (key' & assoc' & Hin' & Hv' & Ht' & Hrun); [|by eauto|].
    { simpl. apply Z.leb_gt. lia. }
    exists key'. split; [by exists assoc'|].
    cbn [Lodash.toPlainObject]. by rewrite Hrun.
Qed.

End Engine.

(** ** The engine on the example models *)

(** Counterexample to C1 as stated: the parent has children who have toys,
    and [serialize] with [depth: 0] returns the name alone, no [children]. *)
Lemma serialize_depth0_counterexample :
  prop (Lodash.toPlainObject Demo.parent) "children" = VArr [Demo.child] ∧
  prop (Lodash.toPlainObject Demo.child) "toys" = VArr [Demo.toy] ∧
  serialize Demo.md Demo.Parent Demo.parent
            (SerializeOptions.mk (Some true) (Some 0))
    = Return {[ "name" := VStr "Lee" ]} ∧
  ({[ "name" := VStr "Lee" ]} : gmap string value) !! "children" = None.
Proof. repeat split; by vm_compute. Qed.

(** Witness of C1 as amended: at depth 0 the parent's name alone, at
    depth 1 the children as well, each with a name and no toys. *)
Lemma serialize_depth_bound_witness :
  serialize Demo.md Demo.Parent Demo.parent
            (SerializeOptions.mk (Some true) (Some 0))
    = Return {[ "name" := VStr "Lee" ]} ∧
  ∃ r, serialize Demo.md Demo.Parent Demo.parent
                 (SerializeOptions.mk (Some true) (Some 1)) = Return r ∧
       r !! "name" = Some (VStr "Lee") ∧
       r !! "children" = Some (VArr [VObj {[ "name" := VStr "Kim" ]}]).
Proof.
  destruct (serialize_depth_bound Demo.md Demo.Parent Demo.parent)
    as [Hzero Hone].
  split.
  - rewrite Hzero by reflexivity. by vm_compute.
  - destruct Hone as (r & Hrun & Hplain & Hexpanded).
    + reflexivity.
    + apply (bool_decide_unpack _). by vm_compute.
    + exists r. split; [exact Hrun|]. split.
      * rewrite Hplain; [by vm_compute|].
        apply (bool_decide_unpack _). by vm_compute.
      * destruct (Hexpanded "children"
                    {| assoc_type := HAS_MANY;
                       target := LazyLoad (λ _, Some Demo.Child) |}
                    Demo.Child) as [Hchildren _].
        -- vm_compute. by left.
        -- reflexivity.
        -- reflexivity.
        -- rewrite Hchildren. by vm_compute.
Defined.


(** Witness of C3: an appointment, with a field that is not an attribute,
    comes back with its title and its date. *)
Lemma deserialize_serialize_roundtrip_witness :
  ∃ r instance,
    serialize Demo.md Demo.Appointment Demo.appointment
              SerializeOptions.none = Return r ∧
    deserialize Demo.md Demo.DATE Demo.parseDate Demo.Appointment
                (VObj r) DeserializeOptions.none = Return instance ∧
    prop instance "title" = VStr "Dentist" ∧
    prop instance "at" = VDate (Some 1577836800000) ∧
    is_date (prop instance "at") = true.
Proof.
  destruct (deserialize_serialize_roundtrip Demo.md Demo.DATE
              Demo.parseDate Demo.Appointment
              (list_to_map [("title", VStr "Dentist");
                            ("at", VDate (Some 1577836800000));
                            ("note", VStr "not an attribute")]))
    as (r & instance & Hser & Hdes & Hsame & Hdates).
  - reflexivity.
  - by vm_compute.
  - intros key attr Hin Htag.
    apply elem_of_cons in Hin as [Heq|Hin];
      [injection Heq as -> ->; by vm_compute in Htag|].
    apply elem_of_cons in Hin as [Heq|Hin];
      [|by apply elem_of_nil in Hin].
    injection Heq as -> ->. eexists. split; [reflexivity|].
    intros k v. by destruct v.
  - exists r, instance. split; [exact Hser|]. split; [exact Hdes|].
    split; [|split].
    + rewrite Hsame; [by vm_compute|]. vm_compute. by left.
    + rewrite Hsame; [by vm_compute|]. vm_compute. right. by left.
    + destruct (Hdates "at" (Demo.required Demo.DATE)) as (_ & _ & Hd).
      * vm_compute. right. by left.
      * reflexivity.
      * by apply Hd.
Defined.

(** Counterexample to C5 as stated: the to-many association of a crew has
    no target, and a value that is not an array makes [deserialize] and
    [serialize] throw. *)
Lemma to_many_fallback_counterexample :
  getAssociations Demo.md Demo.Crew =
    [("members", {| assoc_type := HAS_MANY; target := LazyLoad (λ _, None) |})] ∧
  prop (Lodash.toPlainObject Demo.oddCrew) "members" = VStr "not-an-array" ∧
  deserialize Demo.md Demo.DATE Demo.parseDate Demo.Crew
              Demo.oddCrew DeserializeOptions.none
    = Throw (cannotDeserialize "members") ∧
  serialize Demo.md Demo.Crew Demo.oddCrew SerializeOptions.none
    = Throw (cannotSerialize "members").
Proof. repeat split; by vm_compute. Qed.

(** Witness of C5 as amended: a parent whose [children] is a string. *)
Lemma to_many_fallback_witness :
  deserialize Demo.md Demo.DATE Demo.parseDate Demo.Parent
              Demo.oddParent DeserializeOptions.none
    = Return {[ "name" := VStr "Lee"; "children" := VArr [] ]} ∧
  serialize Demo.md Demo.Parent Demo.oddParent SerializeOptions.none
    = Return {[ "name" := VStr "Lee"; "children" := VArr [] ]}.
Proof.
  destruct (to_many_fallback Demo.md Demo.DATE Demo.parseDate
              Demo.Parent
              (list_to_map [("name", VStr "Lee");
                            ("children", VStr "not-an-array")])
              "children"
              {| assoc_type := HAS_MANY;
                 target := LazyLoad (λ _, Some Demo.Child) |}
              Demo.Child (VStr "not-an-array"))
    as [Hdes Hser].
  - vm_compute. by left.
  - apply (bool_decide_unpack _). by vm_compute.
  - apply (bool_decide_unpack _). by vm_compute.
  - reflexivity.
  - reflexivity.
  - by vm_compute.
  - reflexivity.
  - reflexivity.
  - split.
    + change Demo.oddParent with
        (VObj (list_to_map [("name", VStr "Lee");
                            ("children", VStr "not-an-array")])).
      rewrite (Hdes {[ "name" := VStr "Lee" ]}); by vm_compute.
    + change Demo.oddParent with
        (VObj (list_to_map [("name", VStr "Lee");
                            ("children", VStr "not-an-array")])).
      rewrite (Hser {[ "name" := VStr "Lee" ]}); by vm_compute.
Defined.

(** Counterexample to C9 as stated: the ghost of the owner has no target,
    but the pet comes first and has no name: [deserialize] rejects with the
    [ValidationError] of the pet. *)
Lemma undefined_target_counterexample :
  undefinedTarget Demo.md Demo.Owner
                  (Lodash.toPlainObject Demo.haunted) "ghost" ∧
  deserialize Demo.md Demo.DATE Demo.parseDate Demo.Owner
              Demo.haunted DeserializeOptions.none
    = Throw (ValidationError Demo.Pet "Validation error"
               {[ "name" := [required_error;
                             {| err_type := "attribute.string";
                                err_message := "Not a string" |}] ]}) ∧
  is_ValidationError
    (ValidationError Demo.Pet "Validation error"
       {[ "name" := [required_error;
                     {| err_type := "attribute.string";
                        err_message := "Not a string" |}] ]}) = true.
Proof.
  split; [|split; [by vm_compute|done]].
  exists {| assoc_type := HAS_ONE; target := LazyLoad (λ _, None) |}.
  split; [vm_compute; right; by left|]. split; by vm_compute.
Qed.

(** Witness of C9 as amended: an owner without a pet, the ghost being the
    first association that holds a value. *)
Lemma undefined_target_is_fatal_witness :
  serialize Demo.md Demo.Owner Demo.possessed SerializeOptions.none
    = Throw (cannotSerialize "ghost") ∧
  deserialize Demo.md Demo.DATE Demo.parseDate Demo.Owner
              Demo.possessed DeserializeOptions.none
    = Throw (cannotDeserialize "ghost").
Proof.
  destruct (undefined_target_is_fatal Demo.md Demo.DATE Demo.parseDate
              Demo.Owner
              (list_to_map [("name", VStr "Max"); ("ghost", Demo.obj [])])
              "ghost" SerializeOptions.none DeserializeOptions.none)
    as (_ & _ & Hfirst).
  - exists {| assoc_type := HAS_ONE; target := LazyLoad (λ _, None) |}.
    split; [vm_compute; right; by left|]. split; by vm_compute.
  - reflexivity.
  - reflexivity.
  - destruct (Hfirst {| assoc_type := HAS_ONE; target := LazyLoad (λ _, None) |}
                [("pet", {| assoc_type := HAS_ONE;
                            target := Concrete (Some Demo.Pet) |})] [])
      as (Hser & Hdes & _).
    + reflexivity.
    + reflexivity.
    + intros k a Hin. apply list_elem_of_singleton in Hin.
      injection Hin as -> ->. by vm_compute.
    + split; [exact Hser|exact Hdes].
Defined.

(** Witness of C10: with [depth: 0] the pet of the haunted owner is not
    deserialized, and the ghost still makes the call throw. *)
Lemma undefined_target_before_depth_witness :
  (∃ key', deserialize Demo.md Demo.DATE Demo.parseDate Demo.Owner
                       Demo.haunted (DeserializeOptions.mk None (Some 0) None)
             = Throw (cannotDeserialize key')) ∧
  (∃ key', serialize Demo.md Demo.Owner Demo.haunted
                     (SerializeOptions.mk None (Some 0))
             = Throw (cannotSerialize key')).
Proof.
  destruct (undefined_target_before_depth Demo.md Demo.DATE
              Demo.parseDate Demo.Owner
              (list_to_map [("name", VStr "Max"); ("pet", Demo.obj []);
                            ("ghost", Demo.obj [])])
              "ghost" {| assoc_type := HAS_ONE; target := LazyLoad (λ _, None) |}
              (SerializeOptions.mk None (Some 0))
              (DeserializeOptions.mk None (Some 0) None))
    as (_ & _ & Hser & Hdes).
  - vm_compute. right. by left.
  - by vm_compute.
  - reflexivity.
  - reflexivity.
  - reflexivity.
  - split.
    + destruct Hdes as (key' & _ & Hrun); [simpl; lia|]. by exists key'.
    + destruct Hser as (key' & _ & Hrun); [simpl; lia|]. by exists key'.
Defined.

(** ** More on validate *)

Section ValidateMore.
Context {ModelCtor : Type} (md : Metadata ModelCtor).

Lemma runValidations_errors_eq key v validations :
  (runValidations key v validations).2 =
    mjoin ((λ r, caught (cb r key v (options r))) <$> validations).
Proof.
  induction validations as [|r rest IH]; [done|]. simpl.
  destruct (runValidations key v rest) as [events errors]. simpl in *.
  by rewrite IH.
Qed.

(** The entries of an attribute that the loop does not pass over. *)
Lemma attrStep_collected required this instance key attr :
  Lodash.isNil (prop instance key) && (optional attr || negb required) = false →
  (attrStep md required this instance key attr).2 =
    Some (collected md this key attr (prop instance key)).
Proof.
  intros Hskip. unfold attrStep, validateAttribute, collected, validatedValue.
  rewrite Hskip.
  destruct (type_validate (attr_type attr)) as [f|].
  - destruct (substituteDefault key attr (prop instance key)) as [evs w]. simpl.
    pose proof (runValidations_errors_eq key w
                  (getAttributeValidations md this key)) as He.
    destruct (runValidations key w _) as [ev2 er2]. simpl in *. subst er2.
    by rewrite <- app_assoc.
  - pose proof (runValidations_errors_eq key (prop instance key)
                  (getAttributeValidations md this key)) as He.
    destruct (runValidations key _ _) as [ev2 er2]. simpl in *. by subst er2.
Qed.

Lemma join_caught_nil key v (validations : list Validation) :
  mjoin ((λ r, caught (cb r key v (options r))) <$> validations) = [] ↔
  ∀ r, r ∈ validations → cb r key v (options r) = None.
Proof.
  induction validations as [|r rest IH]; simpl.
  - split; [|done]. intros _ r Hin. by apply elem_of_nil in Hin.
  - split.
    + intros Hnil. apply app_eq_nil in Hnil as [Hr Hrest].
      intros r' Hin. apply elem_of_cons in Hin as [->|Hin].
      * by destruct (cb r key v (options r)).
      * by apply IH.
    + intros Hall. rewrite (Hall r) by by left. simpl.
      apply IH. intros; apply Hall; by right.
Qed.

(** An attribute collects nothing exactly when it is passed over or
    holds a value that it accepts. *)
Lemma attrErrors_nil required this instance key attr :
  attrErrors md required this instance key attr = [] ↔
  if Lodash.isNil (prop instance key)
  then optional attr || negb required = true
  else accepts md this key attr (prop instance key).
Proof.
  unfold attrErrors.
  destruct (Lodash.isNil (prop instance key)) eqn:Hnil.
  - destruct (optional attr || negb required) eqn:Hskip.
    + rewrite attrStep_skips by done. done.
    + rewrite attrStep_collected by by rewrite Hnil, Hskip.
      unfold collected. rewrite Hnil. done.
  - rewrite attrStep_collected by by rewrite Hnil.
    unfold collected, validatedValue, substituteDefault, accepts.
    rewrite Hnil. simpl.
    destruct (type_validate (attr_type attr)) as [f|]; simpl.
    + split.
      * intros Herr. apply app_eq_nil in Herr as [Hf Hr]. split.
        -- intros f' [= <-]. by destruct (f key (prop instance key)).
        -- by apply join_caught_nil.
      * intros [Hf Hr]. rewrite (Hf f eq_refl). simpl.
        by apply join_caught_nil.
    + split.
      * intros Herr. split; [done|]. by apply join_caught_nil.
      * intros [_ Hr]. by apply join_caught_nil.
Qed.

(** X1.  [validate] resolves exactly when every registered attribute
    either holds no value and is optional (or the required checks are
    off), or holds a value that its type validator and all its decorated
    validations accept. *)
Theorem validate_resolves_iff this instance opts :
  (validate md this instance opts).2 = Return () ↔
  ∀ key attr, (key, attr) ∈ getAttributes md this →
    if Lodash.isNil (prop instance key)
    then optional attr || negb (default true (ValidationOptions.required opts))
         = true
    else accepts md this key attr (prop instance key).
Proof.
  split.
  - intros Hrun key attr Hin. apply attrErrors_nil.
    by apply validate_passes.
  - intros Hall. rewrite validate_runLoop. cbv zeta. cbn [snd].
    set (step := attrStep md _ this instance).
    assert ((runLoop step (getAttributes md this) ([], ∅)).2 = ∅) as ->.
    { apply map_eq. intros key. rewrite lookup_empty.
      rewrite runLoop_skips; [done|].
      intros attr Hin. apply (attrErrors_nil _ this instance key attr).
      by apply Hall. }
    done.
Qed.

(** The report holds nothing that no attribute collected. *)
Lemma runLoop_sound step (all attrs : list (string * Attribute)) st :
  (∀ x, x ∈ attrs → x ∈ all) →
  (∀ key l, st.2 !! key = Some l →
     l ≠ [] ∧ ∀ entry, entry ∈ l →
       ∃ attr, (key, attr) ∈ all ∧ entry ∈ default [] (step key attr).2) →
  ∀ key l, (runLoop step attrs st).2 !! key = Some l →
    l ≠ [] ∧ ∀ entry, entry ∈ l →
      ∃ attr, (key, attr) ∈ all ∧ entry ∈ default [] (step key attr).2.
Proof.
  revert st. induction attrs as [|[k a] attrs IH]; intros st Hsub Hinv; [done|].
  rewrite runLoop_cons. apply IH; [intros; apply Hsub; by right|].
  cbn [snd]. intros key l.
  destruct (default [] (step k a).2) as [|e es] eqn:E.
  { rewrite record_nil. apply Hinv. }
  rewrite record_lookup by done.
  case_decide as Hk; [subst k|apply Hinv].
  intros [= <-]. split; [by destruct (default [] (st.2 !! key))|].
  intros entry Hentry. apply elem_of_app in Hentry as [Hold|Hnew].
  - destruct (st.2 !! key) as [l|] eqn:El; [|by apply elem_of_nil in Hold].
    by apply (Hinv key l).
  - exists a. split; [apply Hsub; by left|]. by rewrite E.
Qed.

(** X2.  What [validate] rejects with is a [ValidationError] of the model
    with a report that is not empty; every key of the report is a
    registered attribute, with a list of entries that is not empty and
    holds only entries that an attribute of that name collected. *)
Theorem validate_report_sound this instance opts e :
  (validate md this instance opts).2 = Throw e →
  ∃ report,
    e = ValidationError this "Validation error" report ∧
    report ≠ ∅ ∧
    ∀ key l, report !! key = Some l →
      key ∈ (getAttributes md this).*1 ∧ l ≠ [] ∧
      ∀ entry, entry ∈ l →
        ∃ attr, (key, attr) ∈ getAttributes md this ∧
          entry ∈ attrErrors md (default true (ValidationOptions.required opts))
                             this instance key attr.
Proof.
  rewrite validate_runLoop. cbv zeta. cbn [snd].
  set (step := attrStep md _ this instance).
  set (report := (runLoop step (getAttributes md this) ([], ∅)).2).
  unfold finish. destruct (0 <? size report)%nat eqn:Hsize; [|done].
  intros [= <-]. exists report. split; [done|]. split.
  { apply map_size_non_empty_iff. apply Nat.ltb_lt in Hsize. lia. }
  intros key l Hl.
  destruct (runLoop_sound step (getAttributes md this) (getAttributes md this)
              ([], ∅) (λ _ H, H)) with (key := key) (l := l)
    as [Hne Hentries];
    [intros k l' Hk; simpl in Hk; by rewrite lookup_empty in Hk|done|].
  split; [|done].
  destruct l as [|entry l]; [done|].
  destruct (Hentries entry) as (attr & Hin & _); [by left|].
  apply list_elem_of_fmap. by exists (key, attr).
Qed.

Lemma runLoop_exact step (attrs : list (string * Attribute)) st key attr :
  NoDup attrs.*1 →
  (key, attr) ∈ attrs →
  st.2 !! key = None →
  (runLoop step attrs st).2 !! key =
    match default [] (step key attr).2 with
    | [] => None
    | l => Some l
    end.
Proof.
  intros Hnd Hin Hst.
  apply list_elem_of_split in Hin as (l1 & l2 & ->).
  rewrite fmap_app, fmap_cons in Hnd. cbn [fst] in Hnd.
  apply NoDup_app in Hnd as (_ & Hl1 & Hnd).
  apply NoDup_cons in Hnd as [Hl2 _].
  rewrite runLoop_app, runLoop_cons, runLoop_untouched by done. cbn [snd].
  assert ((runLoop step l1 st).2 !! key = None) as Hbefore.
  { rewrite runLoop_untouched; [done|]. intros Hk. apply (Hl1 key Hk). by left. }
  destruct (default [] (step key attr).2) as [|e es] eqn:E.
  - by rewrite record_nil.
  - rewrite record_lookup by done. by rewrite decide_True, Hbefore.
Qed.

(** X3.  With one descriptor per attribute name, the report of a rejected
    [validate] has, for every registered attribute that is not passed
    over, exactly the entries the attribute collected, in the order in
    which they are collected: the required entry, what the type validator
    threw, what the decorated validations threw in their order; and it has
    no key for an attribute that collected nothing or was passed over. *)
Theorem validate_report_exact this instance opts ctor message report key attr :
  NoDup (getAttributes md this).*1 →
  (validate md this instance opts).2
    = Throw (ValidationError ctor message report) →
  (key, attr) ∈ getAttributes md this →
  report !! key =
    if Lodash.isNil (prop instance key) &&
       (optional attr || negb (default true (ValidationOptions.required opts)))
    then None
    else match collected md this key attr (prop instance key) with
         | [] => None
         | l => Some l
         end.
Proof.
  intros Hnd. rewrite validate_runLoop. cbv zeta. cbn [snd].
  set (step := attrStep md _ this instance).
  unfold finish. destruct (_ <? _)%nat; [|done].
  intros [= _ _ <-] Hin.
  rewrite (runLoop_exact step _ _ key attr) by done.
  unfold step.
  destruct (Lodash.isNil (prop instance key) && _) eqn:Hskip.
  - apply andb_true_iff in Hskip as [Hnil Hskip].
    by rewrite attrStep_skips.
  - by rewrite attrStep_collected.
Qed.

(** X4.  The [required] option matters only for attributes that hold no
    value and are not optional: when every attribute without a value is
    optional, [validate] does the same, trace and outcome, whatever the
    option. *)
Theorem validate_required_irrelevant this instance opts opts' :
  (∀ key attr, (key, attr) ∈ getAttributes md this →
     Lodash.isNil (prop instance key) = true → optional attr = true) →
  validate md this instance opts = validate md this instance opts'.
Proof.
  intros Hopt. rewrite !validate_runLoop. cbv zeta.
  rewrite (runLoop_ext _ (attrStep md (default true (ValidationOptions.required opts'))
                                   this instance)); [done|].
  intros key attr Hin. unfold attrStep, validateAttribute.
  destruct (Lodash.isNil (prop instance key)) eqn:Hnil; [|done].
  by rewrite (Hopt key attr Hin Hnil).
Qed.

Lemma baseStep_eventKey this instance key attr ev :
  ev ∈ (baseStep md this instance key attr).1 → eventKey ev = key.
Proof.
  unfold baseStep, BaseModel.validateAttribute.
  destruct (_ && _); [intros H; by apply elem_of_nil in H|].
  pose proof (runValidations_eventKey key (prop instance key)
                (getAttributeValidations md this key)) as Hr.
  destruct (type_validate (attr_type attr)) as [f|];
    destruct (runValidations key _ _) as [ev2 er2]; simpl in *; intros Hin.
  - apply elem_of_cons in Hin as [->|Hin]; [done|by apply Hr].
  - by apply Hr.
Qed.

(** X5.  An optional attribute that holds no value is passed over by both
    variants of [validate], whatever the options: none of its validators
    is called and the report has nothing under its name. *)
Theorem validate_skips_optional this instance opts key :
  Lodash.isNil (prop instance key) = true →
  (∀ attr, (key, attr) ∈ getAttributes md this → optional attr = true) →
  (∀ ev, ev ∈ (validate md this instance opts).1 → eventKey ev ≠ key) ∧
  (∀ ctor message report,
     (validate md this instance opts).2
       = Throw (ValidationError ctor message report) →
     report !! key = None) ∧
  (∀ ev, ev ∈ (BaseModel.validate md this instance).1 → eventKey ev ≠ key) ∧
  (∀ ctor message report,
     (BaseModel.validate md this instance).2
       = Throw (ValidationError ctor message report) →
     report !! key = None).
Proof.
  intros Hnil Hopt.
  assert (∀ attr, (key, attr) ∈ getAttributes md this →
            attrStep md (default true (ValidationOptions.required opts))
                     this instance key attr = ([], None)) as Hcur.
  { intros attr Hin. apply attrStep_skips; [done|]. by rewrite (Hopt attr Hin). }
  assert (∀ attr, (key, attr) ∈ getAttributes md this →
            baseStep md this instance key attr = ([], None)) as Hbase.
  { intros attr Hin. unfold baseStep, BaseModel.validateAttribute.
    by rewrite Hnil, (Hopt attr Hin). }
  rewrite validate_runLoop, base_validate_runLoop. cbv zeta. cbn [fst snd].
  repeat split.
  - intros ev Hev Hkey.
    apply runLoop_events_inv in Hev as (k & a & Hin & Hev).
    pose proof (attrStep_eventKey md _ this instance k a ev Hev) as Hk.
    rewrite Hkey in Hk. subst k. rewrite Hcur in Hev by done.
    by apply elem_of_nil in Hev.
  - intros ctor message report. unfold finish.
    destruct (_ <? _)%nat; [|done]. intros [= _ _ <-].
    rewrite runLoop_skips; [done|]. intros a Hin. by rewrite Hcur.
  - intros ev Hev Hkey.
    apply runLoop_events_inv in Hev as (k & a & Hin & Hev).
    pose proof (baseStep_eventKey this instance k a ev Hev) as Hk.
    rewrite Hkey in Hk. subst k. rewrite Hbase in Hev by done.
    by apply elem_of_nil in Hev.
  - intros ctor message report. unfold finish.
    destruct (_ <? _)%nat; [|done]. intros [= _ _ <-].
    rewrite runLoop_skips; [done|]. intros a Hin. by rewrite Hbase.
Qed.


(** X7.  The two variants of [validate] agree, [validate] of src/model.ts
    taken with its default options: they make the same validator calls and
    have the same outcome, unless a non-optional attribute with a type
    validator holds no value and has a truthy default, which only
    src/model.ts puts in the place of the value. *)
Theorem validate_agrees_with_first_variant this instance :
  (∀ key attr f, (key, attr) ∈ getAttributes md this →
     Lodash.isNil (prop instance key) = true →
     optional attr = false →
     type_validate (attr_type attr) = Some f →
     defaultValue_truthy (defaultValue attr) = false) →
  validate md this instance ValidationOptions.none =
    BaseModel.validate md this instance.
Proof.
  intros Hdefault. rewrite validate_runLoop, base_validate_runLoop. cbv zeta.
  cbn [default ValidationOptions.required ValidationOptions.none].
  rewrite (runLoop_ext _ (baseStep md this instance)); [done|].
  intros key attr Hin.
  unfold attrStep, baseStep, validateAttribute, BaseModel.validateAttribute.
  rewrite orb_false_r.
  destruct (Lodash.isNil (prop instance key) && optional attr) eqn:Hskip; [done|].
  destruct (type_validate (attr_type attr)) as [f|] eqn:Hf; [|done].
  unfold substituteDefault.
  destruct (Lodash.isNil (prop instance key)) eqn:Hnil; [|done].
  simpl in Hskip. by rewrite (Hdefault key attr f Hin Hnil Hskip Hf).
Qed.

(** X8.  What a validator throws at a value that is there is reported
    under the name of the attribute: a [PropertyValidationError] with its
    own type and message, any other error as type [unknown] with its
    message; this holds for the type validator and for every decorated
    validation. *)
Theorem validate_coerces_thrown this instance opts key attr thrown :
  (key, attr) ∈ getAttributes md this →
  Lodash.isNil (prop instance key) = false →
  ((∃ f, type_validate (attr_type attr) = Some f ∧
         f key (prop instance key) = Some thrown) ∨
   (∃ r, r ∈ getAttributeValidations md this key ∧
         cb r key (prop instance key) (options r) = Some thrown)) →
  ∃ report l,
    (validate md this instance opts).2
      = Throw (ValidationError this "Validation error" report) ∧
    report !! key = Some l ∧
    match thrown with
    | ThrowProperty type message =>
        {| err_type := type; err_message := message |} ∈ l
    | ThrowOther message =>
        {| err_type := "unknown"; err_message := message |} ∈ l
    end.
Proof.
  intros Hin Hnil Hthrown. rewrite validate_runLoop. cbv zeta. cbn [snd].
  set (step := attrStep md _ this instance).
  assert (coerceError thrown ∈ collected md this key attr (prop instance key))
    as Hcollected.
  { assert (validatedValue key attr (prop instance key) = prop instance key)
      as Hw.
    { unfold validatedValue, substituteDefault. rewrite Hnil.
      by destruct (type_validate (attr_type attr)). }
    unfold collected. rewrite Hw, Hnil. cbn [app].
    destruct Hthrown as [(f & Hf & Hthrow)|(r & Hr & Hthrow)].
    - rewrite Hf, Hthrow. apply elem_of_app. left. simpl. by left.
    - apply elem_of_app. right. apply list_elem_of_join.
      exists (caught (cb r key (prop instance key) (options r))).
      split; [rewrite Hthrow; simpl; by left|].
      apply list_elem_of_fmap. by exists r. }
  destruct (runLoop_reports step (getAttributes md this) ([], ∅) key attr
              (collected md this key attr (prop instance key)) Hin)
    as (l & Hl & Hsub).
  { apply attrStep_collected. by rewrite Hnil. }
  { intros Hempty. rewrite Hempty in Hcollected.
    by apply elem_of_nil in Hcollected. }
  exists (runLoop step (getAttributes md this) ([], ∅)).2, l.
  split; [by eapply finish_throws|]. split; [done|].
  apply Hsub in Hcollected. by destruct thrown.
Qed.

End ValidateMore.

(** ** The constructor *)

Section ConstructorMore.
Context {ModelCtor : Type} (md : Metadata ModelCtor).

Lemma merge_lookup (object : gmap string value) source key :
  Lodash.merge object source !! key =
    match Lodash.toPlainObject source !! key with
    | Some s => Some (Lodash.mergeValue (object !! key) s)
    | None => object !! key
    end.
Proof.
  unfold Lodash.merge. rewrite lookup_union, map_lookup_imap.
  destruct (Lodash.toPlainObject source !! key) as [s|]; simpl.
  - by destruct (object !! key).
  - by destruct (object !! key).
Qed.

(** The defaults the constructor sets before it merges the data. *)
Lemma defaults_lookup (attrs : list (string * Attribute)) key :
  NoDup attrs.*1 →
  foldl (λ instance '(k, attr),
           if defaultValue_defined (defaultValue attr)
           then <[k := resolve (defaultValue attr)]> instance
           else instance) (∅ : gmap string value) attrs !! key =
  match list_find (λ x, x.1 = key) attrs with
  | Some (_, (_, attr)) =>
      if defaultValue_defined (defaultValue attr)
      then Some (resolve (defaultValue attr)) else None
  | None => None
  end.
Proof.
  intros Hnd.
  assert (∀ acc : gmap string value,
    (∀ k, k ∈ attrs.*1 → acc !! k = None) →
    foldl (λ instance '(k, attr),
             if defaultValue_defined (defaultValue attr)
             then <[k := resolve (defaultValue attr)]> instance
             else instance) acc attrs !! key =
    match list_find (λ x, x.1 = key) attrs with
    | Some (_, (_, attr)) =>
        if defaultValue_defined (defaultValue attr)
        then Some (resolve (defaultValue attr)) else None
    | None => acc !! key
    end) as Hgen.
  { induction attrs as [|[k a] attrs IH]; intros acc Hacc; [done|].
    simpl in Hnd. apply NoDup_cons in Hnd as [Hk Hnd].
    cbn [foldl list_find]. simpl.
    case_decide as Hkey.
    - subst k. simpl.
      assert (∀ acc' : gmap string value,
        foldl (λ instance '(k, attr),
                 if defaultValue_defined (defaultValue attr)
                 then <[k := resolve (defaultValue attr)]> instance
                 else instance) acc' attrs !! key = acc' !! key) as Hrest.
      { clear -Hk. induction attrs as [|[k' a'] attrs IH]; intros acc'; [done|].
        simpl in Hk. apply not_elem_of_cons in Hk as [Hne Hk].
        cbn [foldl]. rewrite IH by done.
        destruct (defaultValue_defined _); [|done].
        by rewrite lookup_insert_ne. }
      rewrite Hrest.
      destruct (defaultValue_defined _); [by rewrite lookup_insert_eq|].
      apply Hacc. by left.
    - rewrite IH; [|done|].
      + destruct (list_find _ attrs) as [[i [k' a']]|]; simpl; [done|].
        destruct (defaultValue_defined _); [|done].
        by rewrite lookup_insert_ne.
      + intros k' Hk'. destruct (defaultValue_defined _).
        * rewrite lookup_insert_ne; [apply Hacc; by right|]. by intros ->.
        * apply Hacc. by right. }
  rewrite Hgen by done. by destruct (list_find _ attrs) as [[i [k' a']]|].
Qed.

Lemma list_find_registry (attrs : list (string * Attribute)) key attr :
  NoDup attrs.*1 → (key, attr) ∈ attrs →
  ∃ i, list_find (λ x, x.1 = key) attrs = Some (i, (key, attr)).
Proof.
  intros Hnd Hin.
  destruct (list_find (λ x, x.1 = key) attrs) as [[i [k a]]|] eqn:E.
  - apply list_find_Some in E as (Hi & Hk & _). simpl in Hk. subst k.
    exists i. do 3 f_equal.
    apply (registry_functional attrs key); [done| |done].
    by eapply list_elem_of_lookup_2.
  - exfalso. apply list_find_None in E.
    rewrite Forall_forall in E. by apply (E (key, attr)).
Qed.

(** X9.  The constructor with its defaults on, one descriptor per
    attribute name: an attribute that the data does not have, or has as
    [undefined], gets its default (the resolver called when the default is
    lazy) or stays unset when it has none; a number, string, boolean, date
    or [null] in the data wins over the default; an object in the data is
    merged into an object default, which keeps the properties the data does
    not name; and a field of the data that is no attribute is kept. *)
Theorem constructor_defaults_and_data this data opts key attr :
  NoDup (getAttributes md this).*1 →
  (key, attr) ∈ getAttributes md this →
  default true (ModelConstructorOptions.defaults opts) = true →
  let instance := constructor md this data opts in
  let given := Lodash.toPlainObject data in
  let preset :=
    if defaultValue_defined (defaultValue attr)
    then Some (resolve (defaultValue attr)) else None in
  (given !! key = None ∨ given !! key = Some VUndef →
   prop instance key = default VUndef preset) ∧
  (∀ v, given !! key = Some v → assigned v = true → instance !! key = Some v) ∧
  (∀ src dst, given !! key = Some (VObj src) → preset = Some (VObj dst) →
     ∃ merged, instance !! key = Some (VObj merged) ∧
       ∀ k, src !! k = None → merged !! k = dst !! k) ∧
  (∀ k v, k ∉ (getAttributes md this).*1 → given !! k = Some v →
          instance !! k = Some v).
Proof.
  intros Hnd Hin Hdefaults instance given preset.
  unfold instance, constructor. rewrite Hdefaults.
  set (presets := foldl _ ∅ (getAttributes md this)).
  assert (presets !! key = preset) as Hpreset.
  { unfold presets. rewrite defaults_lookup by done.
    by destruct (list_find_registry _ key attr Hnd Hin) as (i & ->). }
  split; [|split; [|split]].
  - intros Hgiven. unfold prop. rewrite merge_lookup. fold given.
    destruct Hgiven as [->| ->]; [by rewrite Hpreset|].
    simpl. rewrite Hpreset. by destruct preset.
  - intros v Hv Hassigned. rewrite merge_lookup. fold given. rewrite Hv.
    f_equal. by destruct v.
  - intros src dst Hsrc Hdst. rewrite merge_lookup. fold given.
    rewrite Hsrc, Hpreset, Hdst. cbn [Lodash.mergeValue]. eexists.
    split; [done|]. intros k Hk.
    rewrite lookup_union, map_lookup_imap, Hk. simpl.
    by destruct (dst !! k).
  - intros k v Hk Hv. rewrite merge_lookup. fold given. rewrite Hv.
    f_equal.
    assert (presets !! k = None) as ->.
    { unfold presets. rewrite defaults_lookup by done.
      destruct (list_find _ _) as [[i [k' a']]|] eqn:E; [|done].
      exfalso. apply list_find_Some in E as (Hi & Hk' & _). simpl in Hk'.
      subst k'. apply Hk. apply list_elem_of_fmap. exists (k, a').
      split; [done|]. by eapply list_elem_of_lookup_2. }
    apply mergeValue_fresh.
Qed.

End ConstructorMore.

(** ** More on deserialize *)

Section DeserializeMore.
Context {ModelCtor : Type} (md : Metadata ModelCtor).
Context (DATE : AttributeType) (parseDate : string → option Z).

Implicit Types (rec : ModelCtor → value → DeserializeOptions.t
                      → outcome ModelCtor (gmap string value)).

#[local] Arguments deserializeFuel : simpl never.

(** A round of the loop leaves the instance alone or writes under the key
    of its association, and this only when the depth allows. *)
Lemma deserializeAssociation_shape rec data ao instance key assoc instance' :
  deserializeAssociation rec data ao instance (key, assoc) = Return instance' →
  instance' = instance ∨
  (depthAllows (DeserializeOptions.depth ao) = true ∧
   ∃ v, instance' = <[key := v]> instance).
Proof.
  unfold deserializeAssociation.
  destruct (Lodash.isNil _); [intros [= <-]; by left|].
  destruct (resolve (target assoc)) as [t|]; [|done].
  destruct (depthAllows _); [|intros [= <-]; by left].
  destruct (toMany assoc).
  - destruct (prop _ key) as [| | | | | |items|];
      try (intros [= <-]; right; split; [done|]; by eexists).
    intros Hrun. apply bind_Return in Hrun as (rs & _ & [= <-]).
    right. split; [done|]. by eexists.
  - intros Hrun. apply bind_Return in Hrun as (r & _ & [= <-]).
    right. split; [done|]. by eexists.
Qed.

(** The loop over the associations leaves every other key alone. *)
Lemma deserializeLoop_other rec data ao l instance instance' key :
  forOf (deserializeAssociation rec data ao) l instance = Return instance' →
  key ∉ l.*1 →
  instance' !! key = instance !! key.
Proof.
  intros Hrun Hkey.
  apply (forOf_invariant (λ i, i !! key = instance !! key)
           (deserializeAssociation rec data ao) l instance instance');
    [done| |done].
  intros s [k a] s' Hin IH Hstep. rewrite <- IH.
  apply deserializeAssociation_shape in Hstep as [->|(_ & v & ->)]; [done|].
  rewrite lookup_insert_ne; [done|]. intros ->. apply Hkey.
  apply list_elem_of_fmap. by exists (key, a).
Qed.

Lemma convertDates_cons k a attrs (instance : gmap string value) :
  convertDates DATE parseDate ((k, a) :: attrs) instance =
    convertDates DATE parseDate attrs
      match prop instance k with
      | VStr s =>
          if String.eqb (type_tag (attr_type a)) (type_tag DATE)
          then <[k := VDate (parseDate s)]> instance
          else instance
      | _ => instance
      end.
Proof. done. Qed.

(** What the conversion of the dates leaves under a key. *)
Lemma convertDates_lookup attrs (instance : gmap string value) key :
  convertDates DATE parseDate attrs instance !! key =
    match instance !! key with
    | Some (VStr s) =>
        if isDateAttribute DATE attrs key
        then Some (VDate (parseDate s)) else Some (VStr s)
    | o => o
    end.
Proof.
  revert instance. induction attrs as [|[k a] attrs IH]; intros instance.
  { simpl. by destruct (instance !! key) as [[]|]. }
  rewrite convertDates_cons, IH. cbn [isDateAttribute existsb].
  destruct (String.eqb_spec k key) as [->|Hne].
  - unfold prop.
    destruct (instance !! key) as [v|] eqn:Ev; simpl;
      [|by rewrite Ev].
    destruct v; rewrite ?Ev; try done.
    destruct (String.eqb _ _); simpl.
    + by rewrite lookup_insert_eq.
    + by rewrite Ev.
  - simpl.
    assert (match prop instance k with
            | VStr s =>
                if String.eqb (type_tag (attr_type a)) (type_tag DATE)
                then <[k := VDate (parseDate s)]> instance
                else instance
            | _ => instance
            end !! key = instance !! key) as ->; [|done].
    destruct (prop instance k); try done.
    destruct (String.eqb _ _); [|done]. by rewrite lookup_insert_ne.
Qed.

Lemma pickedAttributes_lookup this data key :
  pickedAttributes md DATE parseDate this data !! key =
    if decide (key ∈ (getAttributes md this).*1)
    then match Lodash.toPlainObject data !! key with
         | Some (VStr s) =>
             if isDateAttribute DATE (getAttributes md this) key
             then Some (VDate (parseDate s)) else Some (VStr s)
         | o => o
         end
    else None.
Proof.
  unfold pickedAttributes. rewrite convertDates_lookup, pick_lookup.
  by destruct (decide _).
Qed.

(** A call that returns has gone through the loop over the associations,
    starting from the picked attributes, and through [validate]. *)
Lemma deserializeBody_Return rec this data opts instance :
  deserializeBody md DATE parseDate rec this data opts = Return instance ↔
  (if default true (DeserializeOptions.associations opts)
   then forOf (deserializeAssociation rec (Lodash.toPlainObject data)
                 (DeserializeOptions.mk
                    (Some (default true (DeserializeOptions.associations opts)))
                    (Some (default 1 (DeserializeOptions.depth opts) - 1))
                    (Some (default true (DeserializeOptions.validate opts)))))
              (getAssociations md this)
              (pickedAttributes md DATE parseDate this data)
   else Return (pickedAttributes md DATE parseDate this data))
    = Return instance ∧
  (default true (DeserializeOptions.validate opts) = true →
   (validate md this instance ValidationOptions.none).2 = Return ()).
Proof.
  unfold deserializeBody. rewrite normalize_data, constructor_no_defaults.
  fold (pickedAttributes md DATE parseDate this data).
  set (loop := if default true (DeserializeOptions.associations opts)
               then _ else _).
  destruct loop as [i| |]; cbn [bind].
  - destruct (default true (DeserializeOptions.validate opts)).
    + destruct (validate md this i ValidationOptions.none).2 as [[]| |] eqn:E;
        cbn [bind].
      * split; [intros [= <-]; by rewrite E|by intros [[= <-] _]].
      * split; [done|]. intros [[= <-] Hv]. specialize (Hv eq_refl).
        by rewrite E in Hv.
      * split; [done|]. intros [[= <-] Hv]. specialize (Hv eq_refl).
        by rewrite E in Hv.
    + cbn [bind]. split; [by intros [= <-]|by intros [[= <-] _]].
  - split; [done|by intros [? _]].
  - split; [done|by intros [? _]].
Qed.


(** X11.  On the instance [deserialize] returns, an attribute that is no
    association holds what the data holds under its name, but for a string
    under a date attribute, which has become the [Date] parsed from it; a
    string under any other attribute stays a string. *)
Theorem deserialize_converts_dates this data opts instance key :
  deserialize md DATE parseDate this data opts = Return instance →
  key ∈ (getAttributes md this).*1 →
  key ∉ (getAssociations md this).*1 →
  instance !! key =
    match Lodash.toPlainObject data !! key with
    | Some (VStr s) =>
        if isDateAttribute DATE (getAttributes md this) key
        then Some (VDate (parseDate s)) else Some (VStr s)
    | o => o
    end.
Proof.
  unfold deserialize. rewrite deserializeFuel_unfold.
  intros Hrun Hattr Hassoc. apply deserializeBody_Return in Hrun as [Hloop _].
  assert (instance !! key = pickedAttributes md DATE parseDate this data !! key)
    as ->.
  { destruct (default true _).
    - by eapply deserializeLoop_other.
    - by injection Hloop as <-. }
  rewrite pickedAttributes_lookup. by rewrite decide_True.
Qed.

Lemma forOf_mono {S X} (body body' : S → X → outcome ModelCtor S) l s s' :
  (∀ s x s', x ∈ l → body s x = Return s' → body' s x = Return s') →
  forOf body l s = Return s' → forOf body' l s = Return s'.
Proof.
  revert s. induction l as [|x l IH]; intros s Hbody Hrun; [done|].
  cbn [forOf] in *. apply bind_Return in Hrun as (s1 & Hx & Hrun).
  rewrite (Hbody s x s1) by (done || by left). cbn [bind].
  apply IH; [|done]. intros; eapply Hbody; [by right|done].
Qed.

Lemma promiseAll_mono {X Y} (f f' : X → outcome ModelCtor Y) items rs :
  (∀ x r, x ∈ items → f x = Return r → f' x = Return r) →
  promiseAll f items = Return rs → promiseAll f' items = Return rs.
Proof.
  revert rs. induction items as [|x items IH]; intros rs Hf Hrun; [done|].
  cbn [promiseAll] in *. apply bind_Return in Hrun as (y & Hx & Hrun).
  apply bind_Return in Hrun as (ys & Hxs & [= <-]).
  rewrite (Hf x y) by (done || by left). cbn [bind].
  rewrite (IH ys); [done| |done]. intros; eapply Hf; [by right|done].
Qed.

(** What [Promise.all] resolves with: the result of every call, in the
    order of the items. *)
Lemma promiseAll_Forall2 {X Y} (f : X → outcome ModelCtor Y) items rs :
  promiseAll f items = Return rs ↔ Forall2 (λ x r, f x = Return r) items rs.
Proof.
  revert rs. induction items as [|x items IH]; intros rs.
  - split; [intros [= <-]; constructor|by intros ->%Forall2_nil_inv_l].
  - cbn [promiseAll]. split.
    + intros Hrun. apply bind_Return in Hrun as (y & Hx & Hrun).
      apply bind_Return in Hrun as (ys & Hxs & [= <-]).
      constructor; [done|]. by apply IH.
    + intros Hall. apply Forall2_cons_inv_l in Hall as (y & ys & Hx & Hxs & ->).
      rewrite Hx. cbn [bind]. apply IH in Hxs. by rewrite Hxs.
Qed.

Lemma deserializeFuel_without_validation fuel this data opts instance :
  deserializeFuel md DATE parseDate fuel this data opts = Return instance →
  deserializeFuel md DATE parseDate fuel this data (withoutValidation opts)
    = Return instance.
Proof.
  revert this data opts instance.
  induction fuel as [|fuel IH]; intros this data opts instance;
    rewrite !deserializeFuel_unfold, !deserializeBody_Return;
    cbn [withoutValidation DeserializeOptions.associations
         DeserializeOptions.depth DeserializeOptions.validate default id];
    intros [Hloop _]; (split; [|done]);
    (destruct (default true (DeserializeOptions.associations opts)); [|done]);
    revert Hloop; apply forOf_mono; intros s [key assoc] s' _;
    unfold deserializeAssociation;
    cbn [DeserializeOptions.depth];
    (destruct (Lodash.isNil _); [done|]);
    (destruct (resolve (target assoc)) as [t|]; [|done]);
    (destruct (depthAllows _); [|done]);
    destruct (toMany assoc); try done.
  - destruct (prop _ key) as [| | | | | |items|]; try done.
    intros Hrun. apply bind_Return in Hrun as (rs & Hall & [= <-]).
    erewrite promiseAll_mono; [done| |exact Hall].
    intros x r _ Hx. by apply IH in Hx.
  - intros Hrun. apply bind_Return in Hrun as (r & Hr & [= <-]).
    apply IH in Hr. unfold withoutValidation in Hr.
    cbn [DeserializeOptions.associations DeserializeOptions.depth] in Hr.
    by rewrite Hr.
Qed.

(** X12.  With [validate] on, which is the default, [deserialize] returns
    only instances that pass [validate]; and validation only ever rejects:
    the same call with [validate: false] returns the same instance. *)
Theorem deserialize_validation_only_rejects this data opts instance :
  deserialize md DATE parseDate this data opts = Return instance →
  (default true (DeserializeOptions.validate opts) = true →
   (validate md this instance ValidationOptions.none).2 = Return ()) ∧
  deserialize md DATE parseDate this data (withoutValidation opts)
    = Return instance.
Proof.
  unfold deserialize. intros Hrun. split.
  - rewrite deserializeFuel_unfold in Hrun.
    by apply deserializeBody_Return in Hrun as [_ Hvalid].
  - by apply deserializeFuel_without_validation.
Qed.

Lemma deserializeFuel_error fuel this data opts e :
  deserializeFuel md DATE parseDate fuel this data opts = Throw e →
  e ≠ TypeError ∧
  (default true (DeserializeOptions.validate opts) = false →
   ∃ message, e = DefinitionError message).
Proof.
  revert this data opts e.
  induction fuel as [|fuel IH]; intros this data opts e;
    rewrite deserializeFuel_unfold; unfold deserializeBody;
    rewrite normalize_data, constructor_no_defaults;
    set (ao := DeserializeOptions.mk _ _ _);
    set (loop := if default true (DeserializeOptions.associations opts)
                 then _ else _).
  all: destruct loop as [i|e'|] eqn:Hloop; cbn [bind]; [| |done].
  1, 3: destruct (default true (DeserializeOptions.validate opts)); [|done];
    rewrite validate_runLoop; cbv zeta; cbn [snd]; unfold finish;
    (destruct (_ <? _)%nat; [|done]); intros [= <-]; by split.
  all: intros [= <-]; unfold loop in Hloop;
    (destruct (default true (DeserializeOptions.associations opts)); [|done]);
    apply forOf_Throw in Hloop as (s & [key assoc] & _ & Hstep);
    revert Hstep; unfold deserializeAssociation;
    (destruct (Lodash.isNil _); [done|]);
    (destruct (resolve (target assoc)) as [t|];
       [|intros [= <-]; split; [done|]; intros _; by eexists]);
    (destruct (depthAllows _); [|done]);
    destruct (toMany assoc).
  - destruct (prop _ key) as [| | | | | |items|]; try done.
    intros Hrun. destruct (promiseAll _ items) eqn:E; try done.
    by apply promiseAll_Throw in E as (x & _ & ?).
  - done.
  - destruct (prop _ key) as [| | | | | |items|]; try done.
    intros Hrun. destruct (promiseAll _ items) eqn:E; try done.
    cbn [bind] in Hrun. injection Hrun as <-.
    apply promiseAll_Throw in E as (x & _ & Hx). by apply IH in Hx.
  - intros Hrun. destruct (deserializeFuel md DATE parseDate fuel t _ _) eqn:E;
      try done.
    cbn [bind] in Hrun. injection Hrun as <-. by apply IH in E.
Qed.

(** X13.  [deserialize] never rejects with a [TypeError], whatever the
    data: it normalizes the data before it reads it.  With
    [validate: false] it rejects with nothing but the definition error of
    an association without a target. *)
Theorem deserialize_rejections this data opts e :
  deserialize md DATE parseDate this data opts = Throw e →
  e ≠ TypeError ∧
  (default true (DeserializeOptions.validate opts) = false →
   ∃ message, e = DefinitionError message).
Proof. apply deserializeFuel_error. Qed.

End DeserializeMore.

(** ** How the calls nest *)

Section Nesting.
Context {ModelCtor : Type} (md : Metadata ModelCtor).
Context (DATE : AttributeType) (parseDate : string → option Z).

#[local] Arguments deserializeFuel : simpl never.
#[local] Arguments serializeFuel : simpl never.

(** A loop that comes to an end has gone through each of its rounds. *)
Lemma forOf_elem {S X} (body : S → X → outcome ModelCtor S) l s s' x :
  forOf body l s = Return s' → x ∈ l →
  ∃ l1 l2 s1 s2, l = l1 ++ x :: l2 ∧
    forOf body l1 s = Return s1 ∧ body s1 x = Return s2 ∧
    forOf body l2 s2 = Return s'.
Proof.
  intros Hrun Hin. apply list_elem_of_split in Hin as (l1 & l2 & ->).
  rewrite forOf_app in Hrun. apply bind_Return in Hrun as (s1 & Hl1 & Hrun).
  cbn [forOf] in Hrun. apply bind_Return in Hrun as (s2 & Hx & Hl2).
  by exists l1, l2, s1, s2.
Qed.

Lemma registry_after {A} (l1 l2 : list (string * A)) key a :
  NoDup (l1 ++ (key, a) :: l2).*1 → key ∉ l2.*1.
Proof.
  rewrite fmap_app, fmap_cons. intros Hnd.
  apply NoDup_app in Hnd as (_ & _ & Hnd).
  by apply NoDup_cons in Hnd as [? _].
Qed.

Lemma nested_fuel d : 1 ≤ d → Z.to_nat d = S (Z.to_nat (d - 1)).
Proof. lia. Qed.

(** X14.  How [deserialize] nests, with the associations on, a depth of
    at least 1 and one descriptor per association name: on the instance it
    returns, a to-one association that holds a value in the data holds the
    instance that [deserialize] of the target returns for that value, with
    the depth one less and the other options the same; a to-many
    association that holds an array holds the instances returned for the
    items, in the order of the items. *)
Theorem deserialize_nests this data opts instance key assoc t :
  deserialize md DATE parseDate this data opts = Return instance →
  default true (DeserializeOptions.associations opts) = true →
  1 ≤ default 1 (DeserializeOptions.depth opts) →
  NoDup (getAssociations md this).*1 →
  (key, assoc) ∈ getAssociations md this →
  Lodash.isNil (prop (Lodash.toPlainObject data) key) = false →
  resolve (target assoc) = Some t →
  let nested := nestedDeserializeOptions opts in
  if toMany assoc then
    match prop (Lodash.toPlainObject data) key with
    | VArr items =>
        ∃ rs,
          Forall2 (λ item r,
                     deserialize md DATE parseDate t item nested = Return r)
                  items rs ∧
          instance !! key = Some (VArr (VObj <$> rs))
    | _ => instance !! key = Some (VArr [])
    end
  else
    ∃ r, deserialize md DATE parseDate t
           (prop (Lodash.toPlainObject data) key) nested = Return r ∧
         instance !! key = Some (VObj r).
Proof.
  intros Hrun Hassoc Hdepth Hnd Hin Hnil Ht nested.
  assert (∀ x, deserialize md DATE parseDate t x nested =
               deserializeFuel md DATE parseDate
                 (Z.to_nat (default 1 (DeserializeOptions.depth opts) - 1))
                 t x
                 (DeserializeOptions.mk (Some true)
                    (Some (default 1 (DeserializeOptions.depth opts) - 1))
                    (Some (default true (DeserializeOptions.validate opts)))))
    as Hnested.
  { intros x. unfold deserialize, nested, nestedDeserializeOptions.
    by rewrite Hassoc. }
  unfold deserialize in Hrun.
  rewrite (nested_fuel _ Hdepth), deserializeFuel_unfold in Hrun.
  apply deserializeBody_Return in Hrun as [Hloop _].
  rewrite Hassoc in Hloop.
  destruct (forOf_elem _ _ _ _ _ Hloop Hin)
    as (l1 & l2 & s1 & s2 & Hsplit & _ & Hstep & Hrest).
  rewrite Hsplit in Hnd. apply registry_after in Hnd.
  rewrite (deserializeLoop_other _ _ _ _ _ _ key Hrest Hnd).
  revert Hstep. unfold deserializeAssociation. rewrite Hnil, Ht.
  cbn [DeserializeOptions.depth depthAllows].
  assert ((0 <=? default 1 (DeserializeOptions.depth opts) - 1) = true) as ->
    by (apply Z.leb_le; lia).
  destruct (toMany assoc).
  - destruct (prop _ key) as [| | | | | |items|];
      try (intros [= <-]; by rewrite lookup_insert_eq).
    intros Hstep. apply bind_Return in Hstep as (rs & Hall & [= <-]).
    exists rs. split; [|by rewrite lookup_insert_eq].
    apply promiseAll_Forall2 in Hall.
    eapply Forall2_impl; [exact Hall|]. intros x r Hx. by rewrite Hnested.
  - intros Hstep. apply bind_Return in Hstep as (r & Hr & [= <-]).
    exists r. split; [by rewrite Hnested|by rewrite lookup_insert_eq].
Qed.

(** The loop of [serialize] leaves every other key alone. *)
Lemma serializeLoop_other
  (rec : ModelCtor → value → SerializeOptions.t
         → outcome ModelCtor (gmap string value))
  instance ao l result result' key :
  forOf (serializeAssociation rec instance ao) l result = Return result' →
  key ∉ l.*1 →
  result' !! key = result !! key.
Proof.
  intros Hrun Hkey.
  apply (forOf_invariant (λ r, r !! key = result !! key)
           (serializeAssociation rec instance ao) l result result');
    [done| |done].
  intros s [k a] s' Hin IH Hstep. rewrite <- IH.
  apply serializeAssociation_shape in Hstep as [->|(_ & v & ->)]; [done|].
  rewrite lookup_insert_ne; [done|]. intros ->. apply Hkey.
  apply list_elem_of_fmap. by exists (key, a).
Qed.

(** X15.  How [serialize] nests, with the associations on, a depth of at
    least 1 and one descriptor per association name: in the object it
    returns, a to-one association that holds a value holds what [serialize]
    of the target returns for that value, with the depth one less; a
    to-many association that holds an array holds what is returned for the
    items, in the order of the items. *)
Theorem serialize_nests this instance opts result key assoc t :
  serialize md this instance opts = Return result →
  default true (SerializeOptions.associations opts) = true →
  1 ≤ default 1 (SerializeOptions.depth opts) →
  NoDup (getAssociations md this).*1 →
  (key, assoc) ∈ getAssociations md this →
  Lodash.isNil (prop (Lodash.toPlainObject instance) key) = false →
  resolve (target assoc) = Some t →
  let nested := nestedSerializeOptions opts in
  if toMany assoc then
    match prop (Lodash.toPlainObject instance) key with
    | VArr items =>
        ∃ rs,
          Forall2 (λ item r, serialize md t item nested = Return r) items rs ∧
          result !! key = Some (VArr (VObj <$> rs))
    | _ => result !! key = Some (VArr [])
    end
  else
    ∃ r, serialize md t (prop (Lodash.toPlainObject instance) key) nested
           = Return r ∧
         result !! key = Some (VObj r).
Proof.
  intros Hrun Hassoc Hdepth Hnd Hin Hnil Ht nested.
  assert (∀ x, serialize md t x nested =
               serializeFuel md
                 (Z.to_nat (default 1 (SerializeOptions.depth opts) - 1))
                 t x
                 (SerializeOptions.mk (Some true)
                    (Some (default 1 (SerializeOptions.depth opts) - 1))))
    as Hnested.
  { intros x. unfold serialize, nested, nestedSerializeOptions.
    by rewrite Hassoc. }
  unfold serialize in Hrun.
  rewrite (nested_fuel _ Hdepth), serializeFuel_unfold in Hrun.
  unfold serializeBody in Hrun. rewrite Hassoc in Hrun.
  destruct (forOf_elem _ _ _ _ _ Hrun Hin)
    as (l1 & l2 & s1 & s2 & Hsplit & _ & Hstep & Hrest).
  rewrite Hsplit in Hnd. apply registry_after in Hnd.
  rewrite (serializeLoop_other _ _ _ _ _ _ key Hrest Hnd).
  revert Hstep. unfold serializeAssociation, getProperty.
  destruct (Lodash.isNil instance); [done|]. cbn [bind].
  rewrite Hnil, Ht.
  cbn [SerializeOptions.depth depthAllows].
  assert ((0 <=? default 1 (SerializeOptions.depth opts) - 1) = true) as ->
    by (apply Z.leb_le; lia).
  destruct (toMany assoc).
  - destruct (prop _ key) as [| | | | | |items|];
      try (intros [= <-]; by rewrite lookup_insert_eq).
    intros Hstep. apply bind_Return in Hstep as (rs & Hall & [= <-]).
    exists rs. split; [|by rewrite lookup_insert_eq].
    apply promiseAll_Forall2 in Hall.
    eapply Forall2_impl; [exact Hall|]. intros x r Hx. by rewrite Hnested.
  - intros Hstep. apply bind_Return in Hstep as (r & Hr & [= <-]).
    exists r. split; [by rewrite Hnested|by rewrite lookup_insert_eq].
Qed.

(** X16.  [deserialize] fails fast: when the first association that
    holds a value is a to-one association whose nested [deserialize]
    rejects, the call rejects with that same error, and the instance itself
    is not validated. *)
Theorem deserialize_fails_fast this data opts key assoc t l1 l2 e :
  default true (DeserializeOptions.associations opts) = true →
  1 ≤ default 1 (DeserializeOptions.depth opts) →
  getAssociations md this = l1 ++ (key, assoc) :: l2 →
  (∀ k a, (k, a) ∈ l1 →
          Lodash.isNil (prop (Lodash.toPlainObject data) k) = true) →
  Lodash.isNil (prop (Lodash.toPlainObject data) key) = false →
  resolve (target assoc) = Some t →
  toMany assoc = false →
  deserialize md DATE parseDate t (prop (Lodash.toPlainObject data) key)
              (nestedDeserializeOptions opts) = Throw e →
  deserialize md DATE parseDate this data opts = Throw e.
Proof.
  intros Hassoc Hdepth Hsplit Hl1 Hnil Ht Hone Hnested.
  unfold deserialize in *.
  rewrite (nested_fuel _ Hdepth), deserializeFuel_unfold.
  unfold deserializeBody.
  rewrite normalize_data, constructor_no_defaults, Hassoc, Hsplit.
  unfold nestedDeserializeOptions in Hnested. rewrite Hassoc in Hnested.
  cbn [DeserializeOptions.depth default id] in Hnested.
  set (ao := DeserializeOptions.mk _ _ _) in *.
  generalize (convertDates DATE parseDate (getAttributes md this)
                (Lodash.pick (Lodash.toPlainObject data)
                             (getAttributes md this).*1)) as instance.
  intros instance.
  assert (forOf (deserializeAssociation
                   (deserializeFuel md DATE parseDate
                      (Z.to_nat (default 1 (DeserializeOptions.depth opts) - 1)))
                   (Lodash.toPlainObject data) ao)
                (l1 ++ (key, assoc) :: l2) instance = Throw e) as ->; [|done].
  clear Hsplit. induction l1 as [|[k a] l1 IH]; cbn [app forOf];
    unfold deserializeAssociation at 1.
  - rewrite Hnil, Ht, Hone.
    assert (depthAllows (DeserializeOptions.depth ao) = true) as ->.
    { unfold ao. simpl. apply Z.leb_le. lia. }
    by rewrite Hnested.
  - rewrite (Hl1 k a) by by left. cbn [bind].
    apply IH. intros; eapply Hl1; by right.
Qed.

(** X17.  With the associations off, or with a depth of 0 or less and
    every association that holds a value having a target, [deserialize]
    builds nothing but the picked attributes, dates converted: the
    association keys stay unset even when the data has them, and the call
    returns that instance if it passes [validate] or [validate] is off. *)
Theorem deserialize_shallow this data opts :
  default true (DeserializeOptions.associations opts) = false ∨
  (default 1 (DeserializeOptions.depth opts) ≤ 0 ∧
   ∀ key assoc, (key, assoc) ∈ getAssociations md this →
     Lodash.isNil (prop (Lodash.toPlainObject data) key) = false →
     is_Some (resolve (target assoc))) →
  deserialize md DATE parseDate this data opts =
    let picked := pickedAttributes md DATE parseDate this data in
    let* _ := if default true (DeserializeOptions.validate opts)
              then (validate md this picked ValidationOptions.none).2
              else Return () in
    Return picked.
Proof.
  intros Hshallow. unfold deserialize. rewrite deserializeFuel_unfold.
  unfold deserializeBody. rewrite normalize_data, constructor_no_defaults.
  fold (pickedAttributes md DATE parseDate this data). cbv zeta.
  destruct Hshallow as [->|[Hdepth Htargets]]; [done|].
  destruct (default true (DeserializeOptions.associations opts)); [|done].
  set (ao := DeserializeOptions.mk _ _ _).
  set (rec := match _ with O => _ | S _ => _ end).
  assert (∀ l instance,
    (∀ key assoc, (key, assoc) ∈ l →
       Lodash.isNil (prop (Lodash.toPlainObject data) key) = false →
       is_Some (resolve (target assoc))) →
    forOf (deserializeAssociation rec (Lodash.toPlainObject data) ao) l instance
      = Return instance) as Hloop.
  { induction l as [|[k a] l IH]; intros instance Hl; [done|].
    cbn [forOf]. unfold deserializeAssociation at 1.
    destruct (Lodash.isNil (prop _ k)) eqn:Hnil; cbn [bind].
    - apply IH. intros; eapply Hl; [by right|done].
    - destruct (Hl k a) as [t ->]; [by left|done|].
      assert (depthAllows (DeserializeOptions.depth ao) = false) as ->.
      { unfold ao. simpl. apply Z.leb_gt. lia. }
      cbn [bind]. apply IH. intros; eapply Hl; [by right|done]. }
  by rewrite Hloop.
Qed.

(** X18.  In the object [serialize] returns, an attribute that is no
    association holds what the instance holds under its name, as it is: a
    date stays a date, a nested object is not looked into. *)
Theorem serialize_passes_attributes this instance opts result key :
  serialize md this instance opts = Return result →
  key ∈ (getAttributes md this).*1 →
  key ∉ (getAssociations md this).*1 →
  result !! key = Lodash.toPlainObject instance !! key.
Proof.
  unfold serialize. rewrite serializeFuel_unfold. unfold serializeBody.
  intros Hrun Hattr Hassoc.
  assert (result !! key =
          Lodash.pick (Lodash.toPlainObject instance)
                      (getAttributes md this).*1 !! key) as ->.
  { destruct (default true _).
    - by eapply serializeLoop_other.
    - by injection Hrun as <-. }
  rewrite pick_lookup. by rewrite decide_True.
Qed.

(** X19.  [serialize] rejects with a definition error or a type error and
    nothing else; and handed [null] or [undefined] for the instance, it
    rejects with a type error as soon as the model has an association and
    the associations are on, and returns the empty object otherwise. *)
Theorem serialize_rejections this instance opts :
  (∀ e, serialize md this instance opts = Throw e →
        is_ValidationError e = false) ∧
  (Lodash.isNil instance = true →
   serialize md this instance opts =
     if default true (SerializeOptions.associations opts) &&
        negb (bool_decide (getAssociations md this = []))
     then Throw TypeError else Return ∅).
Proof.
  split; [intros e; apply serializeFuel_error|].
  intros Hnil. unfold serialize. rewrite serializeFuel_unfold.
  unfold serializeBody.
  assert (Lodash.pick (Lodash.toPlainObject instance)
                      (getAttributes md this).*1 = ∅) as ->.
  { apply map_eq. intros k. rewrite pick_lookup, lookup_empty.
    destruct instance; try done; by destruct (decide _). }
  destruct (default true _); [|done]. cbn [andb].
  destruct (getAssociations md this) as [|[k a] l]; [done|].
  rewrite bool_decide_false by done. cbn [negb forOf].
  unfold serializeAssociation, getProperty. by rewrite Hnil.
Qed.

End Nesting.

(** ** The first variant: deserialize and serialize *)

Section BaseEngineTheory.
Context {ModelCtor : Type} (md : Metadata ModelCtor).

(** X20.  In the first variant of the class [deserialize] keeps every
    field: what [serialize] returns for an instance, it gives back whole,
    the fields that are no attributes included, provided the instance
    passes [validate] or [validate] is off; and called without options it
    rejects with a type error. *)
Theorem base_roundtrip this (fields : gmap string value) opts :
  (default false (BaseEngine.validate opts) = true →
   (BaseModel.validate md this fields).2 = Return ()) →
  (∃ r, BaseEngine.serialize this (VObj fields) = Return r ∧
        BaseEngine.deserialize md this (VObj r) (Some opts) = Return fields) ∧
  BaseEngine.deserialize md this (VObj fields) None = Throw TypeError.
Proof.
  intros Hvalid. split; [|done].
  exists fields. split; [done|].
  unfold BaseEngine.deserialize, BaseEngine.constructWithoutDefaults.
  cbn [Lodash.isPlainObject]. rewrite merge_fresh.
  destruct (default false (BaseEngine.validate opts)); [|done].
  by rewrite Hvalid.
Qed.

End BaseEngineTheory.

(** ** serialize on what it returned *)

Section Idempotence.
Context {ModelCtor : Type} (md : Metadata ModelCtor).

Implicit Types (rec : ModelCtor → value → SerializeOptions.t
                      → outcome ModelCtor (gmap string value)).

#[local] Arguments serializeFuel : simpl never.

Lemma promiseAll_fixed rec t ao items rs :
  (∀ x r, rec t x ao = Return r → rec t (VObj r) ao = Return r) →
  promiseAll (λ item, rec t item ao) items = Return rs →
  promiseAll (λ item, rec t item ao) (VObj <$> rs) = Return rs.
Proof.
  intros Hrec Hrun. apply promiseAll_Forall2 in Hrun.
  apply promiseAll_Forall2.
  induction Hrun as [|x r items rs Hx Hrest IH]; [constructor|].
  cbn [fmap list_fmap]. constructor; [by eapply Hrec|done].
Qed.

(** A round of the second pass writes what the first pass left under the
    key, or nothing. *)
Lemma serializeAssociation_again rec this instance ao result0 result key assoc :
  (∀ t x r, rec t x ao = Return r → rec t (VObj r) ao = Return r) →
  NoDup (getAssociations md this).*1 →
  result0 = Lodash.pick (Lodash.toPlainObject instance) (getAttributes md this).*1 →
  forOf (serializeAssociation rec instance ao) (getAssociations md this) result0
    = Return result →
  (key, assoc) ∈ getAssociations md this →
  ∀ s,
    (serializeAssociation rec (VObj result) ao s (key, assoc) = Return s ∧
     (key ∉ (getAttributes md this).*1 → result !! key = None)) ∨
    (∃ w, result !! key = Some w ∧
          serializeAssociation rec (VObj result) ao s (key, assoc)
            = Return (<[key := w]> s)).
Proof.
  intros Hrec Hnd Hresult0 Hrun Hin s.
  destruct (forOf_elem _ _ _ _ _ Hrun Hin)
    as (l1 & l2 & s1 & s2 & Hsplit & Hl1 & Hstep & Hl2).
  rewrite Hsplit in Hnd.
  pose proof (registry_after _ _ _ _ Hnd) as Hafter.
  assert (key ∉ l1.*1) as Hbefore.
  { rewrite fmap_app, fmap_cons in Hnd. apply NoDup_app in Hnd as (_ & Hnd & _).
    intros Hk. apply (Hnd key Hk). by left. }
  pose proof (serializeLoop_other _ _ _ _ _ _ key Hl2 Hafter) as Hkey.
  pose proof (serializeLoop_other _ _ _ _ _ _ key Hl1 Hbefore) as Hkey1.
  rewrite Hresult0, pick_lookup in Hkey1.
  unfold serializeAssociation, getProperty in Hstep |- *.
  destruct (Lodash.isNil instance); [done|].
  cbn [Lodash.isNil bind Lodash.toPlainObject] in Hstep |- *.
  set (v := prop (Lodash.toPlainObject instance) key) in *.
  assert (s1 = s2 → result !! key = Some v ∨ result !! key = None) as Hsame.
  { intros ->. rewrite Hkey, Hkey1. destruct (decide _); [|by right].
    unfold v, prop.
    destruct (Lodash.toPlainObject instance !! key); [by left|by right]. }
  assert (s1 = s2 → key ∉ (getAttributes md this).*1 → result !! key = None)
    as Hunset.
  { intros -> Hattr. rewrite Hkey, Hkey1. by rewrite decide_False. }
  assert (s1 = s2 →
          Lodash.isNil (prop result key) = true ∨ prop result key = v) as Hprop.
  { intros Heq. unfold prop. destruct (Hsame Heq) as [-> | ->]; [by right|by left]. }
  destruct (Lodash.isNil v) eqn:Hnil.
  - injection Hstep as Heq. left. split; [|by apply Hunset].
    destruct (Hprop Heq) as [-> | ->]; [done|by rewrite Hnil].
  - destruct (resolve (target assoc)) as [t|] eqn:Ht; [|done].
    destruct (depthAllows (SerializeOptions.depth ao)) eqn:Hallows.
    + right. destruct (toMany assoc).
      * destruct v as [| | | | | |items|] eqn:Ev;
          try (injection Hstep as <-;
               exists (VArr []); rewrite Hkey, lookup_insert_eq;
               split; [done|]; unfold prop; rewrite Hkey, lookup_insert_eq;
               by cbn).
        apply bind_Return in Hstep as (rs & Hall & [= <-]).
        exists (VArr (VObj <$> rs)). rewrite Hkey, lookup_insert_eq.
        split; [done|]. unfold prop. rewrite Hkey, lookup_insert_eq. cbn.
        by rewrite (promiseAll_fixed rec t ao items rs (Hrec t) Hall).
      * apply bind_Return in Hstep as (r & Hr & [= <-]).
        exists (VObj r). rewrite Hkey, lookup_insert_eq.
        split; [done|]. unfold prop. rewrite Hkey, lookup_insert_eq. cbn.
        by rewrite (Hrec t v r Hr).
    + injection Hstep as Heq. left. split; [|by apply Hunset].
      destruct (Hprop Heq) as [-> | ->]; [done|]. by rewrite Hnil.
Qed.

(** The second pass of the loop ends with what the first pass returned. *)
Lemma serializeLoop_again rec this ao result
  (l : list (string * Association ModelCtor)) s :
  (∀ key assoc s, (key, assoc) ∈ l →
     (serializeAssociation rec (VObj result) ao s (key, assoc) = Return s ∧
      (key ∉ (getAttributes md this).*1 → result !! key = None)) ∨
     (∃ w, result !! key = Some w ∧
           serializeAssociation rec (VObj result) ao s (key, assoc)
             = Return (<[key := w]> s))) →
  (∀ k, s !! k = result !! k ∨
        (s !! k = None ∧ (k ∉ (getAttributes md this).*1) ∧ (k ∈ l.*1))) →
  forOf (serializeAssociation rec (VObj result) ao) l s = Return result.
Proof.
  revert s. induction l as [|[key assoc] l IH]; intros s Hround Hinv.
  - cbn [forOf]. f_equal. apply map_eq. intros k.
    destruct (Hinv k) as [?|(_ & _ & Hk)]; [done|]. by apply elem_of_nil in Hk.
  - cbn [forOf].
    destruct (Hround key assoc s) as [[-> Hunset]|(w & Hw & ->)];
      [by left| |]; cbn [bind]; apply IH;
      try (intros; apply Hround; by right).
    + intros k. destruct (Hinv k) as [?|(Hk & Hattr & Hin)]; [by left|].
      simpl in Hin. apply elem_of_cons in Hin as [->|Hin].
      * left. by rewrite Hk, Hunset.
      * by right.
    + intros k. destruct (decide (k = key)) as [->|Hne].
      * left. by rewrite lookup_insert_eq.
      * rewrite lookup_insert_ne by done.
        destruct (Hinv k) as [?|(Hk & Hattr & Hin)]; [by left|].
        simpl in Hin. apply elem_of_cons in Hin as [->|Hin]; [done|by right].
Qed.

Lemma serializeBody_idempotent rec this instance opts result :
  (∀ t x ao r, rec t x ao = Return r → rec t (VObj r) ao = Return r) →
  NoDup (getAssociations md this).*1 →
  serializeBody md rec this instance opts = Return result →
  serializeBody md rec this (VObj result) opts = Return result.
Proof.
  intros Hrec Hnd Hrun.
  pose proof (λ key, serializeBody_keys md rec this instance opts result key Hrun)
    as Hkeys.
  unfold serializeBody in Hrun |- *.
  destruct (default true (SerializeOptions.associations opts)) eqn:Hassoc.
  - apply (serializeLoop_again rec this).
    + intros key assoc s Hin.
      exact (serializeAssociation_again rec this instance _ _ result key assoc
               (λ t x r, Hrec t x _ r) Hnd eq_refl Hrun Hin s).
    + intros k. cbn [Lodash.toPlainObject]. rewrite pick_lookup.
      destruct (decide (k ∈ (getAttributes md this).*1)) as [Hattr|Hattr];
        [by left|].
      destruct (result !! k) as [w|] eqn:Hk; [|by left].
      right. split; [done|]. split; [done|].
      destruct (Hkeys k) as [?|(_ & _ & ?)]; [by rewrite Hk|done|done].
  - injection Hrun as <-. cbn [Lodash.toPlainObject].
    by rewrite pick_idempotent.
Qed.

Lemma serializeFuel_idempotent fuel this instance opts result :
  (∀ m, NoDup (getAssociations md m).*1) →
  serializeFuel md fuel this instance opts = Return result →
  serializeFuel md fuel this (VObj result) opts = Return result.
Proof.
  intros Hnd. revert this instance opts result.
  induction fuel as [|fuel IH]; intros this instance opts result;
    rewrite !serializeFuel_unfold; apply serializeBody_idempotent;
    try done.
Qed.

(** X21.  [serialize] is idempotent, one descriptor per association name
    in every model: handed the object it returned, with the same options,
    it returns that object again. *)
Theorem serialize_idempotent this instance opts result :
  (∀ m, NoDup (getAssociations md m).*1) →
  serialize md this instance opts = Return result →
  serialize md this (VObj result) opts = Return result.
Proof. intros Hnd. by apply serializeFuel_idempotent. Qed.

End Idempotence.

Lemma serialize_idempotent_witness :
  serialize Demo.md Demo.Parent
    (VObj {[ "name" := VStr "Lee";
             "children" := VArr [VObj {[ "name" := VStr "Kim" ]}] ]})
    SerializeOptions.none
  = Return {[ "name" := VStr "Lee";
              "children" := VArr [VObj {[ "name" := VStr "Kim" ]}] ]}.
Proof.
  apply (serialize_idempotent Demo.md Demo.Parent Demo.parent
           SerializeOptions.none).
  - intros []; apply (bool_decide_unpack _); by vm_compute.
  - by vm_compute.
Defined.

(** ** The further properties on the example models *)

Lemma validate_report_sound_witness :
  ∃ report,
    (validate Demo.md Demo.Account DemoMore.oddAccount ValidationOptions.none).2
      = Throw (ValidationError Demo.Account "Validation error" report) ∧
    report ≠ ∅ ∧ report !! "token" = None.
Proof.
  destruct (validate_report_sound Demo.md Demo.Account DemoMore.oddAccount
              ValidationOptions.none
              (ValidationError Demo.Account "Validation error"
                 {[ "age" := [{| err_type := "attribute.integer";
                                 err_message := "Not an integer" |}] ]}))
    as (report & Heq & Hne & Hkeys).
  - by vm_compute.
  - exists report. split; [by rewrite <- Heq; vm_compute|]. split; [done|].
    destruct (report !! "token") as [l|] eqn:E; [|done].
    destruct (Hkeys "token" l E) as [Hin _]. by vm_compute in Hin;
      repeat (apply elem_of_cons in Hin as [?|Hin]; [done|]);
      apply elem_of_nil in Hin.
Defined.

Lemma validate_report_exact_witness :
  ({[ "age" := [{| err_type := "attribute.integer";
                   err_message := "Not an integer" |}] ]} : ModelErrors)
    !! "email" = None.
Proof.
  rewrite (validate_report_exact Demo.md Demo.Account DemoMore.oddAccount
             ValidationOptions.none Demo.Account "Validation error"
             {[ "age" := [{| err_type := "attribute.integer";
                             err_message := "Not an integer" |}] ]}
             "email" (Demo.required Demo.STRING)).
  - by vm_compute.
  - apply (bool_decide_unpack _). by vm_compute.
  - by vm_compute.
  - vm_compute. by left.
Defined.

Lemma validate_required_irrelevant_witness :
  validate Demo.md Demo.Account DemoMore.oddAccount ValidationOptions.none =
  validate Demo.md Demo.Account DemoMore.oddAccount
           (ValidationOptions.mk (Some false)).
Proof.
  apply validate_required_irrelevant.
  intros key attr Hin Hnil. vm_compute in Hin.
  apply elem_of_cons in Hin as [Heq|Hin];
    [injection Heq as -> ->; by vm_compute in Hnil|].
  apply elem_of_cons in Hin as [Heq|Hin];
    [injection Heq as -> ->; by vm_compute in Hnil|].
  by apply elem_of_nil in Hin.
Defined.

Lemma validate_skips_optional_witness :
  TypeValidate "nickname" (VStr "anon") ∉
    (validate Demo.md Demo.Profile ∅ ValidationOptions.none).1.
Proof.
  destruct (validate_skips_optional Demo.md Demo.Profile ∅
              ValidationOptions.none "nickname") as (Hquiet & _).
  - reflexivity.
  - intros attr Hin. vm_compute in Hin.
    apply list_elem_of_singleton in Hin. by injection Hin as ->.
  - intros Hin. by apply (Hquiet _ Hin).
Defined.


Lemma validate_agrees_with_first_variant_witness :
  validate Demo.md Demo.Account Demo.emptyAccount ValidationOptions.none =
  BaseModel.validate Demo.md Demo.Account Demo.emptyAccount.
Proof.
  apply validate_agrees_with_first_variant.
  intros key attr f Hin _ _ _. vm_compute in Hin.
  apply elem_of_cons in Hin as [Heq|Hin]; [by injection Heq as -> ->|].
  apply elem_of_cons in Hin as [Heq|Hin]; [by injection Heq as -> ->|].
  by apply elem_of_nil in Hin.
Defined.

Lemma validate_coerces_thrown_witness :
  ∃ report l,
    (validate Demo.md Demo.Account
              {[ "email" := VStr ""; "age" := VNum 40 ]}
              ValidationOptions.none).2
      = Throw (ValidationError Demo.Account "Validation error" report) ∧
    report !! "email" = Some l ∧
    {| err_type := "unknown"; err_message := "Must not be empty" |} ∈ l.
Proof.
  apply (validate_coerces_thrown Demo.md Demo.Account
           {[ "email" := VStr ""; "age" := VNum 40 ]}
           ValidationOptions.none "email" (Demo.required Demo.STRING)
           (ThrowOther "Must not be empty")).
  - vm_compute. by left.
  - reflexivity.
  - right. exists Demo.notEmpty. split; [vm_compute; by left|reflexivity].
Defined.

Lemma constructor_defaults_and_data_witness :
  prop (constructor Demo.md Demo.Ticket (VObj ∅)
                    (ModelConstructorOptions.mk None)) "code" = VStr "T-0" ∧
  constructor Demo.md Demo.Ticket (Demo.obj [("code", VStr "T-7")])
              (ModelConstructorOptions.mk None) !! "code" = Some (VStr "T-7").
Proof.
  split.
  - destruct (constructor_defaults_and_data Demo.md Demo.Ticket (VObj ∅)
                (ModelConstructorOptions.mk None) "code"
                {| attr_type := Demo.STRING;
                   defaultValue := LazyLoad (λ _, VStr "T-0");
                   optional := false |}) as (Hunset & _).
    + apply (bool_decide_unpack _). by vm_compute.
    + vm_compute. by left.
    + reflexivity.
    + rewrite Hunset; [reflexivity|by left].
  - destruct (constructor_defaults_and_data Demo.md Demo.Ticket
                (Demo.obj [("code", VStr "T-7")])
                (ModelConstructorOptions.mk None) "code"
                {| attr_type := Demo.STRING;
                   defaultValue := LazyLoad (λ _, VStr "T-0");
                   optional := false |}) as (_ & Hgiven & _).
    + apply (bool_decide_unpack _). by vm_compute.
    + vm_compute. by left.
    + reflexivity.
    + by apply Hgiven.
Defined.


Lemma deserialize_converts_dates_witness :
  ({[ "title" := VStr "Dentist"; "at" := VDate (Some 1577836800000) ]}
   : gmap string value) !! "at" = Some (VDate (Some 1577836800000)).
Proof.
  rewrite (deserialize_converts_dates Demo.md Demo.DATE Demo.parseDate
             Demo.Appointment DemoMore.appointmentJSON DeserializeOptions.none).
  - by vm_compute.
  - by vm_compute.
  - vm_compute. right. by left.
  - apply (bool_decide_unpack _). by vm_compute.
Defined.

Lemma deserialize_validation_only_rejects_witness :
  deserialize Demo.md Demo.DATE Demo.parseDate Demo.Parent DemoMore.parentJSON
              (DeserializeOptions.mk None None (Some false))
    = Return {[ "name" := VStr "Lee";
                "children" := VArr [VObj {[ "name" := VStr "Kim" ]}] ]}.
Proof.
  destruct (deserialize_validation_only_rejects Demo.md Demo.DATE Demo.parseDate
              Demo.Parent DemoMore.parentJSON DeserializeOptions.none
              {[ "name" := VStr "Lee";
                 "children" := VArr [VObj {[ "name" := VStr "Kim" ]}] ]})
    as [_ Hoff].
  - by vm_compute.
  - exact Hoff.
Defined.

Lemma deserialize_rejections_witness :
  cannotDeserialize (ModelCtor := Demo.Ctor) "members" ≠ TypeError.
Proof.
  destruct (deserialize_rejections Demo.md Demo.DATE Demo.parseDate Demo.Crew
              Demo.oddCrew DeserializeOptions.none
              (cannotDeserialize "members")) as [Hne _].
  - by vm_compute.
  - exact Hne.
Defined.

Lemma deserialize_nests_witness :
  ∃ rs,
    Forall2 (λ item r,
               deserialize Demo.md Demo.DATE Demo.parseDate Demo.Child item
                 (nestedDeserializeOptions DeserializeOptions.none) = Return r)
            [Demo.obj [("name", VStr "Kim")]] rs ∧
    ({[ "name" := VStr "Lee";
        "children" := VArr [VObj {[ "name" := VStr "Kim" ]}] ]}
     : gmap string value) !! "children" = Some (VArr (VObj <$> rs)).
Proof.
  apply (deserialize_nests Demo.md Demo.DATE Demo.parseDate Demo.Parent
           DemoMore.parentJSON DeserializeOptions.none
           {[ "name" := VStr "Lee";
              "children" := VArr [VObj {[ "name" := VStr "Kim" ]}] ]}
           "children"
           {| assoc_type := HAS_MANY; target := LazyLoad (λ _, Some Demo.Child) |}
           Demo.Child).
  - by vm_compute.
  - reflexivity.
  - reflexivity.
  - apply (bool_decide_unpack _). by vm_compute.
  - vm_compute. by left.
  - reflexivity.
  - reflexivity.
Defined.

Lemma serialize_nests_witness :
  ∃ rs,
    Forall2 (λ item r,
               serialize Demo.md Demo.Child item
                 (nestedSerializeOptions SerializeOptions.none) = Return r)
            [Demo.child] rs ∧
    ({[ "name" := VStr "Lee";
        "children" := VArr [VObj {[ "name" := VStr "Kim" ]}] ]}
     : gmap string value) !! "children" = Some (VArr (VObj <$> rs)).
Proof.
  apply (serialize_nests Demo.md Demo.Parent Demo.parent SerializeOptions.none
           {[ "name" := VStr "Lee";
              "children" := VArr [VObj {[ "name" := VStr "Kim" ]}] ]}
           "children"
           {| assoc_type := HAS_MANY; target := LazyLoad (λ _, Some Demo.Child) |}
           Demo.Child).
  - by vm_compute.
  - reflexivity.
  - reflexivity.
  - apply (bool_decide_unpack _). by vm_compute.
  - vm_compute. by left.
  - reflexivity.
  - reflexivity.
Defined.

Lemma deserialize_fails_fast_witness :
  deserialize Demo.md Demo.DATE Demo.parseDate Demo.Owner Demo.haunted
              DeserializeOptions.none
    = Throw (ValidationError Demo.Pet "Validation error"
               {[ "name" := [required_error;
                             {| err_type := "attribute.string";
                                err_message := "Not a string" |}] ]}).
Proof.
  apply (deserialize_fails_fast Demo.md Demo.DATE Demo.parseDate Demo.Owner
           Demo.haunted DeserializeOptions.none "pet"
           {| assoc_type := HAS_ONE; target := Concrete (Some Demo.Pet) |}
           Demo.Pet []
           [("ghost", {| assoc_type := HAS_ONE; target := LazyLoad (λ _, None) |})]).
  - reflexivity.
  - reflexivity.
  - reflexivity.
  - intros k a Hin. by apply elem_of_nil in Hin.
  - reflexivity.
  - reflexivity.
  - reflexivity.
  - by vm_compute.
Defined.

Lemma deserialize_shallow_witness :
  deserialize Demo.md Demo.DATE Demo.parseDate Demo.Parent DemoMore.parentJSON
              (DeserializeOptions.mk None (Some 0) None)
    = Return {[ "name" := VStr "Lee" ]}.
Proof.
  rewrite (deserialize_shallow Demo.md Demo.DATE Demo.parseDate Demo.Parent
             DemoMore.parentJSON (DeserializeOptions.mk None (Some 0) None)).
  - by vm_compute.
  - right. split; [simpl; lia|].
    intros key assoc Hin _. vm_compute in Hin.
    apply list_elem_of_singleton in Hin. injection Hin as -> ->.
    by eexists.
Defined.

Lemma serialize_passes_attributes_witness :
  ({[ "title" := VStr "Dentist"; "at" := VDate (Some 1577836800000) ]}
   : gmap string value) !! "at" = Some (VDate (Some 1577836800000)).
Proof.
  rewrite (serialize_passes_attributes Demo.md Demo.Appointment Demo.appointment
             SerializeOptions.none).
  - by vm_compute.
  - by vm_compute.
  - vm_compute. right. by left.
  - apply (bool_decide_unpack _). by vm_compute.
Defined.

Lemma serialize_rejections_witness :
  serialize Demo.md Demo.Parent VNull SerializeOptions.none = Throw TypeError ∧
  serialize Demo.md Demo.Toy VNull SerializeOptions.none = Return ∅.
Proof.
  split.
  - destruct (serialize_rejections Demo.md Demo.Parent VNull
                SerializeOptions.none) as [_ Hnil].
    by rewrite Hnil.
  - destruct (serialize_rejections Demo.md Demo.Toy VNull
                SerializeOptions.none) as [_ Hnil].
    by rewrite Hnil.
Defined.

Lemma base_roundtrip_witness :
  ∃ r, BaseEngine.serialize Demo.Account
         (VObj (<["token" := VStr "secret"]> DemoMore.account)) = Return r ∧
       BaseEngine.deserialize Demo.md Demo.Account (VObj r)
         (Some {| BaseEngine.validate := Some true |})
         = Return (<["token" := VStr "secret"]> DemoMore.account).
Proof.
  destruct (base_roundtrip Demo.md Demo.Account
              (<["token" := VStr "secret"]> DemoMore.account)
              {| BaseEngine.validate := Some true |}) as [Hround _].
  - intros _. by vm_compute.
  - exact Hround.
Defined.
